(** * Flash sale: the reservation engine of [services/purchase.ts] and the
      status resolver of [services/status.ts], over a model of the Redis
      commands they issue.

    The development has four layers.
    - [Js]: the JavaScript values the handlers compute with (numbers, string
      truthiness, [Number], [trim]).
    - [Redis]: the store (string keys, the [sale:config] hash, the
      [sale:orders] list) and the per-connection WATCH state, with the
      commands WATCH, UNWATCH, MGET, GET, HGETALL and MULTI/EXEC.
    - the handlers [getStatus], [getPurchase], [doPurchase] and
      [attemptPurchase], once as sequential programs in the state monad of
      the store and once as coroutines that are interleaved at every
      [await].
    - what surrounds the handlers: the configuration of [config.ts], the
      start of the server and the pool of [services/redis.ts], the rate
      limit, the CSRF check and the routes, the allowed origins of
      [index.ts], the [resetSale] of the tests and the messages of the
      client. *)

From Stdlib Require Import ZArith QArith Lia.
From Stdlib Require Import Ascii String Decimal DecimalString DecimalPos DecimalZ.
From Stdlib Require Import Strings.Byte NArith.
From stdpp Require Import base option list gmap strings.

Local Open Scope Z_scope.
Local Open Scope string_scope.

(** ** JavaScript values *)

Module Js.

(** A JavaScript number: NaN, the two infinities, or a finite value. A finite
    value is kept as a rational; [round] below takes the result of an
    operation to the nearest double. Zero has no sign here. *)
Inductive number :=
| NaN
| PosInf
| NegInf
| Fin (q : Q).

(** The number of the integer [z], for an integer that a double holds: every
    integer up to [2^53] in absolute value is one, and so are the literals
    of the program and the time of [Date.now()]. *)
Definition of_Z (z : Z) : number := Fin (inject_Z z).

(** [n / d] against a power of two: [(N, D)] with [N / D = (n / d) / 2^p]. *)
Definition scale (n d p : Z) : Z * Z :=
  if (0 <=? p)%Z then (n, d * 2 ^ p)%Z else (n * 2 ^ (- p), d)%Z.

(** The exponent [e] with [2^e <= n / d < 2^(e+1)], for positive [n]
    and [d]. *)
Definition floor_log2 (n d : Z) : Z :=
  let k := (Z.log2 n - Z.log2 d)%Z in
  let '(N, D) := scale n d k in
  if (D <=? N)%Z then k else (k - 1)%Z.

(** The integer nearest to [N / D], and the even one of two that are
    equally near. *)
Definition nearest_even (N D : Z) : Z :=
  let m := (N / D)%Z in
  match (2 * (N mod D) ?= D)%Z with
  | Lt => m
  | Gt => (m + 1)%Z
  | Eq => if Z.even m then m else (m + 1)%Z
  end.

(** The double nearest to the positive rational [n / d] (IEEE 754 binary64,
    round to nearest, ties to even): a significand [m] of at most 53 bits
    times [2^p], the least [p] being -1074; [None] when the result is
    [2^1024] or more. *)
Definition round_pos (n d : Z) : option Q :=
  let p := Z.max (floor_log2 n d - 52) (-1074) in
  let '(N, D) := scale n d p in
  let m := nearest_even N D in
  if (0 <=? p)%Z then
    if (2 ^ 1024 <=? m * 2 ^ p)%Z then None else Some (inject_Z (m * 2 ^ p))
  else Some (Qred (m # Z.to_pos (2 ^ (- p)))).

(** The double nearest to [q]; an infinity when [q] is out of range. *)
Definition round (q : Q) : number :=
  match Qnum (Qred q) with
  | Z0 => Fin 0
  | Zpos n =>
      match round_pos (Zpos n) (Zpos (Qden (Qred q))) with
      | Some v => Fin v
      | None => PosInf
      end
  | Zneg n =>
      match round_pos (Zpos n) (Zpos (Qden (Qred q))) with
      | Some v => Fin (- v)
      | None => NegInf
      end
  end.

(** The double nearest to the integer [z]: what JavaScript makes of an
    integer literal, of the decimal text of an integer, and of an integer
    reply of Redis. *)
Definition nearest (z : Z) : number := round (inject_Z z).

(** [Number.isFinite]. *)
Definition isFinite (x : number) : bool :=
  match x with
  | Fin _ => true
  | _ => false
  end.

(** [a < b]; every comparison with NaN is false. *)
Definition lt (a b : number) : bool :=
  match a, b with
  | NaN, _ | _, NaN => false
  | NegInf, NegInf => false
  | NegInf, _ => true
  | _, NegInf => false
  | PosInf, _ => false
  | Fin _, PosInf => true
  | Fin x, Fin y => negb (Qle_bool y x)
  end.

(** [a > b]. *)
Definition gt (a b : number) : bool := lt b a.

(** [a <= b]. *)
Definition le (a b : number) : bool :=
  match a, b with
  | NaN, _ | _, NaN => false
  | NegInf, _ => true
  | _, PosInf => true
  | _, NegInf => false
  | PosInf, _ => false
  | Fin x, Fin y => Qle_bool x y
  end.

(** [a - b]: the difference, rounded. *)
Definition sub (a b : number) : number :=
  match a, b with
  | NaN, _ | _, NaN => NaN
  | PosInf, PosInf | NegInf, NegInf => NaN
  | PosInf, _ => PosInf
  | NegInf, _ => NegInf
  | Fin _, PosInf => NegInf
  | Fin _, NegInf => PosInf
  | Fin x, Fin y => round (x - y)
  end.

(** Truthiness of a number: NaN and zero are falsy. *)
Definition truthy_num (x : number) : bool :=
  match x with
  | NaN => false
  | Fin q => negb (Qeq_bool q 0)
  | _ => true
  end.

(** [x || 0] on numbers. *)
Definition or0 (x : number) : number :=
  if truthy_num x then x else of_Z 0.

(** Truthiness of a string-or-null: [null] and the empty string are falsy. *)
Definition truthy (v : option string) : bool :=
  match v with
  | Some s => negb (String.eqb s "")
  | None => false
  end.

(** [v || d] on strings. *)
Definition or_str (v : option string) (d : string) : string :=
  match v with
  | Some s => if String.eqb s "" then d else s
  | None => d
  end.

(** The decimal text of an integer: [String(n)] for an integer number, and
    the text Redis stores for an integer value. *)
Definition string_of_Z (z : Z) : string :=
  NilZero.string_of_int (Z.to_int z).

(** The value of a decimal integer literal (an optional minus sign and at
    least one digit), if the text is one. *)
Definition Z_of_string (s : string) : option Z :=
  Z.of_int <$> NilZero.int_of_string s.

Definition INT64_MIN : Z := - 2 ^ 63.
Definition INT64_MAX : Z := 2 ^ 63 - 1.

Definition in_int64 (z : Z) : bool :=
  ((INT64_MIN <=? z)%Z && (z <=? INT64_MAX)%Z)%bool.

(** White space of [String.prototype.trim] among the code units below 256:
    TAB, LF, VT, FF, CR, SP and NBSP. A string is a sequence of such code
    units. *)
Definition is_space (a : ascii) : bool :=
  let n := nat_of_ascii a in
  ((9 <=? n)%nat && (n <=? 13)%nat) || (n =? 32)%nat || (n =? 160)%nat.

Fixpoint trimStart (s : string) : string :=
  match s with
  | String a s' => if is_space a then trimStart s' else s
  | EmptyString => EmptyString
  end.

Fixpoint trimEnd (s : string) : string :=
  match s with
  | String a s' =>
      match trimEnd s' with
      | EmptyString => if is_space a then EmptyString else String a EmptyString
      | t => String a t
      end
  | EmptyString => EmptyString
  end.

Definition trim (s : string) : string := trimEnd (trimStart s).

Section Number.

(** [Number(s)] on the texts that are not decimal integers of the signed
    64-bit range (fractions, exponents, radix prefixes, surrounding white
    space, [Infinity], anything that is not a number): whatever the
    JavaScript engine answers. *)
Variable NumberOther : string → number.

(** [Number(s)] for a string [s]. The empty string is zero; a decimal
    integer of the signed 64-bit range (the range of a Redis integer) is
    the double nearest to its value. *)
Definition Number (s : string) : number :=
  if String.eqb s "" then of_Z 0
  else match Z_of_string s with
       | Some z => if in_int64 z then nearest z else NumberOther s
       | None => NumberOther s
       end.

(** [Number(v)] for a string-or-null: [Number(null)] is zero. *)
Definition Number_null (v : option string) : number :=
  match v with
  | Some s => Number s
  | None => of_Z 0
  end.

(** [Number(v)] for a string-or-undefined: [Number(undefined)] is NaN. *)
Definition Number_undef (v : option string) : number :=
  match v with
  | Some s => Number s
  | None => NaN
  end.

End Number.

End Js.

#[global] Arguments Js.of_Z : simpl never.
#[global] Arguments Js.round : simpl never.
#[global] Arguments Js.nearest : simpl never.
#[global] Arguments Js.sub : simpl never.
#[global] Arguments Js.le : simpl never.
#[global] Arguments Js.lt : simpl never.
#[global] Arguments Js.Number : simpl never.

(** ** The Redis store and its commands *)

Module Redis.

(** One element of the list [sale:orders]: the object whose JSON text
    [attemptPurchase] pushes, [{userId, ts, orderId}], kept by field. *)
Record order_entry := OrderEntry {
  e_userId : string;
  e_ts : Z;
  e_orderId : string
}.

(** The WATCH state of one client connection: the keys it watches and
    whether one of them was written since (the connection's CAS flag). *)
Record conn := Conn {
  watched : gset string;
  dirty : bool
}.

Definition fresh : conn := Conn ∅ false.

(** The server: the string keys ([sale:stock] and the [user:<id>] keys), the
    hash [sale:config], the list [sale:orders], and the WATCH state of every
    connection, by connection number. *)
Record db := Db {
  strs : gmap string string;
  config : gmap string string;
  orders : list order_entry;
  conns : gmap nat conn
}.

Definition set_strs (f : gmap string string → gmap string string) (s : db) : db :=
  Db (f (strs s)) (config s) (orders s) (conns s).

Definition set_orders (f : list order_entry → list order_entry) (s : db) : db :=
  Db (strs s) (config s) (f (orders s)) (conns s).

Definition set_conns (f : gmap nat conn → gmap nat conn) (s : db) : db :=
  Db (strs s) (config s) (orders s) (f (conns s)).

Definition getconn (s : db) (c : nat) : conn := default fresh (conns s !! c).

(** A command that runs on the server and answers with an [A]. *)
Definition M (A : Type) : Type := db → A * db.

#[global] Instance M_ret : MRet M := λ A (a : A) s, (a, s).
#[global] Instance M_bind : MBind M :=
  λ A B (f : A → M B) (m : M A) s, let '(a, s') := m s in f a s'.

(** A write to key [k] flags every connection that watches [k]. *)
Definition touch (k : string) (s : db) : db :=
  set_conns (fmap (λ c, if bool_decide (k ∈ watched c) then Conn (watched c) true else c)) s.

(** WATCH key [key ...] on connection [c]. *)
Definition watch (c : nat) (ks : list string) : M unit :=
  λ s, (tt, set_conns (insert c (Conn (watched (getconn s c) ∪ list_to_set ks)
                                     (dirty (getconn s c)))) s).

(** UNWATCH on connection [c]: forgets the watched keys and the flag. *)
Definition unwatch (c : nat) : M unit :=
  λ s, (tt, set_conns (insert c fresh) s).

(** GET key. *)
Definition get (k : string) : M (option string) :=
  λ s, (strs s !! k, s).

(** MGET key [key ...]. *)
Definition mget (ks : list string) : M (list (option string)) :=
  λ s, ((λ k, strs s !! k) <$> ks, s).

(** HGETALL sale:config. *)
Definition hgetall_config : M (gmap string string) :=
  λ s, (config s, s).

(** The commands queued in a transaction. *)
Inductive cmd :=
| DECR (k : string)
| INCR (k : string)
| SET (k v : string)
| DEL (k : string)
| LPUSH_orders (e : order_entry).

(** The reply to one command: an integer, [OK], or an error. *)
Inductive reply :=
| RInt (z : Z)
| ROk
| RErr.

(** Redis reads a string as an integer only when it is the canonical decimal
    text of a signed 64-bit value. *)
Definition string2ll (t : string) : option Z :=
  match Js.Z_of_string t with
  | Some z => if String.eqb (Js.string_of_Z z) t && Js.in_int64 z then Some z else None
  | None => None
  end.

(** INCRBY key d: a missing key counts as 0; a value that is not an integer,
    or a result out of range, is an error and changes nothing. *)
Definition incrby (k : string) (d : Z) (s : db) : reply * db :=
  match match strs s !! k with
        | Some t => string2ll t
        | None => Some 0
        end with
  | Some z =>
      if Js.in_int64 (z + d)
      then (RInt (z + d), touch k (set_strs (insert k (Js.string_of_Z (z + d))) s))
      else (RErr, s)
  | None => (RErr, s)
  end.

Definition exec_cmd (x : cmd) (s : db) : reply * db :=
  match x with
  | DECR k => incrby k (-1) s
  | INCR k => incrby k 1 s
  | SET k v => (ROk, touch k (set_strs (insert k v) s))
  | DEL k =>
      match strs s !! k with
      | Some _ => (RInt 1, touch k (set_strs (delete k) s))
      | None => (RInt 0, s)
      end
  | LPUSH_orders e =>
      (RInt (Z.of_nat (S (length (orders s)))),
       touch "sale:orders" (set_orders (cons e) s))
  end.

Fixpoint exec_cmds (xs : list cmd) (s : db) : list reply * db :=
  match xs with
  | [] => ([], s)
  | x :: xs' =>
      let '(r, s1) := exec_cmd x s in
      let '(rs, s2) := exec_cmds xs' s1 in
      (r :: rs, s2)
  end.

(** MULTI, the queued commands, EXEC, sent as one batch on connection [c].
    EXEC answers null and runs nothing when the connection is flagged;
    otherwise it runs every command (a command that fails does not stop the
    others). Either way the connection watches nothing afterwards. *)
Definition multi_exec (c : nat) (xs : list cmd) : M (option (list reply)) :=
  λ s,
    if dirty (getconn s c) then (None, (unwatch c s).2)
    else let '(rs, s') := exec_cmds xs (unwatch c s).2 in (Some rs, s').

End Redis.

(** ** The handlers *)

Import Redis.

Definition stockKey : string := "sale:stock".
Definition userKey (userId : string) : string := "user:" ++ userId.

(** What [attemptPurchase] returns: [{code}], [{code, orderId}] or
    [{code, reason}]. *)
Record result := Result {
  code : Z;
  orderId : option string;
  reason : option string
}.

(** The four phases of [getStatus]. *)
Inductive phase := upcoming | active | ended | sold_out.

Record status_reply := StatusReply {
  st_status : phase;
  st_startsAt : Js.number;
  st_endsAt : Js.number;
  st_stock : Js.number;
  st_sold : Js.number;
  st_productId : option string;
  st_productDescription : option string
}.

(** The JSON bodies the two purchase handlers send. *)
Inductive body :=
| BError (error : string)
| BLookup (purchased : bool) (orderId : option string)
| BPurchased (orderId : option string)
| BAlreadyPurchased (orderId : option string)
| BSoldOut
| BNotActive
| BBusy (retryAfterMs : Z).

(** An HTTP answer: status code and body. *)
Record http := Http {
  http_status : Z;
  http_body : body
}.

(** The window check of [attemptPurchase]: [now < startsAt || now > endsAt]. *)
Definition window_closed (now : Z) (startsAt endsAt : Js.number) : bool :=
  Js.lt (Js.of_Z now) startsAt || Js.gt (Js.of_Z now) endsAt.

(** The number JavaScript sees in the first reply of a transaction,
    [Number(res[0]?.[1])]: the double nearest to the integer of an integer
    reply, NaN when the command failed or the reply is missing. *)
Definition Number_reply (rs : list reply) : Js.number :=
  match rs with
  | RInt z :: _ => Js.nearest z
  | _ => Js.NaN
  end.

(** [getTxConn]: the pool hands out its [pool] connections in turn; [rr] is
    the counter. An empty pool throws. *)
Definition getTxConn (pool rr : nat) : option (nat * nat) :=
  if (pool =? 0)%nat then None else Some ((rr mod pool)%nat, S rr).

Section Handlers.

Variable NumberOther : string → Js.number.

(** [MAX_RETRIES]: how often the loop of [attemptPurchase] runs at most
    (5 unless the environment says otherwise). *)
Variable MAX_RETRIES : nat.

Abbreviation Number := (Js.Number NumberOther).
Abbreviation Number_null := (Js.Number_null NumberOther).
Abbreviation Number_undef := (Js.Number_undef NumberOther).

(** [getStatus], called when the clock ([Date.now()]) shows [clock]. *)
Definition getStatus (clock : Z) : M status_reply :=
  cfg ← hgetall_config;
  raw ← get stockKey;
  let stock := Js.or0 (Number_null raw) in
  let startsAt := Number_undef (cfg !! "startsAt") in
  let endsAt := Number_undef (cfg !! "endsAt") in
  let now := Js.of_Z clock in
  let sold := Js.sub (Js.or0 (Number_undef (cfg !! "initialStock"))) stock in
  let status :=
    if Js.lt now startsAt then upcoming
    else if Js.gt now endsAt then ended
    else if Js.le stock (Js.of_Z 0) then sold_out
    else active in
  mret (StatusReply status startsAt endsAt stock sold
          (cfg !! "productId") (cfg !! "productDescription")).

(** [getPurchase], for the path parameter [userId]. *)
Definition getPurchase (userId : option string) : M http :=
  if negb (Js.truthy userId) || (String.length (Js.trim (Js.or_str userId "")) <? 3)%nat
  then mret (Http 422 (BError "invalid_user"))
  else
    let key := userKey (Js.trim (Js.or_str userId "")) in
    orderId ← get key;
    mret (Http 200 (BLookup (Js.truthy orderId) orderId)).

(** The body of the retry loop of [attemptPurchase] on connection [conn],
    with [n] iterations left: [tries] is [MAX_RETRIES - n]. The sleep
    between two iterations changes nothing in the store. *)
Fixpoint attempt_loop (conn : nat) (userId : string) (now : Z)
    (startsAt endsAt : Js.number) (n : nat) : M result :=
  match n with
  | O =>
      unwatch conn;;
      mret (Result 4 None (Some "contention"))
  | S n' =>
      watch conn [stockKey; userKey userId];;
      if window_closed now startsAt endsAt then
        unwatch conn;;
        mret (Result 3 None None)
      else
        vals ← mget [stockKey; userKey userId];
        let stockStr := vals !!! 0%nat in
        let existing := vals !!! 1%nat in
        if Js.truthy existing then
          unwatch conn;;
          mret (Result 1 existing None)
        else
          let stock := Number (Js.or_str stockStr "0") in
          if negb (Js.isFinite stock) || Js.le stock (Js.of_Z 0) then
            unwatch conn;;
            mret (Result 2 None None)
          else
            let orderId := Js.string_of_Z now ++ ":" ++ userId in
            res ← multi_exec conn
                    [DECR stockKey; SET (userKey userId) orderId;
                     LPUSH_orders (OrderEntry userId now orderId)];
            match res with
            | None =>
                unwatch conn;;
                attempt_loop conn userId now startsAt endsAt n'
            | Some rs =>
                let newStock := Number_reply rs in
                if Js.isFinite newStock && Js.lt newStock (Js.of_Z 0) then
                  multi_exec conn [INCR stockKey; DEL (userKey userId)];;
                  mret (Result 2 None None)
                else
                  mret (Result 0 (Some orderId) None)
            end
  end.

(** [attemptPurchase({userId, now, startsAt, endsAt})] on the connection
    [conn] that [getTxConn] handed out. *)
Definition attemptPurchase (conn : nat) (userId : string) (now : Z)
    (startsAt endsAt : Js.number) : M result :=
  attempt_loop conn userId now startsAt endsAt MAX_RETRIES.

(** How [doPurchase] answers for a result of [attemptPurchase]. *)
Definition respond (r : result) : http :=
  if (code r =? 0)%Z then Http 200 (BPurchased (orderId r))
  else if (code r =? 1)%Z then Http 409 (BAlreadyPurchased (orderId r))
  else if (code r =? 2)%Z then Http 410 BSoldOut
  else if (code r =? 3)%Z then Http 403 BNotActive
  else if (code r =? 4)%Z then Http 503 (BBusy 50)
  else Http 500 (BError "unknown").

(** [doPurchase] for the body field [userId], when the clock shows [clock]
    and [getTxConn] hands out connection [conn]. *)
Definition doPurchase (conn : nat) (clock : Z) (body_userId : option string) : M http :=
  let userId := Js.trim (Js.or_str body_userId "") in
  if String.eqb userId "" || (String.length userId <? 3)%nat
  then mret (Http 422 (BError "invalid_user"))
  else
    cfg ← hgetall_config;
    let startsAt := Number_undef (cfg !! "startsAt") in
    let endsAt := Number_undef (cfg !! "endsAt") in
    let now := clock in
    r ← attemptPurchase conn userId now startsAt endsAt;
    mret (respond r).

(** *** [attemptPurchase] as a coroutine

    Many calls of [attemptPurchase] are in flight at once, and the server
    sees their commands interleaved: a call runs up to its next [await],
    that is up to the answer of its next Redis command, and then any call
    may go on. [pc] says where a call waits:
    - [PLoop tries]: at the head of the loop, before [tries < MAX_RETRIES]
      is tested;
    - [PWindow tries]: WATCH is answered, the window check comes next;
    - [PRead tries stockStr existing]: MGET is answered with
      [[stockStr, existing]];
    - [PConflict tries]: EXEC answered null;
    - [PRollback]: EXEC answered with a negative stock;
    - [PDone r]: the call returned [r]. *)

Inductive pc :=
| PLoop (tries : nat)
| PWindow (tries : nat)
| PRead (tries : nat) (stockStr existing : option string)
| PConflict (tries : nat)
| PRollback
| PDone (r : result).

Record call := Call {
  c_conn : nat;
  c_userId : string;
  c_now : Z;
  c_startsAt : Js.number;
  c_endsAt : Js.number;
  c_pc : pc
}.

Definition at_pc (c : call) (p : pc) : call :=
  Call (c_conn c) (c_userId c) (c_now c) (c_startsAt c) (c_endsAt c) p.

(** One command of call [c] and what the call does with the answer. *)
Definition step (c : call) : M call :=
  let conn := c_conn c in
  let userId := c_userId c in
  let now := c_now c in
  match c_pc c with
  | PLoop tries =>
      if (tries <? MAX_RETRIES)%nat then
        watch conn [stockKey; userKey userId];;
        mret (at_pc c (PWindow tries))
      else
        unwatch conn;;
        mret (at_pc c (PDone (Result 4 None (Some "contention"))))
  | PWindow tries =>
      if window_closed now (c_startsAt c) (c_endsAt c) then
        unwatch conn;;
        mret (at_pc c (PDone (Result 3 None None)))
      else
        vals ← mget [stockKey; userKey userId];
        mret (at_pc c (PRead tries (vals !!! 0%nat) (vals !!! 1%nat)))
  | PRead tries stockStr existing =>
      if Js.truthy existing then
        unwatch conn;;
        mret (at_pc c (PDone (Result 1 existing None)))
      else
        let stock := Number (Js.or_str stockStr "0") in
        if negb (Js.isFinite stock) || Js.le stock (Js.of_Z 0) then
          unwatch conn;;
          mret (at_pc c (PDone (Result 2 None None)))
        else
          let orderId := Js.string_of_Z now ++ ":" ++ userId in
          res ← multi_exec conn
                  [DECR stockKey; SET (userKey userId) orderId;
                   LPUSH_orders (OrderEntry userId now orderId)];
          match res with
          | None => mret (at_pc c (PConflict tries))
          | Some rs =>
              let newStock := Number_reply rs in
              if Js.isFinite newStock && Js.lt newStock (Js.of_Z 0)
              then mret (at_pc c PRollback)
              else mret (at_pc c (PDone (Result 0 (Some orderId) None)))
          end
  | PConflict tries =>
      unwatch conn;;
      mret (at_pc c (PLoop (S tries)))
  | PRollback =>
      multi_exec conn [INCR stockKey; DEL (userKey userId)];;
      mret (at_pc c (PDone (Result 2 None None)))
  | PDone r => mret c
  end.

(** The calls in flight and the server. *)
Record world := World {
  calls : list call;
  store : db
}.

(** Call number [i] runs up to its next [await]. *)
Definition step_at (i : nat) (w : world) : world :=
  match calls w !! i with
  | Some c => let '(c', s') := step c (store w) in World (<[i := c']> (calls w)) s'
  | None => w
  end.

(** A schedule names the call that moves, step after step. *)
Definition run (sched : list nat) (w : world) : world :=
  fold_left (λ w i, step_at i w) sched w.

(** A call run on its own for [fuel] steps. *)
Fixpoint run_alone (fuel : nat) (c : call) : M call :=
  match fuel with
  | O => mret c
  | S fuel' => c' ← step c; run_alone fuel' c'
  end.

(** The call [doPurchase] starts once it has read the configuration of
    [s] at time [clock]. *)
Definition start_call (conn : nat) (clock : Z) (userId : string) (s : db) : call :=
  Call conn userId clock
    (Number_undef (config s !! "startsAt"))
    (Number_undef (config s !! "endsAt"))
    (PLoop 0).

(** The calls of [attemptPurchase] for the buyers [userIds], all of which
    read the configuration of [s] at time [clock], each on the connection
    that [getTxConn] hands out next. *)
Fixpoint attempts (pool rr : nat) (clock : Z) (userIds : list string) (s : db) : list call :=
  match userIds with
  | [] => []
  | userId :: userIds' =>
      match getTxConn pool rr with
      | Some (conn, rr') =>
          start_call conn clock userId s :: attempts pool rr' clock userIds' s
      | None => []
      end
  end.

(** The buyers of the purchase requests with the body fields [userIds] that
    [doPurchase] passes on to [attemptPurchase]: the field is trimmed, and a
    request with fewer than three characters left is answered 422 before
    [getTxConn] is called. *)
Definition accepted (userIds : list string) : list string :=
  filter (λ userId, (3 ≤ String.length userId)%nat) (Js.trim <$> userIds).

(** The calls that the purchase requests with the body fields [userIds]
    start, in the order of the requests. A request that is answered 422
    starts no call and takes no connection. *)
Definition launch (pool rr : nat) (clock : Z) (userIds : list string) (s : db) : list call :=
  attempts pool rr clock (accepted userIds) s.

Definition result_of (c : call) : option result :=
  match c_pc c with
  | PDone r => Some r
  | _ => None
  end.

Definition returned (k : Z) (c : call) : bool :=
  match c_pc c with
  | PDone r => (code r =? k)%Z
  | _ => false
  end.

Definition finished (c : call) : bool :=
  match c_pc c with
  | PDone _ => true
  | _ => false
  end.

(** How many calls of a list satisfy [f], and how many have returned
    code [k]. *)
Definition count (f : call → bool) (cs : list call) : nat :=
  sum_list_with (λ c, Nat.b2n (f c)) cs.

Definition count_code (k : Z) (cs : list call) : nat := count (returned k) cs.

(** *** Predicates of the statements below

    The data of the store, without the WATCH state of the connections. *)
Definition same_data (s s' : db) : Prop :=
  strs s' = strs s ∧ orders s' = orders s ∧ config s' = config s.

(** The stock values on which the stock check answers sold out: no value, a
    value that is no finite number, or a number that is at most zero. *)
Definition stock_exhausted (v : option string) : Prop :=
  match v with
  | None => True
  | Some t =>
      Js.isFinite (Number t) = false ∨
      Js.le (Number t) (Js.of_Z 0) = true
  end.

(** *** Operations run one after the other

    The three operations of the engine as the routes call them: a purchase
    ([doPurchase]), a lookup ([getPurchase]) and a status request
    ([getStatus]). *)

Inductive op :=
| Reserve (conn : nat) (clock : Z) (body_userId : option string)
| Lookup (userId : option string)
| Status (clock : Z).

(** The store after one operation that ran to its end. *)
Definition run_op (o : op) (s : db) : db :=
  match o with
  | Reserve conn clock body_userId => (doPurchase conn clock body_userId s).2
  | Lookup userId => (getPurchase userId s).2
  | Status clock => (getStatus clock s).2
  end.

Definition run_ops (os : list op) (s : db) : db :=
  fold_left (λ s o, run_op o s) os s.

(** No operation of [os], run from [s], is a purchase that buyer [u] is
    answered status 200. *)
Fixpoint no_purchase_by (u : string) (os : list op) (s : db) : Prop :=
  match os with
  | [] => True
  | o :: os' =>
      match o with
      | Reserve conn clock body_userId =>
          Js.trim (Js.or_str body_userId "") = u →
          http_status (doPurchase conn clock body_userId s).1 ≠ 200%Z
      | _ => True
      end
      ∧ no_purchase_by u os' (run_op o s)
  end.

(** How many steps a call has left at most: four for every iteration of the
    loop that is left (WATCH, MGET, EXEC, UNWATCH), and the last UNWATCH. *)
Definition steps_left (c : call) : nat :=
  match c_pc c with
  | PLoop tries => 4 * (MAX_RETRIES - tries) + 1
  | PWindow tries => 4 * (MAX_RETRIES - S tries) + 4
  | PRead tries _ _ => 4 * (MAX_RETRIES - S tries) + 3
  | PConflict tries => 4 * (MAX_RETRIES - S tries) + 2
  | PRollback => 1
  | PDone _ => 0
  end.

(** *** The invariant of interleaved calls with distinct buyers *)

(** What a step never changes in a call. *)
Definition same_params (c c' : call) : Prop :=
  c_conn c' = c_conn c ∧ c_userId c' = c_userId c ∧ c_now c' = c_now c
  ∧ c_startsAt c' = c_startsAt c ∧ c_endsAt c' = c_endsAt c.

(** A call that has not yet run its purchase transaction nor returned. *)
Definition undecided (c : call) : bool :=
  match c_pc c with
  | PDone _ | PRollback => false
  | _ => true
  end.

(** A call whose transaction took the stock below zero and that has its
    rollback still to run. *)
Definition rolling_back (c : call) : bool :=
  match c_pc c with
  | PRollback => true
  | _ => false
  end.

(** All [S] units are reserved. *)
Definition all_sold (S : Z) (cs : list call) : Prop :=
  Z.of_nat (count_code 0 cs) = S.

(** The stock counter [z] against the calls: reserved units and pending
    rollbacks never add up to more than the [S] units of the sale, and once
    a transaction went below zero, or a rollback was lost, all units are
    reserved. *)
Definition counters (S z : Z) (cs : list call) : Prop :=
  let R := Z.of_nat (count_code 0 cs) in
  let P := Z.of_nat (count rolling_back cs) in
  let U := Z.of_nat (count undecided cs) in
  let N := Z.of_nat (length cs) in
  (z + P + R ≤ S ∧ R ≤ S ∧ (0 < P → R = S) ∧ (z + P + R < S → R = S)
   ∧ U - N ≤ z)%Z.

(** What holds of one call: its window is open; as long as it is undecided
    its buyer has no receipt; it read an integer stock, of which a value of
    at most zero means that all units are reserved; and it returns code 0
    with its order identifier, code 2 when all units are reserved, or
    code 4. *)
Definition call_ok (m : gmap string string) (sold : Prop) (c : call) : Prop :=
  window_closed (c_now c) (c_startsAt c) (c_endsAt c) = false ∧
  match c_pc c with
  | PLoop _ | PWindow _ | PConflict _ => m !! userKey (c_userId c) = None
  | PRead _ stockStr existing =>
      m !! userKey (c_userId c) = None ∧ existing = None
      ∧ ∃ z', stockStr = Some (Js.string_of_Z z') ∧ Js.in_int64 z' = true
              ∧ ((z' ≤ 0)%Z → sold)
  | PRollback => True
  | PDone r =>
      r = Result 0 (Some (Js.string_of_Z (c_now c) ++ ":" ++ c_userId c)) None
      ∨ (r = Result 2 None None ∧ sold)
      ∨ r = Result 4 None (Some "contention")
  end.

Definition inv (S : Z) (w : world) : Prop :=
  ∃ z, strs (store w) !! stockKey = Some (Js.string_of_Z z)
       ∧ counters S z (calls w)
       ∧ NoDup (c_userId <$> calls w)
       ∧ Forall (call_ok (strs (store w)) (all_sold S (calls w))) (calls w).

(** The worlds a sale of [S] units starts from: every call at the head of its
    loop, inside its window, for buyers that are pairwise distinct and have
    no receipt. *)
Definition initial (S : Z) (w : world) : Prop :=
  strs (store w) !! stockKey = Some (Js.string_of_Z S)
  ∧ NoDup (c_userId <$> calls w)
  ∧ Forall (λ c, c_pc c = PLoop 0
                 ∧ window_closed (c_now c) (c_startsAt c) (c_endsAt c) = false
                 ∧ strs (store w) !! userKey (c_userId c) = None) (calls w).

(** *** The invariant of calls that share no connection *)

(** A connection as another client's commands may leave it: it watches the
    same keys, and a flag that is set stays set. *)
Definition conn_le (x x' : conn) : Prop :=
  watched x' = watched x ∧ (dirty x = true → dirty x' = true).

(** What the commands of other clients do to connection [c] between [s] and
    [s']: a string key that changed flags the connection if it watches the
    key. *)
Definition flags_watchers (c : nat) (s s' : db) : Prop :=
  conn_le (getconn s c) (getconn s' c)
  ∧ ∀ k, strs s' !! k ≠ strs s !! k →
         k ∈ watched (getconn s c) → dirty (getconn s' c) = true.

(** What holds of a call on a connection of its own while the stock counter
    holds [z]: from the answer to WATCH on, its connection watches the stock
    counter; the stock it read is the stock that is there, or else its
    connection is flagged; and it never has a rollback to run. *)
Definition call_iso (s : db) (z : Z) (c : call) : Prop :=
  match c_pc c with
  | PWindow _ => stockKey ∈ watched (getconn s (c_conn c))
  | PRead _ stockStr _ =>
      stockKey ∈ watched (getconn s (c_conn c))
      ∧ (dirty (getconn s (c_conn c)) = true ∨ stockStr = Some (Js.string_of_Z z))
  | PRollback => False
  | _ => True
  end.

Definition inv_iso (S : Z) (w : world) : Prop :=
  ∃ z, strs (store w) !! stockKey = Some (Js.string_of_Z z)
       ∧ (z + Z.of_nat (count_code 0 (calls w)) = S)%Z
       ∧ NoDup (c_conn <$> calls w)
       ∧ Forall (call_iso (store w) z) (calls w).

End Handlers.

(** ** A sale to run the definitions on

    The configuration of the tests: a window from 0 to 100, requests at time
    50, the default five iterations of the loop and the default pool of
    eight connections. *)

Module Sale.

(** [Number] here answers NaN on every text that is no decimal integer. *)
Definition NumberOther (s : string) : Js.number := Js.NaN.

Definition MAX_RETRIES : nat := 5.
Definition POOL_SIZE : nat := 8.

(** The store that [resetSale] leaves for a stock of [stock]. *)
Definition sale (stock : Z) : db :=
  Db {[ stockKey := Js.string_of_Z stock ]}
     {[ "productId" := "LE-001"; "startsAt" := "0"; "endsAt" := "100";
        "initialStock" := Js.string_of_Z stock ]}
     [] ∅.

(** The world in which the buyers of [userIds] have each sent a purchase at
    time 50 for a sale of [stock] units. *)
Definition world_of (stock : Z) (userIds : list string) : world :=
  World (launch NumberOther POOL_SIZE 0 50 userIds (sale stock)) (sale stock).

Definition go (sched : list nat) (w : world) : world :=
  run NumberOther MAX_RETRIES sched w.

(** Call 0 watches and reads, call [k] runs from its start to its end, and
    call 0 then has its transaction rejected and unwatches. *)
Definition round (k : nat) : list nat := [0; 0; k; k; k; 0; 0]%nat.

(** Five such rounds, and the step in which call 0 gives up. *)
Definition busy_schedule : list nat :=
  (round 1 ++ round 2 ++ round 3 ++ round 4 ++ round 5 ++ [0%nat])%list.

Definition six_buyers : list string :=
  ["buyer0"; "buyer1"; "buyer2"; "buyer3"; "buyer4"; "buyer5"].

Definition three_buyers : list string := ["buyer0"; "buyer1"; "buyer2"].

(** Nine requests by nine buyers: with a pool of eight connections the first
    and the ninth share connection 0. *)
Definition nine_buyers : list string :=
  ["alice"; "buyer1"; "buyer2"; "buyer3"; "buyer4"; "buyer5"; "buyer6"; "buyer7";
   "bob"].

(** Nine requests, the first and the ninth by the same buyer. *)
Definition nine_requests : list string :=
  ["alice"; "buyer1"; "buyer2"; "buyer3"; "buyer4"; "buyer5"; "buyer6"; "buyer7";
   "alice"].

(** The store [s] once [userId] holds the receipt [orderId]. *)
Definition sold_to (userId orderId : string) (s : db) : db :=
  set_strs (insert (userKey userId) orderId) s.

(** Each of three calls runs from its start to its end. *)
Definition in_turn : list nat := [0; 0; 0; 1; 1; 1; 2; 2; 2]%nat.

(** Ten requests on a store in which carol holds a receipt: alice at time
    50 and, at time 60, alice again, seven more buyers and carol. With the
    pool of eight connections the second request of alice and the request
    of carol share connection 1. *)
Definition ten_requests : world :=
  let s := sold_to "carol" "40:carol" (sale 5) in
  World (launch NumberOther POOL_SIZE 0 50 ["alice"] s
         ++ launch NumberOther POOL_SIZE 1 60
              ["alice"; "buyer2"; "buyer3"; "buyer4"; "buyer5"; "buyer6"; "buyer7";
               "buyer8"; "carol"] s) s.

(** Seventeen requests by seventeen buyers: with the pool of eight
    connections, requests 0, 8 and 16 share connection 0 and requests 1 and
    9 share connection 1. *)
Definition seventeen_buyers : list string :=
  ["buyer00"; "buyer01"; "buyer02"; "buyer03"; "buyer04"; "buyer05"; "buyer06";
   "buyer07"; "buyer08"; "buyer09"; "buyer10"; "buyer11"; "buyer12"; "buyer13";
   "buyer14"; "buyer15"; "buyer16"].

(** Requests 0 and 8 and requests 1 and 9 watch and read; request 0
    reserves the unit; the transaction of request 1 is rejected; that of
    request 8 runs; request 16 watches; the transaction of request 9 runs;
    the two rollbacks run; the calls then run to their ends in turn. *)
Definition lost_rollback_schedule : list nat :=
  ([0; 0; 8; 8; 1; 1; 9; 9; 0; 1; 8; 16; 9; 8; 9]
   ++ flat_map (λ i, [i; i; i; i; i]) (seq 0 17))%nat%list.

End Sale.

(** *** Purchases run one after the other *)

Section Accounting.

Variable NumberOther : string → Js.number.
Variable MAX_RETRIES : nat.

(** How many purchase requests of [os], run one after the other from [s],
    are answered status 200. *)
Fixpoint purchased (os : list op) (s : db) : nat :=
  match os with
  | [] => 0
  | o :: os' =>
      (match o with
       | Reserve conn clock body_userId =>
           if (http_status (doPurchase NumberOther MAX_RETRIES conn clock body_userId s).1
               =? 200)%Z
           then 1 else 0
       | _ => 0
       end + purchased os' (run_op NumberOther MAX_RETRIES o s))%nat
  end.

End Accounting.

(** *** The invariant of calls on connections of their own, whoever the
    buyers *)

(** The order identifier a call writes. *)
Definition oid_of (c : call) : string :=
  Js.string_of_Z (c_now c) ++ ":" ++ c_userId c.

(** A call that returned code 0 returned its order identifier, and the
    receipt of its buyer holds it. *)
Definition reserved_ok (s : db) (c : call) : Prop :=
  returned 0 c = true →
  c_pc c = PDone (Result 0 (Some (oid_of c)) None)
  ∧ strs s !! userKey (c_userId c) = Some (oid_of c).

(** What holds of a call on a connection of its own while the stock counter
    holds [z]: from the answer to WATCH on, its connection watches the stock
    counter and the receipt of its buyer; what it read is what is there, or
    else its connection is flagged; it never has a rollback to run; and once
    it returned code 0 the receipt of its buyer holds its order
    identifier. *)
Definition call_own (s : db) (z : Z) (c : call) : Prop :=
  let x := getconn s (c_conn c) in
  match c_pc c with
  | PWindow _ => stockKey ∈ watched x ∧ userKey (c_userId c) ∈ watched x
  | PRead _ stockStr existing =>
      stockKey ∈ watched x ∧ userKey (c_userId c) ∈ watched x
      ∧ (dirty x = true
         ∨ (stockStr = Some (Js.string_of_Z z)
            ∧ existing = strs s !! userKey (c_userId c)))
  | PRollback => False
  | PDone _ => reserved_ok s c
  | _ => True
  end.

(** No two calls of one buyer have returned code 0. *)
Definition one_per_buyer (cs : list call) : Prop :=
  ∀ i j ci cj, cs !! i = Some ci → cs !! j = Some cj →
    returned 0 ci = true → returned 0 cj = true →
    c_userId ci = c_userId cj → i = j.

(** The receipts of [m0] are kept, and no call of a buyer who holds one has
    returned code 0. *)
Definition receipts_kept (m0 : gmap string string) (w : world) : Prop :=
  ∀ u, Js.truthy (m0 !! userKey u) = true →
    strs (store w) !! userKey u = m0 !! userKey u
    ∧ Forall (λ c, c_userId c = u → returned 0 c = false) (calls w).

Definition inv_own (S : Z) (m0 : gmap string string) (w : world) : Prop :=
  ∃ z, strs (store w) !! stockKey = Some (Js.string_of_Z z)
       ∧ (0 ≤ z)%Z
       ∧ (z + Z.of_nat (count_code 0 (calls w)) = S)%Z
       ∧ NoDup (c_conn <$> calls w)
       ∧ Forall (call_own (store w) z) (calls w)
       ∧ one_per_buyer (calls w)
       ∧ receipts_kept m0 w.

(** ** More of JavaScript: arithmetic, [String(n)], and the regular
    expressions of [config.ts] *)

Module JsMore.

(** [a + b] on numbers: the sum, rounded. *)
Definition add (a b : Js.number) : Js.number :=
  match a, b with
  | Js.NaN, _ | _, Js.NaN => Js.NaN
  | Js.PosInf, Js.NegInf | Js.NegInf, Js.PosInf => Js.NaN
  | Js.PosInf, _ | _, Js.PosInf => Js.PosInf
  | Js.NegInf, _ | _, Js.NegInf => Js.NegInf
  | Js.Fin x, Js.Fin y => Js.round (x + y)
  end.

(** The product of an infinity of sign [pos] and the finite [x]. *)
Definition mul_inf (pos : bool) (x : Q) : Js.number :=
  if Qeq_bool x 0 then Js.NaN
  else if Bool.eqb pos (Qle_bool 0 x) then Js.PosInf else Js.NegInf.

(** [a * b] on numbers: the product, rounded. *)
Definition mul (a b : Js.number) : Js.number :=
  match a, b with
  | Js.NaN, _ | _, Js.NaN => Js.NaN
  | Js.Fin x, Js.Fin y => Js.round (x * y)
  | Js.PosInf, Js.Fin x | Js.Fin x, Js.PosInf => mul_inf true x
  | Js.NegInf, Js.Fin x | Js.Fin x, Js.NegInf => mul_inf false x
  | Js.PosInf, Js.PosInf | Js.NegInf, Js.NegInf => Js.PosInf
  | Js.PosInf, Js.NegInf | Js.NegInf, Js.PosInf => Js.NegInf
  end.

(** [Number.isNaN]. *)
Definition isNaN (x : Js.number) : bool :=
  match x with
  | Js.NaN => true
  | _ => false
  end.

Section ToString.

(** [String(x)] on the finite numbers that are no integers of at most
    [2^53] in absolute value (fractions, and the larger numbers, of which
    the shortest digits that give the number back are printed): whatever
    the JavaScript engine prints. *)
Variable StringOther : Q → string.

(** [String(x)] for a number [x]: an integer of at most [2^53] in absolute
    value is printed as its decimal digits. *)
Definition toString (x : Js.number) : string :=
  match x with
  | Js.NaN => "NaN"
  | Js.PosInf => "Infinity"
  | Js.NegInf => "-Infinity"
  | Js.Fin q =>
      if ((Qden (Qred q) =? 1)%positive && (Z.abs (Qnum (Qred q)) <=? 2 ^ 53)%Z)%bool
      then Js.string_of_Z (Qnum (Qred q))
      else StringOther q
  end.

End ToString.

Fixpoint string_forall (p : ascii → bool) (s : string) : bool :=
  match s with
  | EmptyString => true
  | String a s' => p a && string_forall p s'
  end.

(** The class [\d]. *)
Definition is_digit (a : ascii) : bool :=
  let n := nat_of_ascii a in ((48 <=? n)%nat && (n <=? 57)%nat)%bool.

(** [/^\d+$/.test(s)]. *)
Definition all_digits (s : string) : bool :=
  (negb (String.eqb s "") && string_forall is_digit s)%bool.

(** The longest prefix of [s] whose characters satisfy [p], and the rest. *)
Fixpoint span (p : ascii → bool) (s : string) : string * string :=
  match s with
  | EmptyString => (EmptyString, EmptyString)
  | String a s' =>
      if p a then let '(x, y) := span p s' in (String a x, y)
      else (EmptyString, s)
  end.

(** [toLowerCase] on the code units below 256: the letters A to Z, and the
    capital letters of Latin-1. *)
Definition toLowerCase_char (a : ascii) : ascii :=
  let n := nat_of_ascii a in
  if ((65 <=? n)%nat && (n <=? 90)%nat)
     || ((192 <=? n)%nat && (n <=? 222)%nat && negb (n =? 215)%nat)
  then ascii_of_nat (n + 32) else a.

Fixpoint toLowerCase (s : string) : string :=
  match s with
  | EmptyString => EmptyString
  | String a s' => String (toLowerCase_char a) (toLowerCase s')
  end.

(** [/^([+-]?\d+)\s*(ms|s|m|h)$/i.exec(raw)]: the text of the first group and
    the second group in lower case, when the expression matches. No
    character is a digit and a space, or a space and a letter, so the
    greedy match is the only one. *)
Definition rel_exec (raw : string) : option (string * string) :=
  let '(sign, rest) :=
    match raw with
    | String a r =>
        if ((a =? "+")%char || (a =? "-")%char)%bool
        then (String a EmptyString, r) else (EmptyString, raw)
    | EmptyString => (EmptyString, EmptyString)
    end in
  let '(digits, rest1) := span is_digit rest in
  if String.eqb digits "" then None
  else
    let '(_, rest2) := span Js.is_space rest1 in
    let unit := toLowerCase rest2 in
    if bool_decide (unit ∈ ["ms"; "s"; "m"; "h"])
    then Some (sign ++ digits, unit) else None.

End JsMore.

#[global] Arguments JsMore.add : simpl never.
#[global] Arguments JsMore.mul : simpl never.
#[global] Arguments JsMore.toString : simpl never.

(** ** The configuration of the sale ([config.ts]) *)

Record SaleConfig := {
  cfg_productId : string;
  cfg_productDescription : string;
  cfg_startsAt : Js.number;
  cfg_endsAt : Js.number;
  cfg_initialStock : Js.number
}.

Section Config.

Variable NumberOther : string → Js.number.

(** [Date.parse]: whatever the JavaScript engine answers, NaN for a text it
    cannot read. *)
Variable DateParse : string → Js.number.

(** [envStr(name, fallback)], in the environment [env]. *)
Definition envStr (env : gmap string string) (name fallback : string) : string :=
  match env !! name with
  | Some v =>
      if (Js.truthy (Some v) && Js.truthy (Some (Js.trim v)))%bool
      then Js.trim v else fallback
  | None => fallback
  end.

(** [envNum(name, fallback)]. *)
Definition envNum (env : gmap string string) (name : string) (fallback : Js.number)
    : Js.number :=
  match env !! name with
  | Some v =>
      if (Js.truthy (Some v) && Js.truthy (Some (Js.trim v)))%bool
      then
        let n := Js.Number NumberOther v in
        if Js.isFinite n then n else fallback
      else fallback
  | None => fallback
  end.

(** The factor of a unit of [envTime]. *)
Definition factor (unit : string) : Z :=
  if String.eqb unit "h" then 3600000
  else if String.eqb unit "m" then 60000
  else if String.eqb unit "s" then 1000
  else 1.

(** [envTime(name, fallbackMs, nowMs)]. *)
Definition envTime (env : gmap string string) (name : string)
    (fallbackMs nowMs : Js.number) : Js.number :=
  let raw := Js.trim <$> env !! name in
  if negb (Js.truthy raw) then fallbackMs
  else
    let raw := Js.or_str raw "" in
    if JsMore.all_digits raw then
      let num := Js.Number NumberOther raw in
      if Js.lt num (Js.of_Z 10000000000)
      then JsMore.mul num (Js.of_Z 1000) else num
    else
      match JsMore.rel_exec raw with
      | Some (val, unit) =>
          JsMore.add nowMs
            (JsMore.mul (Js.Number NumberOther val) (Js.of_Z (factor unit)))
      | None =>
          let t := DateParse raw in
          if negb (JsMore.isNaN t) then t else fallbackMs
      end.

(** [loadSaleConfig()] when the clock shows [clock]; [None] when it
    throws. *)
Definition loadSaleConfig (clock : Z) (env : gmap string string) : option SaleConfig :=
  let now := Js.of_Z clock in
  let startsAt := envTime env "SALE_START" (JsMore.add now (Js.of_Z 60000)) now in
  let endsAt := envTime env "SALE_END" (JsMore.add now (Js.of_Z 3600000)) now in
  if Js.le endsAt startsAt then None
  else Some {|
    cfg_productId := envStr env "PRODUCT_ID" "PRD-001";
    cfg_productDescription :=
      envStr env "PRODUCT_DESCRIPTION"
        "Ultra-rare drop. First come, first served. Limited stock.";
    cfg_startsAt := startsAt;
    cfg_endsAt := endsAt;
    cfg_initialStock := envNum env "SALE_STOCK" (Js.of_Z 1000)
  |}.

End Config.

(** ** Starting the server ([services/redis.ts], [index.ts]) *)

Module RedisMore.

(** Whether the server holds key [k]: a string key, the hash [sale:config]
    or the list [sale:orders] (a hash or a list that is empty does not
    exist). *)
Definition key_exists (k : string) (s : db) : bool :=
  bool_decide (is_Some (strs s !! k))
  || (String.eqb k "sale:config" && negb (bool_decide (config s = ∅)))
  || (String.eqb k "sale:orders" && negb (bool_decide (orders s = []))).

(** EXISTS key. *)
Definition exists_ (k : string) : M Z :=
  λ s, (if key_exists k s then 1 else 0, s).

(** SET key value, outside a transaction. *)
Definition set (k v : string) : M reply := exec_cmd (SET k v).

(** HSET sale:config field value [field value ...]: answers how many fields
    are new. *)
Definition hset_config (fvs : list (string * string)) : M Z :=
  λ s,
    let config' := foldl (λ m fv, <[fv.1 := fv.2]> m) (config s) fvs in
    (Z.of_nat (size config' - size (config s)),
     touch "sale:config" (Db (strs s) config' (orders s) (conns s))).

(** FLUSHALL: every key goes; a connection that watches a key that was
    there is flagged. *)
Definition flushall : M unit :=
  λ s,
    (tt, Db ∅ ∅ []
           ((λ c, if bool_decide (set_Exists (λ k, key_exists k s = true) (watched c))
                  then Conn (watched c) true else c) <$> conns s)).

End RedisMore.

Section Bootstrap.

Variable NumberOther : string → Js.number.
Variable DateParse : string → Js.number.
Variable StringOther : Q → string.

Abbreviation String_ := (JsMore.toString StringOther).

(** The commands of [bootstrapSale] for the configuration [cfg]. *)
Definition bootstrap_cfg (cfg : SaleConfig) : M unit :=
  ex ← RedisMore.exists_ stockKey;
  (if (ex =? 0)%Z
   then RedisMore.set stockKey (String_ (cfg_initialStock cfg));; mret tt
   else mret tt);;
  RedisMore.hset_config
    [("productId", cfg_productId cfg);
     ("productDescription", cfg_productDescription cfg);
     ("startsAt", String_ (cfg_startsAt cfg));
     ("endsAt", String_ (cfg_endsAt cfg));
     ("initialStock", String_ (cfg_initialStock cfg))];;
  mret tt.

(** [bootstrapSale()] when the clock shows [clock]; the answer is [None]
    when [loadSaleConfig] throws, and no command is sent then. *)
Definition bootstrapSale (clock : Z) (env : gmap string string) : M (option unit) :=
  match loadSaleConfig NumberOther DateParse clock env with
  | Some cfg => bootstrap_cfg cfg;; mret (Some tt)
  | None => mret None
  end.

(** The start of the server in [index.ts], up to the pool: FLUSHALL, then
    [bootstrapSale]. *)
Definition startup (clock : Z) (env : gmap string string) : M (option unit) :=
  RedisMore.flushall;;
  bootstrapSale clock env.

End Bootstrap.

(** ** Requests: the rate limit, the CSRF check and the routes *)

(** The server with the expiry times of its keys, in milliseconds of the
    server's clock. The keys of the sale carry none (no command of the
    program gives them one), so the handlers above run on the data alone. *)
Record timed := Timed {
  t_db : db;
  expires : gmap string Z
}.

Module RedisTime.

(** A key whose time is over is deleted when a command reaches it. *)
Definition expire_if_needed (now : Z) (k : string) (s : timed) : timed :=
  match expires s !! k with
  | Some when =>
      if (when <? now)%Z
      then Timed (exec_cmd (DEL k) (t_db s)).2 (delete k (expires s))
      else s
  | None => s
  end.

(** INCR key, when the server's clock shows [now]. The expiry time of the
    key stays. *)
Definition incr (now : Z) (k : string) (s : timed) : reply * timed :=
  let s1 := expire_if_needed now k s in
  let '(r, d) := incrby k 1 (t_db s1) in
  (r, Timed d (expires s1)).

(** PEXPIRE key ms, for [ms > 0], when the server's clock shows [now]. *)
Definition pexpire (now : Z) (k : string) (ms : Z) (s : timed) : reply * timed :=
  let s1 := expire_if_needed now k s in
  match strs (t_db s1) !! k with
  | Some _ => (RInt 1, Timed (touch k (t_db s1)) (<[k := (now + ms)%Z]> (expires s1)))
  | None => (RInt 0, s1)
  end.

End RedisTime.

(** What a hook does with a request: it lets it go on, it answers it, or it
    throws. *)
Inductive hooked :=
| Continue
| Reply (h : http)
| Throw.

(** [rateLimit] for a request from address [ip]. The server's clock shows
    [t1] when INCR arrives and [t2] when PEXPIRE arrives. *)
Definition rateLimit (env : gmap string string) (ip : string) (t1 t2 : Z)
    (s : timed) : hooked * timed :=
  if bool_decide (env !! "DISABLE_RATELIMIT" = Some "1") then (Continue, s)
  else
    let key := "ratelimit:" ++ ip in
    let ttl := 10000%Z in
    let max := 20%Z in
    let '(r, s1) := RedisTime.incr t1 key s in
    match r with
    | RInt count =>
        let s2 := if (count =? 1)%Z then (RedisTime.pexpire t2 key ttl s1).2 else s1 in
        if (max <? count)%Z
        then (Reply (Http 429 (BError "rate_limited")), s2)
        else (Continue, s2)
    | _ => (Throw, s1)
    end.

(** Requests from [ip] one after the other, each with its two times. *)
Fixpoint rateLimits (env : gmap string string) (ip : string) (ts : list (Z * Z))
    (s : timed) : list hooked * timed :=
  match ts with
  | [] => ([], s)
  | (t1, t2) :: ts' =>
      let '(h, s1) := rateLimit env ip t1 t2 s in
      let '(hs, s2) := rateLimits env ip ts' s1 in
      (h :: hs, s2)
  end.

(** *** The CSRF token ([security/csrf.ts], [security/csrf-guard.ts]) *)

(** What the handlers see of a request: the address it comes from, its
    headers (by lower-case name) and its cookies. *)
Record request := Request {
  req_ip : string;
  req_headers : gmap string string;
  req_cookies : gmap string string
}.

(** The JSON bodies of the answers. *)
Inductive payload :=
| PBody (b : body)
| PStatus (r : status_reply)
| PCsrfToken (csrfToken : string)
| PCsrfError (reason csrfToken : string).

(** An answer: status code, body, and the value of the [csrfToken] cookie
    it sets, if it sets one. *)
Record response := Response {
  r_status : Z;
  r_payload : payload;
  r_setCookie : option string
}.

Definition CSRF_COOKIE : string := "csrfToken".

Module Base64.

Definition alphabet : string :=
  "ABCDEFGHIJKLMNOPQRSTUVWXYZabcdefghijklmnopqrstuvwxyz0123456789+/".

(** The character of a 6-bit value. *)
Definition char (i : N) : ascii :=
  nth (N.to_nat i) (list_ascii_of_string alphabet) "="%char.

(** The 24 bits of three bytes. *)
Definition bits (a b c : byte) : N :=
  (Byte.to_N a * 65536 + Byte.to_N b * 256 + Byte.to_N c)%N.

(** [Buffer.from(bytes).toString("base64")]: four characters for every
    three bytes, and padding with [=] at the end. *)
Fixpoint encode (bs : list byte) : string :=
  match bs with
  | a :: b :: c :: rest =>
      let n := bits a b c in
      String (char (n / 262144)) (String (char ((n / 4096) mod 64))
        (String (char ((n / 64) mod 64)) (String (char (n mod 64)) (encode rest))))
  | [a; b] =>
      let n := bits a b Byte.x00 in
      String (char (n / 262144)) (String (char ((n / 4096) mod 64))
        (String (char ((n / 64) mod 64)) "="))
  | [a] =>
      let n := bits a Byte.x00 Byte.x00 in
      String (char (n / 262144)) (String (char ((n / 4096) mod 64)) "==")
  | [] => ""
  end.

End Base64.

(** [s.replace(/a/g, b)] for single characters [a] and [b]. *)
Fixpoint replace_char (a b : ascii) (s : string) : string :=
  match s with
  | String x s' => String (if Ascii.eqb x a then b else x) (replace_char a b s')
  | EmptyString => EmptyString
  end.

(** [s.replace(/=+$/g, "")]. *)
Fixpoint strip_pad (s : string) : string :=
  match s with
  | String x s' =>
      match strip_pad s' with
      | EmptyString => if Ascii.eqb x "=" then EmptyString else String x EmptyString
      | t => String x t
      end
  | EmptyString => EmptyString
  end.

(** [toBase64Url(bytes)]. *)
Definition toBase64Url (bytes : list byte) : string :=
  strip_pad (replace_char "/" "_" (replace_char "+" "-" (Base64.encode bytes))).

(** [cryptoRandom()], for the 32 bytes [rnd] that the random source
    gives. *)
Definition cryptoRandom (rnd : list byte) : string := toBase64Url rnd.

(** [issueCsrfToken]: the token goes into the cookie and into the body. *)
Definition issueCsrfToken (rnd : list byte) : response :=
  let token := cryptoRandom rnd in
  Response 200 (PCsrfToken token) (Some token).

(** [assertCsrf]: [None] when it returns, the reason when it throws. *)
Definition assertCsrf (req : request) : option string :=
  let header :=
    if Js.truthy (req_headers req !! "x-csrf-token")
    then req_headers req !! "x-csrf-token"
    else req_headers req !! "x-xsrf-token" in
  let cookie := req_cookies req !! CSRF_COOKIE in
  if negb (Js.truthy cookie) then Some "missing_cookie"
  else if negb (Js.truthy header) then Some "missing_header"
  else if negb (bool_decide (header = cookie)) then Some "mismatch"
  else None.

(** [csrfPreHandler]: [None] when the request goes on to its handler, the
    answer otherwise. The random bytes are drawn only for that answer. *)
Definition csrfPreHandler (rnd : list byte) (req : request) : option response :=
  match assertCsrf req with
  | None => None
  | Some reason =>
      let token := cryptoRandom rnd in
      Some (Response 403 (PCsrfError (Js.or_str (Some reason) "invalid") token)
              (Some token))
  end.

(** The request a client sends after an answer that set the cookie: it
    carries the cookie and repeats its value in the header. *)
Definition with_token (token : string) (req : request) : request :=
  Request (req_ip req)
    (<["x-csrf-token" := token]> (req_headers req))
    (<[CSRF_COOKIE := token]> (req_cookies req)).


(** The characters of the base64 alphabet, and those of its URL-safe
    variant. *)
Definition is_b64 (x : ascii) : bool :=
  bool_decide (x ∈ list_ascii_of_string Base64.alphabet).

Definition is_url (x : ascii) : bool :=
  bool_decide (x ∈ list_ascii_of_string
    "ABCDEFGHIJKLMNOPQRSTUVWXYZabcdefghijklmnopqrstuvwxyz0123456789-_").


(** *** The allowed origins ([index.ts]) *)

Module Cors.

(** [s.split(sep)] for a separator of one character. *)
Fixpoint split (sep : ascii) (s : string) : list string :=
  match s with
  | EmptyString => [EmptyString]
  | String c s' =>
      if Ascii.eqb c sep then EmptyString :: split sep s'
      else match split sep s' with
           | x :: xs => String c x :: xs
           | [] => [String c EmptyString]
           end
  end.

(** [parseAllowedOrigins(envVal, fallback)]. *)
Definition parseAllowedOrigins (envVal : option string) (fallback : list string)
    : list string :=
  let list :=
    filter (λ x, x ≠ EmptyString) (Js.trim <$> split "," (default EmptyString envVal)) in
  if bool_decide (list = []) then fallback else list.

(** The characters that [toWildcardRegex] escapes: the backslash, the dot,
    plus, question mark, caret, dollar, the two braces, the two parentheses,
    the bar and the two square brackets. *)
Definition is_escaped (c : ascii) : bool :=
  bool_decide (c ∈ list_ascii_of_string "\.+?^${}()|[]").

(** The syntax characters of a regular expression. *)
Definition is_syntax (c : ascii) : bool :=
  bool_decide (c ∈ list_ascii_of_string "^$\.*+?()[]{}|").

(** The first [replace] of [toWildcardRegex]: a backslash goes before every
    escaped character. *)
Fixpoint escape (pattern : string) : string :=
  match pattern with
  | EmptyString => EmptyString
  | String c rest =>
      if is_escaped c then String "092" (String c (escape rest))
      else String c (escape rest)
  end.

(** The second [replace] of [toWildcardRegex]: every star becomes a dot and
    a star. *)
Fixpoint star_to_any (s : string) : string :=
  match s with
  | EmptyString => EmptyString
  | String c rest =>
      if Ascii.eqb c "*" then String "." (String "*" (star_to_any rest))
      else String c (star_to_any rest)
  end.

(** The regular expressions that are sequences of literal characters and of
    [.*]. *)
Inductive rx :=
| RChar (c : ascii)
| RAnyStar.

(** [new RegExp("^" + src + "$")] on that fragment: a backslash before a
    syntax character is that character, [.*] is any run of characters
    without a line terminator, and a character that is no syntax character is
    itself. [None] for a source outside the fragment. *)
Fixpoint compile (src : string) : option (list rx) :=
  match src with
  | EmptyString => Some []
  | String c rest =>
      if Ascii.eqb c "092" then
        match rest with
        | String d rest' =>
            if is_syntax d then cons (RChar d) <$> compile rest' else None
        | EmptyString => None
        end
      else if Ascii.eqb c "." then
        match rest with
        | String d rest' =>
            if Ascii.eqb d "*" then cons RAnyStar <$> compile rest' else None
        | EmptyString => None
        end
      else if is_syntax c then None
      else cons (RChar c) <$> compile rest
  end.

(** [toWildcardRegex(pattern)]: the expression between [^] and [$]. *)
Definition toWildcardRegex (pattern : string) : option (list rx) :=
  compile (star_to_any (escape pattern)).

(** The line terminators among the code units below 256: LF and CR. *)
Definition is_line_terminator (c : ascii) : bool :=
  let n := nat_of_ascii c in ((n =? 10)%nat || (n =? 13)%nat)%bool.

(** [rx.test(s)] for an expression between [^] and [$]: the whole of [s]
    matches. *)
Fixpoint test (r : list rx) (s : string) : bool :=
  match r with
  | [] => String.eqb s EmptyString
  | RChar c :: r' =>
      match s with
      | String d s' => Ascii.eqb c d && test r' s'
      | EmptyString => false
      end
  | RAnyStar :: r' =>
      (fix any (s : string) : bool :=
         test r' s
         || match s with
            | String d s' => negb (is_line_terminator d) && any s'
            | EmptyString => false
            end) s
  end.

Definition DEFAULTS : list string :=
  ["http://localhost:5173"; "http://127.0.0.1:5173"].

(** The [origin] callback of the CORS plugin, for the value of
    [ALLOWED_ORIGINS] in the environment and the [Origin] header of the
    request: whether the origin is allowed, or [None] when building an
    expression throws. *)
Definition origin_allowed (allowed_origins origin : option string) : option bool :=
  let allowedPatterns := parseAllowedOrigins allowed_origins DEFAULTS in
  matchers ← mapM toWildcardRegex allowedPatterns;
  if negb (Js.truthy origin) then Some true
  else Some (existsb (λ r, test r (Js.or_str origin EmptyString)) matchers).

(** The expression of a pattern, character by character. *)
Definition glob (pattern : string) : list rx :=
  (λ c, if Ascii.eqb c "*" then RAnyStar else RChar c) <$> list_ascii_of_string pattern.

End Cors.

(** *** The routes ([routes.ts]) behind the two [onRequest] hooks of
    [index.ts] *)

Inductive route :=
| GetStatus
| GetCsrf
| GetPurchase (userId : option string)
| PostPurchase (body_userId : option string).

(** How a request ends: with an answer, or with an error thrown by a
    hook. *)
Inductive served :=
| Answered (r : response)
| Failed.

Definition of_http (h : http) : response :=
  Response (http_status h) (PBody (http_body h)) None.

(** The stock counter, the receipts, the configuration and the order log
    are the same in [s] and [s']. *)
Definition sale_unchanged (s s' : db) : Prop :=
  strs s' !! stockKey = strs s !! stockKey
  ∧ (∀ u, strs s' !! userKey u = strs s !! userKey u)
  ∧ config s' = config s
  ∧ orders s' = orders s.

(** The [onRequest] hook of the CORS plugin, which [index.ts] registers
    before [rateLimit]. The plugin calls the [origin] callback of [index.ts]
    with the [Origin] header of the request; when the callback answers with
    an error the plugin hands the error to the server, and the request
    fails there. *)
Definition cors (env : gmap string string) (req : request) : hooked :=
  match Cors.origin_allowed (env !! "ALLOWED_ORIGINS") (req_headers req !! "origin") with
  | Some true => Continue
  | _ => Throw
  end.

Section Routes.

Variable NumberOther : string → Js.number.
Variable MAX_RETRIES : nat.

(** One request to route [rt]: the [onRequest] hooks in the order in which
    [index.ts] registers them, [cors] and [rateLimit], then the route with
    its [preHandler]. The clock of the program shows [clock], [getTxConn]
    hands out [conn], and the random source gives [rnd]. *)
Definition serve (env : gmap string string) (conn : nat) (clock t1 t2 : Z)
    (rnd : list byte) (req : request) (rt : route) (s : timed) : served * timed :=
  match cors env req with
  | Throw => (Failed, s)
  | Reply h => (Answered (of_http h), s)
  | Continue =>
      let '(hk, s1) := rateLimit env (req_ip req) t1 t2 s in
      match hk with
      | Throw => (Failed, s1)
      | Reply h => (Answered (of_http h), s1)
      | Continue =>
          match rt with
          | GetStatus =>
              let '(r, d) := getStatus NumberOther clock (t_db s1) in
              (Answered (Response 200 (PStatus r) None), Timed d (expires s1))
          | GetCsrf => (Answered (issueCsrfToken rnd), s1)
          | GetPurchase userId =>
              let '(h, d) := getPurchase userId (t_db s1) in
              (Answered (of_http h), Timed d (expires s1))
          | PostPurchase body_userId =>
              match csrfPreHandler rnd req with
              | Some r => (Answered r, s1)
              | None =>
                  let '(h, d) :=
                    doPurchase NumberOther MAX_RETRIES conn clock body_userId (t_db s1) in
                  (Answered (of_http h), Timed d (expires s1))
              end
          end
      end
  end.

End Routes.

(** *** The sale of the tests ([test/helpers.ts]) *)

Section ResetSale.

Variable StringOther : Q → string.

(** [resetSale({startsAt, endsAt, stock})]. *)
Definition resetSale (startsAt endsAt stock : Js.number) : M unit :=
  RedisMore.flushall;;
  RedisMore.hset_config
    [("productId", "LE-001");
     ("startsAt", JsMore.toString StringOther startsAt);
     ("endsAt", JsMore.toString StringOther endsAt);
     ("initialStock", JsMore.toString StringOther stock)];;
  RedisMore.set stockKey (JsMore.toString StringOther stock);;
  mret tt.

End ResetSale.

(** The order of the phases in time. *)
Definition phase_rank (p : phase) : nat :=
  match p with
  | upcoming => 0
  | active | sold_out => 1
  | ended => 2
  end.

(** *** The pool of transaction connections ([services/redis.ts]) *)

Module TxPool.

(** The module's state: the pool, the counter [rr], whether
    [poolInitPromise] is set, and the number of the next connection that
    [redis.duplicate()] opens. *)
Record state := State {
  txPool : list nat;
  rr : nat;
  poolInitPromise : bool;
  next_conn : nat
}.



(** [getTxConn()]: the connection, or [None] when it throws. *)
Definition getTxConn (p : state) : option (nat * state) :=
  match getTxConn (length (txPool p)) (rr p) with
  | Some (i, rr') =>
      c ← txPool p !! i;
      Some (c, State (txPool p) rr' (poolInitPromise p) (next_conn p))
  | None => None
  end.



End TxPool.

(** *** The client ([frontend/src/App.tsx]) *)

(** The messages of [buy]. *)
Inductive toast :=
| TSuccess
| TAlreadyPurchased
| TSoldOut
| TNotActive
| THighDemand
| TUnexpected.

(** The message that [buy] shows for the status of the answer. *)
Definition buy_toast (status : Z) : toast :=
  if (status =? 200)%Z then TSuccess
  else if (status =? 409)%Z then TAlreadyPurchased
  else if (status =? 410)%Z then TSoldOut
  else if (status =? 403)%Z then TNotActive
  else if (status =? 503)%Z then THighDemand
  else TUnexpected.

(** ** Facts about the JavaScript layer *)

Lemma Z_of_string_of_Z z : Js.Z_of_string (Js.string_of_Z z) = Some z.
Proof.
  unfold Js.Z_of_string, Js.string_of_Z.
  rewrite NilZero.isi.
  - simpl. f_equal. apply DecimalZ.of_to.
  - destruct z; simpl; try discriminate.
    intros [= E]. by apply DecimalPos.Unsigned.to_uint_nonnil in E.
  - destruct z; simpl; try discriminate.
    intros [= E]. by apply DecimalPos.Unsigned.to_uint_nonnil in E.
Qed.

Lemma string_of_Z_inj z1 z2 : Js.string_of_Z z1 = Js.string_of_Z z2 → z1 = z2.
Proof.
  intros E. apply (f_equal Js.Z_of_string) in E.
  rewrite !Z_of_string_of_Z in E. congruence.
Qed.

Lemma string_of_Z_nonempty z : Js.string_of_Z z ≠ "".
Proof.
  intros E. apply (f_equal Js.Z_of_string) in E.
  rewrite Z_of_string_of_Z in E. discriminate.
Qed.

Lemma string_of_Z_eqb_empty z : String.eqb (Js.string_of_Z z) "" = false.
Proof. apply String.eqb_neq, string_of_Z_nonempty. Qed.

Lemma string2ll_of_Z z : Js.in_int64 z = true → string2ll (Js.string_of_Z z) = Some z.
Proof.
  intros Hz. unfold string2ll.
  rewrite Z_of_string_of_Z, String.eqb_refl, Hz. reflexivity.
Qed.

Lemma Number_of_Z NO z :
  Js.in_int64 z = true → Js.Number NO (Js.string_of_Z z) = Js.nearest z.
Proof.
  intros Hz. unfold Js.Number.
  rewrite string_of_Z_eqb_empty, Z_of_string_of_Z, Hz. reflexivity.
Qed.

Lemma or_str_of_Z z d : Js.or_str (Some (Js.string_of_Z z)) d = Js.string_of_Z z.
Proof. unfold Js.or_str. by rewrite string_of_Z_eqb_empty. Qed.

Lemma le_of_Z a b : Js.le (Js.of_Z a) (Js.of_Z b) = (a <=? b)%Z.
Proof.
  unfold Js.le, Js.of_Z, Qle_bool, inject_Z. simpl.
  by rewrite !Z.mul_1_r.
Qed.

Lemma lt_of_Z a b : Js.lt (Js.of_Z a) (Js.of_Z b) = (a <? b)%Z.
Proof.
  unfold Js.lt, Js.of_Z, Qle_bool, inject_Z. simpl.
  rewrite !Z.mul_1_r. rewrite Z.ltb_antisym. reflexivity.
Qed.

Lemma or0_of_Z z : Js.or0 (Js.of_Z z) = Js.of_Z z.
Proof.
  unfold Js.or0, Js.truthy_num, Js.of_Z, Qeq_bool, inject_Z. simpl.
  rewrite Z.mul_1_r. by destruct z.
Qed.

Lemma isFinite_of_Z z : Js.isFinite (Js.of_Z z) = true.
Proof. reflexivity. Qed.

Lemma in_int64_spec z :
  Js.in_int64 z = true ↔ (Js.INT64_MIN ≤ z ≤ Js.INT64_MAX)%Z.
Proof. unfold Js.in_int64. rewrite andb_true_iff, !Z.leb_le. tauto. Qed.

(** *** Rounding to a double *)

Lemma Qred_inject_Z z : Qred (inject_Z z) = inject_Z z.
Proof.
  unfold Qred, inject_Z.
  pose proof (Z.ggcd_gcd z 1) as Hg. pose proof (Z.ggcd_correct_divisors z 1) as Hd.
  destruct (Z.ggcd z 1) as [g [aa bb]]. simpl in *.
  rewrite Z.gcd_1_r in Hg. subst g. destruct Hd as [-> Hb].
  rewrite Z.mul_1_l in Hb. subst bb. by destruct aa.
Qed.

Lemma Qred_scaled z c : (0 < c)%Z → Qred ((z * c) # Z.to_pos c) = inject_Z z.
Proof.
  intros Hc. rewrite <- (Qred_inject_Z z). apply Qred_complete.
  unfold Qeq, inject_Z. simpl. rewrite Z2Pos.id by done. lia.
Qed.

(** Numbers that are equal as rationals round to the same double. *)
Lemma round_Qeq q q' : (q == q')%Q → Js.round q = Js.round q'.
Proof. intros E. unfold Js.round. by rewrite (Qred_complete _ _ E). Qed.

Lemma nearest_even_bounds N D :
  (0 < D)%Z → (N / D ≤ Js.nearest_even N D ≤ N / D + 1)%Z.
Proof.
  intros HD. unfold Js.nearest_even.
  destruct (_ ?= _)%Z; [destruct (Z.even _)|..]; lia.
Qed.

Lemma nearest_even_exact N : Js.nearest_even N 1 = N.
Proof.
  unfold Js.nearest_even. rewrite Z.mod_1_r, Z.div_1_r. reflexivity.
Qed.

Lemma floor_log2_int n : (0 < n)%Z → Js.floor_log2 n 1 = Z.log2 n.
Proof.
  intros Hn. unfold Js.floor_log2, Js.scale.
  change (Z.log2 1) with 0%Z. rewrite Z.sub_0_r.
  pose proof (Z.log2_nonneg n) as H0. pose proof (Z.log2_spec n Hn) as [H1 _].
  rewrite (proj2 (Z.leb_le _ _) H0), Z.mul_1_l.
  by rewrite (proj2 (Z.leb_le _ _) H1).
Qed.

(** An integer of at most 53 bits is a double. *)
Lemma round_pos_safe n :
  (0 < n ≤ 2 ^ 53)%Z → Js.round_pos n 1 = Some (inject_Z n).
Proof.
  intros [Hn Hle]. unfold Js.round_pos. rewrite (floor_log2_int n Hn).
  pose proof (Z.log2_nonneg n) as H0. pose proof (Z.log2_spec n Hn) as [H1 H2].
  assert (Z.log2 n ≤ 53)%Z as H53.
  { change 53%Z with (Z.log2 (2 ^ 53)). by apply Z.log2_le_mono. }
  rewrite Z.max_l by lia. unfold Js.scale.
  destruct (Z.leb_spec 0 (Z.log2 n - 52)) as [Hp|Hp].
  - assert (Z.log2 n = 52 ∨ Z.log2 n = 53)%Z as [E|E] by lia; rewrite E in *.
    + change (2 ^ (52 - 52))%Z with 1%Z. simpl (1 * 1)%Z.
      rewrite nearest_even_exact, Z.mul_1_r.
      destruct (Z.leb_spec (2 ^ 1024) n) as [Hbig|_]; [|done].
      assert (2 ^ 53 < 2 ^ 1024)%Z by (by apply Z.pow_lt_mono_r). lia.
    + change (2 ^ (53 + 1))%Z with (2 * 2 ^ 53)%Z in H2.
      assert (n = 2 ^ 53)%Z as -> by lia. by vm_compute.
  - rewrite nearest_even_exact. f_equal. apply Qred_scaled.
    apply Z.pow_pos_nonneg; lia.
Qed.

(** A larger integer of the signed 64-bit range rounds to a positive
    integer. *)
Lemma round_pos_int64 n :
  (2 ^ 53 < n ≤ 2 ^ 63)%Z → ∃ v, Js.round_pos n 1 = Some (inject_Z v) ∧ (0 < v)%Z.
Proof.
  intros [Hgt Hle]. assert (0 < n)%Z as Hn by lia.
  unfold Js.round_pos. rewrite (floor_log2_int n Hn).
  pose proof (Z.log2_spec n Hn) as [H1 H2].
  assert (53 ≤ Z.log2 n ≤ 63)%Z as [Hl Hu].
  { split.
    - change 53%Z with (Z.log2 (2 ^ 53)). apply Z.log2_le_mono. lia.
    - change 63%Z with (Z.log2 (2 ^ 63)). by apply Z.log2_le_mono. }
  rewrite Z.max_l by lia. unfold Js.scale.
  set (p := (Z.log2 n - 52)%Z) in *.
  rewrite (proj2 (Z.leb_le 0 p)) by lia. rewrite Z.mul_1_l.
  assert (0 < 2 ^ p)%Z as Hpos by (apply Z.pow_pos_nonneg; lia).
  assert (2 ^ p ≤ 2 ^ 11)%Z as Hp11 by (apply Z.pow_le_mono_r; lia).
  pose proof (nearest_even_bounds n (2 ^ p) Hpos) as [Hm1 Hm2].
  set (m := Js.nearest_even n (2 ^ p)) in *.
  assert (1 ≤ n / 2 ^ p)%Z as Hq1.
  { apply Z.div_le_lower_bound; [done|]. rewrite Z.mul_1_r.
    etrans; [|exact H1]. apply Z.pow_le_mono_r; lia. }
  assert (n / 2 ^ p < 2 ^ 53)%Z as Hq2.
  { apply Z.div_lt_upper_bound; [done|]. rewrite <- Z.pow_add_r by lia.
    replace (p + 53)%Z with (Z.log2 n + 1)%Z by lia. done. }
  assert (m * 2 ^ p ≤ 2 ^ 53 * 2 ^ 11)%Z as Hv.
  { apply Z.mul_le_mono_nonneg; lia. }
  assert (2 ^ 53 * 2 ^ 11 < 2 ^ 1024)%Z as Hbig.
  { rewrite <- Z.pow_add_r by lia. by apply Z.pow_lt_mono_r. }
  destruct (Z.leb_spec (2 ^ 1024) (m * 2 ^ p)) as [?|_]; [lia|].
  eexists. split; [done|]. apply Z.mul_pos_pos; lia.
Qed.

Lemma nearest_safe z : (Z.abs z ≤ 2 ^ 53)%Z → Js.nearest z = Js.of_Z z.
Proof.
  intros Hz. unfold Js.nearest, Js.round. rewrite Qred_inject_Z.
  destruct z as [|n|n]; simpl Qnum; simpl Qden; cbv iota.
  - reflexivity.
  - by rewrite (round_pos_safe (Z.pos n)) by lia.
  - by rewrite (round_pos_safe (Z.pos n)) by lia.
Qed.

(** The double nearest to an integer of the signed 64-bit range is an
    integer of the same sign. *)
Lemma nearest_int64 z :
  Js.in_int64 z = true →
  ∃ v, Js.nearest z = Js.of_Z v ∧ ((v ≤ 0)%Z ↔ (z ≤ 0)%Z) ∧ ((v < 0)%Z ↔ (z < 0)%Z).
Proof.
  intros Hz. unfold Js.in_int64 in Hz.
  apply andb_true_iff in Hz as [H1%Z.leb_le H2%Z.leb_le].
  unfold Js.INT64_MIN, Js.INT64_MAX in *.
  destruct (Z_le_gt_dec (Z.abs z) (2 ^ 53)) as [Hs|Hs].
  { exists z. split; [by apply nearest_safe|done]. }
  unfold Js.nearest, Js.round. rewrite Qred_inject_Z.
  destruct z as [|n|n]; simpl Qnum; simpl Qden; cbv iota.
  - simpl in Hs. lia.
  - destruct (round_pos_int64 (Z.pos n)) as (v & -> & Hv); [lia|].
    exists v. split; [done|]. lia.
  - destruct (round_pos_int64 (Z.pos n)) as (v & -> & Hv); [lia|].
    exists (- v)%Z. split; [done|]. lia.
Qed.

Lemma safe_in_int64 z : (Z.abs z ≤ 2 ^ 53)%Z → Js.in_int64 z = true.
Proof.
  intros Hz. apply in_int64_spec. unfold Js.INT64_MIN, Js.INT64_MAX.
  assert (2 ^ 53 < 2 ^ 63)%Z by (by apply Z.pow_lt_mono_r). lia.
Qed.

(** The decimal text of an integer of at most 53 bits is read exactly. *)
Lemma Number_safe NO z :
  (Z.abs z ≤ 2 ^ 53)%Z → Js.Number NO (Js.string_of_Z z) = Js.of_Z z.
Proof.
  intros Hz. rewrite Number_of_Z by (by apply safe_in_int64). by apply nearest_safe.
Qed.

Lemma isFinite_nearest z : Js.in_int64 z = true → Js.isFinite (Js.nearest z) = true.
Proof. intros Hz. by destruct (nearest_int64 z Hz) as (v & -> & _). Qed.

(** The sign of an integer of the signed 64-bit range survives the
    rounding. *)
Lemma le_nearest_0 z :
  Js.in_int64 z = true → Js.le (Js.nearest z) (Js.of_Z 0) = (z <=? 0)%Z.
Proof.
  intros Hz. destruct (nearest_int64 z Hz) as (v & -> & Hv & _).
  rewrite le_of_Z. destruct (Z.leb_spec v 0), (Z.leb_spec z 0); lia.
Qed.

Lemma lt_nearest_0 z :
  Js.in_int64 z = true → Js.lt (Js.nearest z) (Js.of_Z 0) = (z <? 0)%Z.
Proof.
  intros Hz. destruct (nearest_int64 z Hz) as (v & -> & _ & Hv).
  rewrite lt_of_Z. destruct (Z.ltb_spec v 0), (Z.ltb_spec z 0); lia.
Qed.

Lemma or0_nearest z :
  Js.in_int64 z = true →
  Js.le (Js.or0 (Js.nearest z)) (Js.of_Z 0) = (z <=? 0)%Z.
Proof.
  intros Hz. destruct (nearest_int64 z Hz) as (v & -> & Hv & _).
  rewrite or0_of_Z, le_of_Z. destruct (Z.leb_spec v 0), (Z.leb_spec z 0); lia.
Qed.

(** A difference of integers that is an integer of at most 53 bits is
    exact. *)
Lemma sub_of_Z a b :
  (Z.abs (a - b) ≤ 2 ^ 53)%Z → Js.sub (Js.of_Z a) (Js.of_Z b) = Js.of_Z (a - b).
Proof.
  intros H. unfold Js.sub, Js.of_Z.
  rewrite (round_Qeq _ (inject_Z (a - b))).
  - by apply nearest_safe.
  - unfold Qminus. by rewrite <- inject_Z_opp, <- inject_Z_plus.
Qed.

Lemma userKey_inj u1 u2 : userKey u1 = userKey u2 → u1 = u2.
Proof. unfold userKey. simpl. by intros [= E]. Qed.

Lemma userKey_stockKey u : userKey u ≠ stockKey.
Proof. unfold userKey, stockKey. simpl. discriminate. Qed.

(** ** Facts about the store *)

Lemma strs_touch k s : strs (touch k s) = strs s.
Proof. reflexivity. Qed.

Lemma orders_touch k s : orders (touch k s) = orders s.
Proof. reflexivity. Qed.

Lemma getconn_insert_eq c x s : getconn (set_conns (insert c x) s) c = x.
Proof. unfold getconn. simpl. by rewrite lookup_insert_eq. Qed.

Lemma getconn_insert_ne c c' x s :
  c ≠ c' → getconn (set_conns (insert c x) s) c' = getconn s c'.
Proof. intros Hne. unfold getconn. simpl. by rewrite lookup_insert_ne. Qed.

Lemma incrby_of_Z k d s z :
  strs s !! k = Some (Js.string_of_Z z) →
  Js.in_int64 z = true →
  Js.in_int64 (z + d) = true →
  incrby k d s
  = (RInt (z + d), touch k (set_strs (insert k (Js.string_of_Z (z + d))) s)).
Proof.
  intros Hk Hz Hzd. unfold incrby.
  by rewrite Hk, (string2ll_of_Z _ Hz), Hzd.
Qed.

(** The purchase transaction on a stock counter that holds the integer [z]:
    null on a flagged connection, the three writes otherwise. *)
Lemma purchase_tx conn uk oid e s z :
  strs s !! stockKey = Some (Js.string_of_Z z) →
  Js.in_int64 z = true →
  Js.in_int64 (z - 1) = true →
  multi_exec conn [DECR stockKey; SET uk oid; LPUSH_orders e] s
  = if dirty (getconn s conn)
    then (None, set_conns (insert conn fresh) s)
    else (Some [RInt (z - 1); ROk; RInt (Z.of_nat (S (length (orders s))))],
          touch "sale:orders" (set_orders (cons e)
            (touch uk (set_strs (insert uk oid)
              (touch stockKey (set_strs (insert stockKey (Js.string_of_Z (z - 1)))
                (set_conns (insert conn fresh) s))))))).
Proof.
  intros Hk Hz Hz1. unfold multi_exec.
  destruct (dirty (getconn s conn)); [done|].
  unfold exec_cmds, exec_cmd.
  rewrite (incrby_of_Z _ _ _ z); [done|done|done|done].
Qed.

Lemma getconn_touch k s c :
  getconn (touch k s) c
  = if bool_decide (k ∈ watched (getconn s c))
    then Conn (watched (getconn s c)) true
    else getconn s c.
Proof.
  unfold getconn, touch. simpl. rewrite lookup_fmap.
  destruct (conns s !! c) as [x|]; simpl; [done|].
  by rewrite bool_decide_eq_false_2 by set_solver.
Qed.

Lemma getconn_touch_fresh k s c : getconn s c = fresh → getconn (touch k s) c = fresh.
Proof.
  intros H. rewrite getconn_touch, H. simpl.
  by rewrite bool_decide_eq_false_2 by set_solver.
Qed.

Lemma incrby_effect k d s :
  (∀ k', k' ≠ k → strs (incrby k d s).2 !! k' = strs s !! k')
  ∧ orders (incrby k d s).2 = orders s
  ∧ config (incrby k d s).2 = config s
  ∧ (∀ c, getconn s c = fresh → getconn (incrby k d s).2 c = fresh).
Proof.
  unfold incrby.
  destruct (match strs s !! k with Some t => string2ll t | None => Some 0%Z end) as [z|];
    [|done].
  destruct (Js.in_int64 (z + d)); [|done]. simpl.
  repeat split.
  - intros k' Hne. by rewrite lookup_insert_ne.
  - intros c Hc. by apply getconn_touch_fresh.
Qed.

(** What the purchase transaction does, whatever the stock counter holds. *)
Lemma purchase_tx_effect conn uk oid e s :
  uk ≠ stockKey →
  let '(res, s') := multi_exec conn [DECR stockKey; SET uk oid; LPUSH_orders e] s in
  config s' = config s ∧ getconn s' conn = fresh ∧
  match res with
  | None => strs s' = strs s ∧ orders s' = orders s
  | Some rs =>
      (∀ k, k ≠ stockKey → k ≠ uk → strs s' !! k = strs s !! k)
      ∧ strs s' !! uk = Some oid
      ∧ orders s' = e :: orders s
  end.
Proof.
  intros Hne. unfold multi_exec.
  destruct (dirty (getconn s conn)).
  { simpl. by rewrite getconn_insert_eq. }
  unfold exec_cmds, exec_cmd.
  pose proof (incrby_effect stockKey (-1) (unwatch conn s).2) as (Hs & Ho & Hc & Hf).
  destruct (incrby stockKey (-1) (unwatch conn s).2) as [r s1]. simpl in *.
  repeat split.
  - done.
  - do 2 apply getconn_touch_fresh. apply Hf, getconn_insert_eq.
  - intros k Hk1 Hk2. rewrite lookup_insert_ne by done. by apply Hs.
  - by rewrite lookup_insert_eq.
  - by rewrite Ho.
Qed.

(** What the rollback transaction does. *)
Lemma rollback_tx_effect conn uk s :
  uk ≠ stockKey →
  let '(res, s') := multi_exec conn [INCR stockKey; DEL uk] s in
  config s' = config s ∧ orders s' = orders s ∧ getconn s' conn = fresh
  ∧ (∀ k, k ≠ stockKey → k ≠ uk → strs s' !! k = strs s !! k)
  ∧ (dirty (getconn s conn) = false → strs s' !! uk = None)
  ∧ (dirty (getconn s conn) = true → strs s' = strs s).
Proof.
  intros Hne. unfold multi_exec.
  destruct (dirty (getconn s conn)).
  { simpl. by rewrite getconn_insert_eq. }
  unfold exec_cmds, exec_cmd.
  pose proof (incrby_effect stockKey 1 (unwatch conn s).2) as (Hs & Ho & Hc & Hf).
  destruct (incrby stockKey 1 (unwatch conn s).2) as [r s1]. simpl in *.
  destruct (strs s1 !! uk) eqn:Huk; simpl.
  - repeat split; try done.
    + apply getconn_touch_fresh, Hf, getconn_insert_eq.
    + intros k Hk1 Hk2. rewrite lookup_delete_ne by done. by apply Hs.
    + intros _. by rewrite lookup_delete_eq.
  - repeat split; try done.
    + apply Hf, getconn_insert_eq.
    + intros k Hk1 Hk2. by apply Hs.
Qed.

(** *** WATCH is sound: a command that changes a string key flags every
    connection that watches the key, and takes no key and no flag away from
    a connection. *)

Lemma conn_le_refl x : conn_le x x.
Proof. by split. Qed.

Lemma conn_le_trans x y z : conn_le x y → conn_le y z → conn_le x z.
Proof. intros [H1 H2] [H3 H4]. split; [congruence|auto]. Qed.

Lemma touch_conn_le k s c : conn_le (getconn s c) (getconn (touch k s) c).
Proof. rewrite getconn_touch. by case_bool_decide. Qed.

Lemma touch_watched k s c :
  k ∈ watched (getconn s c) → dirty (getconn (touch k s) c) = true.
Proof. intros H. rewrite getconn_touch. by rewrite bool_decide_eq_true_2. Qed.

Lemma flags_watchers_refl c s : flags_watchers c s s.
Proof. split; [apply conn_le_refl|done]. Qed.

Lemma flags_watchers_trans c s1 s2 s3 :
  flags_watchers c s1 s2 → flags_watchers c s2 s3 → flags_watchers c s1 s3.
Proof.
  intros [L1 F1] [L2 F2]. split; [by eapply conn_le_trans|].
  intros k Hk Hw.
  destruct (decide (strs s2 !! k = strs s1 !! k)) as [E|E].
  - apply (F2 k); [congruence|]. destruct L1 as [-> _]. done.
  - apply L2. by apply (F1 k).
Qed.

Lemma flags_watchers_write c k (f : gmap string string → gmap string string) s :
  (∀ k', k' ≠ k → f (strs s) !! k' = strs s !! k') →
  flags_watchers c s (touch k (set_strs f s)).
Proof.
  intros Hf. split.
  - apply (touch_conn_le k (set_strs f s) c).
  - intros k' Hk' Hw. simpl in Hk'.
    destruct (decide (k' = k)) as [->|Hne].
    + by apply (touch_watched k (set_strs f s) c).
    + destruct Hk'. by apply Hf.
Qed.

Lemma incrby_flags c k d s : flags_watchers c s (incrby k d s).2.
Proof.
  unfold incrby.
  destruct (match strs s !! k with Some t => string2ll t | None => Some 0%Z end) as [z|];
    [|apply flags_watchers_refl].
  destruct (Js.in_int64 (z + d)); [|apply flags_watchers_refl]. simpl.
  apply flags_watchers_write. intros k' Hne. by rewrite lookup_insert_ne.
Qed.

Lemma exec_cmd_flags c x s : flags_watchers c s (exec_cmd x s).2.
Proof.
  destruct x as [k|k|k v|k|e]; simpl.
  - apply incrby_flags.
  - apply incrby_flags.
  - apply flags_watchers_write. intros k' Hne. by rewrite lookup_insert_ne.
  - case_match; simpl; [|apply flags_watchers_refl].
    apply flags_watchers_write. intros k' Hne. by rewrite lookup_delete_ne.
  - split; [apply (touch_conn_le _ (set_orders (cons e) s) c)|done].
Qed.

Lemma exec_cmds_flags c xs : ∀ s, flags_watchers c s (exec_cmds xs s).2.
Proof.
  induction xs as [|x xs IH]; intros s; simpl; [apply flags_watchers_refl|].
  pose proof (exec_cmd_flags c x s) as H1.
  destruct (exec_cmd x s) as [r s1]. simpl in *.
  specialize (IH s1). destruct (exec_cmds xs s1) as [rs s2]. simpl in *.
  by eapply flags_watchers_trans.
Qed.

Lemma multi_exec_flags c conn xs s :
  c ≠ conn → flags_watchers c s (multi_exec conn xs s).2.
Proof.
  intros Hne.
  assert (flags_watchers c s (unwatch conn s).2) as H0.
  { split; [|done]. simpl. rewrite getconn_insert_ne by done. apply conn_le_refl. }
  unfold multi_exec. destruct (dirty (getconn s conn)); [done|].
  pose proof (exec_cmds_flags c xs (unwatch conn s).2) as H1.
  destruct (exec_cmds xs _) as [rs s']. simpl in *.
  by eapply flags_watchers_trans.
Qed.

(** Unfolds the monad of the store in the goal. *)
Ltac msimpl :=
  unfold mbind, M_bind, mret, M_ret, watch, unwatch, mget, get, hgetall_config;
  simpl.

(** ** One call of [attemptPurchase] that runs undisturbed *)

Section Sequential.

Variable NumberOther : string → Js.number.
Variable MAX_RETRIES : nat.

Abbreviation attemptPurchase' := (attemptPurchase NumberOther MAX_RETRIES).
Abbreviation attempt_loop' := (attempt_loop NumberOther).

Lemma stock_exhausted_check v :
  stock_exhausted NumberOther v →
  negb (Js.isFinite (Js.Number NumberOther (Js.or_str v "0")))
  || Js.le (Js.Number NumberOther (Js.or_str v "0")) (Js.of_Z 0) = true.
Proof.
  destruct v as [t|]; simpl; [|done].
  destruct (String.eqb_spec t "") as [->|Hne]; [done|].
  intros [H|H]; rewrite H; [done|]. by rewrite orb_true_r.
Qed.

(** C3. Outside the sale window ([now < startsAt] or [now > endsAt]) a call
    of [attemptPurchase] returns code 3 (window closed), whatever the stock
    and whether or not the buyer holds a receipt, and the stock counter, the
    receipts and the order log are as before. The loop must be allowed one
    iteration. *)
Theorem window_enforcement conn userId now startsAt endsAt s :
  (0 < MAX_RETRIES)%nat →
  Js.lt (Js.of_Z now) startsAt = true ∨ Js.gt (Js.of_Z now) endsAt = true →
  let '(r, s') := attemptPurchase' conn userId now startsAt endsAt s in
  r = Result 3 None None ∧ same_data s s'.
Proof.
  intros Hmax Hwin. unfold attemptPurchase.
  destruct MAX_RETRIES as [|n]; [lia|]. simpl. msimpl.
  assert (window_closed now startsAt endsAt = true) as ->.
  { unfold window_closed. destruct Hwin as [-> | ->]; [done|]. by rewrite orb_true_r. }
  simpl. by repeat split.
Qed.

(** C5. Inside the sale window, for a buyer whose receipt slot holds an
    order identifier, [attemptPurchase] returns code 1 (already purchased)
    with exactly that identifier, and the stock counter, the receipts and
    the order log are as before. *)
Theorem duplicate_rejection conn userId now startsAt endsAt s existing :
  (0 < MAX_RETRIES)%nat →
  Js.lt (Js.of_Z now) startsAt = false →
  Js.gt (Js.of_Z now) endsAt = false →
  strs s !! userKey userId = Some existing →
  existing ≠ "" →
  let '(r, s') := attemptPurchase' conn userId now startsAt endsAt s in
  r = Result 1 (Some existing) None ∧ same_data s s'.
Proof.
  intros Hmax H1 H2 Hrec Hne. unfold attemptPurchase.
  destruct MAX_RETRIES as [|n]; [lia|]. simpl. msimpl.
  unfold window_closed. rewrite H1, H2. simpl.
  rewrite Hrec. simpl.
  destruct (String.eqb_spec existing "") as [->|_]; [done|]. simpl.
  by repeat split.
Qed.

(** C6. Inside the sale window, for a buyer without a receipt,
    [attemptPurchase] returns code 2 (sold out) whenever the stock counter is
    absent, is no finite number, or is at most zero, and the store's data is
    as before. *)
Theorem sold_out_rejection conn userId now startsAt endsAt s :
  (0 < MAX_RETRIES)%nat →
  Js.lt (Js.of_Z now) startsAt = false →
  Js.gt (Js.of_Z now) endsAt = false →
  strs s !! userKey userId = None →
  stock_exhausted NumberOther (strs s !! stockKey) →
  let '(r, s') := attemptPurchase' conn userId now startsAt endsAt s in
  r = Result 2 None None ∧ same_data s s'.
Proof.
  intros Hmax H1 H2 Hrec Hstock. unfold attemptPurchase.
  destruct MAX_RETRIES as [|n]; [lia|]. simpl. msimpl.
  unfold window_closed. rewrite H1, H2. simpl.
  rewrite Hrec. simpl.
  rewrite (stock_exhausted_check _ Hstock). simpl.
  by repeat split.
Qed.

Lemma attempt_loop_codes conn userId now startsAt endsAt n s :
  code (attempt_loop' conn userId now startsAt endsAt n s).1 ∈ [0; 1; 2; 3; 4]%Z.
Proof.
  revert s. induction n as [|n IH]; intros s; simpl; msimpl.
  { set_solver. }
  destruct (window_closed now startsAt endsAt); simpl; [set_solver|].
  destruct (Js.truthy _); simpl; [set_solver|].
  destruct (_ || _); simpl; [set_solver|].
  destruct (multi_exec _ _ _) as [[rs|] s1]; simpl.
  - destruct (_ && _); simpl.
    + destruct (multi_exec _ _ _); simpl. set_solver.
    + set_solver.
  - apply IH.
Qed.

(** C10. Whatever its arguments and the store, [attemptPurchase] returns a
    result whose code is 0, 1, 2, 3 or 4, so that [doPurchase] never
    answers with its last branch, status 500. *)
Theorem result_codes conn userId now startsAt endsAt clock body_userId s :
  code (attemptPurchase' conn userId now startsAt endsAt s).1 ∈ [0; 1; 2; 3; 4]%Z
  ∧ http_status (doPurchase NumberOther MAX_RETRIES conn clock body_userId s).1 ≠ 500%Z.
Proof.
  split; [apply attempt_loop_codes|].
  unfold doPurchase. destruct (_ || _); [done|]. msimpl.
  pose proof (attempt_loop_codes conn
    (Js.trim (Js.or_str body_userId "")) clock
    (Js.Number_undef NumberOther (config s !! "startsAt"))
    (Js.Number_undef NumberOther (config s !! "endsAt")) MAX_RETRIES s) as H.
  unfold attemptPurchase.
  destruct (attempt_loop _ _ _ _ _ _ _ s) as [r s']. simpl in *.
  unfold respond.
  repeat (apply elem_of_cons in H as [-> | H]; [done|]).
  by apply elem_of_nil in H.
Qed.

(** C2, as the code has it. Inside the sale window, for a buyer without a
    receipt and a stock counter that holds an integer [z >= 1], a call of
    [attemptPurchase] on a connection that is not flagged returns code 0 with
    the order identifier made of the timestamp, a colon and the buyer: the
    counter then holds [z - 1], the buyer's receipt is that identifier and
    the order log has one more entry, its first. And the transaction is one
    unit: whatever the state of the connection, it runs either none of the
    three writes or all of them. *)
Theorem reservation_postcondition conn userId now startsAt endsAt s z :
  (0 < MAX_RETRIES)%nat →
  Js.lt (Js.of_Z now) startsAt = false →
  Js.gt (Js.of_Z now) endsAt = false →
  strs s !! userKey userId = None →
  strs s !! stockKey = Some (Js.string_of_Z z) →
  (1 ≤ z ≤ Js.INT64_MAX)%Z →
  let orderId := Js.string_of_Z now ++ ":" ++ userId in
  let entry := OrderEntry userId now orderId in
  (dirty (getconn s conn) = false →
   let '(r, s') := attemptPurchase' conn userId now startsAt endsAt s in
   r = Result 0 (Some orderId) None
   ∧ strs s' = <[userKey userId := orderId]> (<[stockKey := Js.string_of_Z (z - 1)]> (strs s))
   ∧ orders s' = entry :: orders s
   ∧ config s' = config s)
  ∧ (let '(res, s') :=
       multi_exec conn [DECR stockKey; SET (userKey userId) orderId; LPUSH_orders entry] s in
     (res = None ∧ same_data s s')
     ∨ (res ≠ None
        ∧ strs s' = <[userKey userId := orderId]> (<[stockKey := Js.string_of_Z (z - 1)]> (strs s))
        ∧ orders s' = entry :: orders s
        ∧ config s' = config s)).
Proof.
  intros Hmax H1 H2 Hrec Hstock Hz orderId entry.
  assert (Js.in_int64 z = true) as Hz64.
  { apply in_int64_spec. unfold Js.INT64_MIN, Js.INT64_MAX in *. lia. }
  assert (Js.in_int64 (z - 1) = true) as Hz64'.
  { apply in_int64_spec. unfold Js.INT64_MIN, Js.INT64_MAX in *. lia. }
  split.
  - intros Hclean. unfold attemptPurchase.
    destruct MAX_RETRIES as [|n]; [lia|]. simpl. msimpl.
    unfold window_closed. rewrite H1, H2. simpl.
    rewrite Hrec, Hstock. simpl.
    rewrite string_of_Z_eqb_empty, (Number_of_Z _ _ Hz64).
    rewrite (isFinite_nearest _ Hz64), (le_nearest_0 _ Hz64).
    destruct (Z.leb_spec z 0) as [?|_]; [lia|]. simpl.
    rewrite (purchase_tx _ _ _ _ _ z); [|done..].
    rewrite getconn_insert_eq. simpl. rewrite Hclean.
    simpl. rewrite (isFinite_nearest _ Hz64'), (lt_nearest_0 _ Hz64').
    destruct (Z.ltb_spec (z - 1) 0) as [?|_]; [lia|]. simpl.
    by repeat split.
  - rewrite (purchase_tx _ _ _ _ _ z); [|done..].
    destruct (dirty (getconn s conn)).
    + left. by repeat split.
    + right. by repeat split.
Qed.

(** What a call of [attemptPurchase] that runs undisturbed may write: the
    stock counter and the receipt of its own buyer, and no receipt that is
    already there. *)
Lemma attempt_loop_effect conn userId now startsAt endsAt n s :
  let '(r, s') := attempt_loop' conn userId now startsAt endsAt n s in
  let orderId := Js.string_of_Z now ++ ":" ++ userId in
  config s' = config s
  ∧ (∀ k, k ≠ stockKey → k ≠ userKey userId → strs s' !! k = strs s !! k)
  ∧ (Js.truthy (strs s !! userKey userId) = true →
     strs s' = strs s ∧ orders s' = orders s ∧ code r ≠ 0%Z)
  ∧ (code r = 0%Z →
     r = Result 0 (Some orderId) None ∧ strs s' !! userKey userId = Some orderId)
  ∧ (strs s !! userKey userId = None → code r ≠ 0%Z →
     strs s' !! userKey userId = None).
Proof.
  revert s. induction n as [|n IH]; intros s; simpl; msimpl.
  { by repeat split. }
  destruct (window_closed now startsAt endsAt); simpl.
  { by repeat split. }
  destruct (Js.truthy (strs s !! userKey userId)) eqn:Hex; simpl.
  { by repeat split. }
  destruct (_ || _); simpl.
  { by repeat split. }
  match goal with |- context [multi_exec conn ?xs ?s1] =>
    pose proof (purchase_tx_effect conn (userKey userId)
      (Js.string_of_Z now ++ ":" ++ userId)
      (OrderEntry userId now (Js.string_of_Z now ++ ":" ++ userId))
      s1 (userKey_stockKey userId)) as Htx;
    destruct (multi_exec conn xs s1) as [[rs|] s2]
  end; simpl in *.
  - destruct Htx as (Hc & Hf & Hs & Hu & Ho).
    destruct (_ && _); simpl.
    + pose proof (rollback_tx_effect conn (userKey userId) s2
        (userKey_stockKey userId)) as Hrb.
      destruct (multi_exec conn _ s2) as [res3 s3]. simpl.
      destruct Hrb as (Hc3 & Ho3 & Hf3 & Hs3 & Hu3 & _).
      repeat split; try done.
      * congruence.
      * intros k Hk1 Hk2. rewrite Hs3 by done. by apply Hs.
      * intros _ _. apply Hu3. by rewrite Hf.
    + by repeat split.
  - destruct Htx as (Hc & Hf & Hs & Ho).
    specialize (IH (set_conns (insert conn fresh) s2)).
    destruct (attempt_loop _ _ _ _ _ _ _ _) as [r s']. simpl in *.
    rewrite Hs, Hc in IH. destruct IH as (IH1 & IH2 & IH3 & IH4 & IH5).
    repeat split; try done.
    + apply IH4. done.
    + apply IH4. done.
Qed.

Lemma orderId_nonempty now userId : Js.string_of_Z now ++ ":" ++ userId ≠ "".
Proof.
  pose proof (string_of_Z_nonempty now) as H.
  destruct (Js.string_of_Z now); [done|]. discriminate.
Qed.

Lemma truthy_Some v : v ≠ "" → Js.truthy (Some v) = true.
Proof. intros H. simpl. by destruct (String.eqb_spec v ""). Qed.

Lemma respond_200 r : http_status (respond r) = 200%Z ↔ code r = 0%Z.
Proof.
  unfold respond.
  repeat (case_match; simpl; [rewrite ?Z.eqb_eq, ?Z.eqb_neq in *; split; intros; lia|]).
  rewrite ?Z.eqb_neq in *. split; intros; lia.
Qed.

(** What one purchase request may write. *)
Lemma doPurchase_effect conn clock body_userId s :
  let '(h, s') := doPurchase NumberOther MAX_RETRIES conn clock body_userId s in
  let u := Js.trim (Js.or_str body_userId "") in
  (∀ k, k ≠ stockKey → k ≠ userKey u → strs s' !! k = strs s !! k)
  ∧ (Js.truthy (strs s !! userKey u) = true → strs s' = strs s)
  ∧ (http_status h = 200%Z →
     ∃ oid, h = Http 200 (BPurchased (Some oid)) ∧ oid ≠ ""
            ∧ strs s' !! userKey u = Some oid)
  ∧ (strs s !! userKey u = None → http_status h ≠ 200%Z →
     strs s' !! userKey u = None).
Proof.
  unfold doPurchase. destruct (_ || _); simpl.
  { by repeat split. }
  msimpl. unfold attemptPurchase.
  pose proof (attempt_loop_effect conn (Js.trim (Js.or_str body_userId "")) clock
    (Js.Number_undef NumberOther (config s !! "startsAt"))
    (Js.Number_undef NumberOther (config s !! "endsAt")) MAX_RETRIES s) as H.
  destruct (attempt_loop _ _ _ _ _ _ _ s) as [r s']. simpl in *.
  destruct H as (_ & H2 & H3 & H4 & H5).
  repeat split.
  - done.
  - intros Ht. by apply H3.
  - intros E%respond_200. destruct (H4 E) as [-> Hrec].
    eexists. repeat split; [|done]. apply orderId_nonempty.
  - intros Hn E. apply H5; [done|]. by rewrite <- respond_200.
Qed.

Lemma getPurchase_store userId s : (getPurchase userId s).2 = s.
Proof. unfold getPurchase. by destruct (_ || _). Qed.

Lemma getStatus_store clock s : (getStatus NumberOther clock s).2 = s.
Proof. reflexivity. Qed.

(** An operation that runs to its end keeps every receipt that is there. *)
Lemma run_op_receipt o s u v :
  strs s !! userKey u = Some v → v ≠ "" →
  strs (run_op NumberOther MAX_RETRIES o s) !! userKey u = Some v.
Proof.
  intros Hrec Hne. destruct o as [conn clock body_userId|userId|clock]; simpl.
  - pose proof (doPurchase_effect conn clock body_userId s) as H.
    destruct (doPurchase _ _ _ _ _ s) as [h s']. simpl in *.
    destruct H as (H1 & H2 & _).
    destruct (decide (Js.trim (Js.or_str body_userId "") = u)) as [E|E].
    + rewrite E in H2. rewrite H2; [done|]. rewrite Hrec. by apply truthy_Some.
    + rewrite H1; [done|apply userKey_stockKey|].
      intros E'. by apply userKey_inj in E'.
  - by rewrite getPurchase_store.
  - done.
Qed.

Lemma run_ops_receipt os s u v :
  strs s !! userKey u = Some v → v ≠ "" →
  strs (run_ops NumberOther MAX_RETRIES os s) !! userKey u = Some v.
Proof.
  revert s. induction os as [|o os IH]; intros s Hrec Hne; [done|].
  simpl. apply IH; [|done]. by apply run_op_receipt.
Qed.

(** Operations none of which is a purchase answered 200 to buyer [u] leave
    [u] without a receipt. *)
Lemma run_ops_no_receipt os s u :
  strs s !! userKey u = None →
  no_purchase_by NumberOther MAX_RETRIES u os s →
  strs (run_ops NumberOther MAX_RETRIES os s) !! userKey u = None.
Proof.
  revert s. induction os as [|o os IH]; intros s Hrec Hno; [done|].
  simpl in *. destruct Hno as [Ho Hno]. apply IH; [|done].
  destruct o as [conn clock body_userId|userId|clock]; simpl.
  - pose proof (doPurchase_effect conn clock body_userId s) as H.
    destruct (doPurchase _ _ _ _ _ s) as [h s']. simpl in *.
    destruct H as (H1 & _ & _ & H4).
    destruct (decide (Js.trim (Js.or_str body_userId "") = u)) as [E|E].
    + rewrite E in H4. apply H4; [done|]. by apply Ho.
    + rewrite H1; [done|apply userKey_stockKey|].
      intros E'. by apply userKey_inj in E'.
  - by rewrite getPurchase_store.
  - done.
Qed.

(** Where the initial stock, the stock and their difference are integers
    of at most 53 bits, [getStatus] reports them exactly. *)
Lemma getStatus_integers clock s i z :
  config s !! "initialStock" = Some (Js.string_of_Z i) →
  strs s !! stockKey = Some (Js.string_of_Z z) →
  (Z.abs i ≤ 2 ^ 53)%Z → (Z.abs z ≤ 2 ^ 53)%Z → (Z.abs (i - z) ≤ 2 ^ 53)%Z →
  st_stock (getStatus NumberOther clock s).1 = Js.of_Z z
  ∧ st_sold (getStatus NumberOther clock s).1 = Js.of_Z (i - z).
Proof.
  intros Hi Hz Hi53 Hz53 Hd53. unfold getStatus. msimpl. rewrite Hi, Hz. simpl.
  rewrite !Number_safe, !or0_of_Z by done. split; [done|]. by apply sub_of_Z.
Qed.

(** C7, as the code has it. [getStatus] leaves the store as it is and
    answers with the phase found by the first test that holds: upcoming when
    [now < startsAt], else ended when [now > endsAt], else sold out when
    [stock <= 0], else active; and [sold] is the difference, in doubles, of
    the initial stock and the stock: it is [i - z] when the configuration
    holds the integer [i] and the stock counter the integer [z], and [i],
    [z] and [i - z] are of at most [2^53] in absolute value. *)
Theorem status_resolver clock s :
  let '(r, s') := getStatus NumberOther clock s in
  let now := Js.of_Z clock in
  let startsAt := Js.Number_undef NumberOther (config s !! "startsAt") in
  let endsAt := Js.Number_undef NumberOther (config s !! "endsAt") in
  let initialStock := Js.or0 (Js.Number_undef NumberOther (config s !! "initialStock")) in
  let stock := Js.or0 (Js.Number_null NumberOther (strs s !! stockKey)) in
  s' = s
  ∧ st_stock r = stock
  ∧ (st_status r = upcoming ↔ Js.lt now startsAt = true)
  ∧ (st_status r = ended ↔ Js.lt now startsAt = false ∧ Js.gt now endsAt = true)
  ∧ (st_status r = sold_out ↔
     Js.lt now startsAt = false ∧ Js.gt now endsAt = false
     ∧ Js.le stock (Js.of_Z 0) = true)
  ∧ (st_status r = active ↔
     Js.lt now startsAt = false ∧ Js.gt now endsAt = false
     ∧ Js.le stock (Js.of_Z 0) = false)
  ∧ st_sold r = Js.sub initialStock stock
  ∧ (∀ i z, config s !! "initialStock" = Some (Js.string_of_Z i) →
            strs s !! stockKey = Some (Js.string_of_Z z) →
            (Z.abs i ≤ 2 ^ 53)%Z → (Z.abs z ≤ 2 ^ 53)%Z → (Z.abs (i - z) ≤ 2 ^ 53)%Z →
            st_stock r = Js.of_Z z ∧ st_sold r = Js.of_Z (i - z)).
Proof.
  pose proof (getStatus_integers clock s) as Hint.
  unfold getStatus in *.
  unfold mbind, M_bind, mret, M_ret, get, hgetall_config in *. simpl in *.
  destruct (Js.lt (Js.of_Z clock) _), (Js.gt (Js.of_Z clock) _), (Js.le _ _);
    repeat split; intros; destruct_and?; try done; by eapply Hint.
Qed.

Lemma trim_valid userId :
  (3 ≤ String.length (Js.trim userId))%nat →
  Js.truthy (Some userId) = true ∧ Js.or_str (Some userId) "" = userId
  ∧ (String.length (Js.trim userId) <? 3)%nat = false.
Proof.
  intros H. assert (userId ≠ "") as Hne.
  { intros ->. simpl in H. lia. }
  simpl. destruct (String.eqb_spec userId ""); [done|].
  repeat split. by apply Nat.ltb_ge.
Qed.

(** X28. What holds of C8 when the operations do not overlap. [getPurchase]
    never changes the store and reads nothing but the
    string keys, so neither the sale window nor the clock matters to it. For
    a valid buyer without a receipt it answers [{purchased: false, orderId:
    null}], and goes on doing so after any operations none of which is a
    successful purchase of that buyer; once a purchase of the buyer was
    answered 200 with an order identifier it answers [{purchased: true}] with
    that identifier, after any further operations. *)
Theorem lookup_idempotent userId s :
  (3 ≤ String.length (Js.trim userId))%nat →
  let u := Js.trim userId in
  (∀ v s0, (getPurchase v s0).2 = s0)
  ∧ (∀ v s1 s2, strs s1 = strs s2 → (getPurchase v s1).1 = (getPurchase v s2).1)
  ∧ (strs s !! userKey u = None →
     ∀ os, no_purchase_by NumberOther MAX_RETRIES u os s →
       (getPurchase (Some userId) (run_ops NumberOther MAX_RETRIES os s)).1
       = Http 200 (BLookup false None))
  ∧ (∀ conn clock oid,
       (doPurchase NumberOther MAX_RETRIES conn clock (Some userId) s).1
       = Http 200 (BPurchased oid) →
       ∀ os,
         (getPurchase (Some userId)
            (run_ops NumberOther MAX_RETRIES os
               (doPurchase NumberOther MAX_RETRIES conn clock (Some userId) s).2)).1
         = Http 200 (BLookup true oid)).
Proof.
  intros Hvalid u. subst u. destruct (trim_valid _ Hvalid) as (Ht & Ho & Hl).
  repeat split.
  - intros v s0. apply getPurchase_store.
  - intros v s1 s2 E. unfold getPurchase. destruct (_ || _); [done|].
    msimpl. by rewrite E.
  - intros Hrec os Hno. unfold getPurchase. rewrite Ht, Ho, Hl. msimpl.
    by rewrite (run_ops_no_receipt _ _ _ Hrec Hno).
  - intros conn clock oid E os.
    pose proof (doPurchase_effect conn clock (Some userId) s) as H.
    destruct (doPurchase _ _ _ _ _ s) as [h s']. simpl in E, H. subst h.
    destruct H as (_ & _ & H3 & _).
    destruct (H3 eq_refl) as (oid' & [= ->] & Hne & Hrec).
    change (if String.eqb userId "" then "" else userId)
      with (Js.or_str (Some userId) "") in Hrec.
    rewrite Ho in Hrec.
    unfold getPurchase. rewrite Ht, Ho, Hl. msimpl.
    rewrite (run_ops_receipt _ _ _ _ Hrec Hne).
    by rewrite (truthy_Some _ Hne).
Qed.

End Sequential.

(** ** Calls that are interleaved *)

Section Concurrent.

Variable NumberOther : string → Js.number.
Variable MAX_RETRIES : nat.

Abbreviation step' := (step NumberOther MAX_RETRIES).
Abbreviation run_alone' := (run_alone NumberOther MAX_RETRIES).
Abbreviation run' := (run NumberOther MAX_RETRIES).
Abbreviation step_at' := (step_at NumberOther MAX_RETRIES).

Lemma run_alone_done fuel c r s :
  c_pc c = PDone r → run_alone' fuel c s = (c, s).
Proof.
  intros Hpc. induction fuel as [|fuel IH]; [done|].
  simpl. unfold mbind, M_bind, step. rewrite Hpc. msimpl. apply IH.
Qed.

(** The coroutine, left alone, is the sequential program: from the head of
    the loop with [n] iterations left it ends, within [4 * n + 1] steps, with
    the result and the store of [attempt_loop]. *)
Lemma run_alone_attempt_loop n : ∀ conn userId now startsAt endsAt tries s fuel,
  (tries + n = MAX_RETRIES)%nat →
  (4 * n + 1 ≤ fuel)%nat →
  run_alone' fuel (Call conn userId now startsAt endsAt (PLoop tries)) s
  = let '(r, s') := attempt_loop NumberOther conn userId now startsAt endsAt n s in
    (Call conn userId now startsAt endsAt (PDone r), s').
Proof.
  induction n as [|n IH]; intros conn userId now startsAt endsAt tries s fuel Ht Hf.
  - destruct fuel as [|fuel]; [lia|].
    simpl. unfold mbind, M_bind, step. simpl.
    rewrite (proj2 (Nat.ltb_ge tries MAX_RETRIES)) by lia. msimpl.
    by erewrite run_alone_done.
  - do 3 (destruct fuel as [|fuel]; [lia|]).
    simpl. unfold mbind at 1, M_bind at 1, step at 1. simpl.
    rewrite (proj2 (Nat.ltb_lt tries MAX_RETRIES)) by lia. msimpl.
    unfold step at 1. simpl.
    destruct (window_closed now startsAt endsAt); msimpl.
    { by erewrite run_alone_done. }
    unfold step at 1. simpl.
    destruct (Js.truthy (strs s !! userKey userId)); msimpl.
    { by erewrite run_alone_done. }
    destruct (_ || _); msimpl.
    { by erewrite run_alone_done. }
    destruct (multi_exec _ _ _) as [[rs|] s2]; msimpl.
    + destruct (_ && _); msimpl.
      * destruct fuel as [|fuel]; [lia|]. simpl.
        unfold mbind at 1, M_bind at 1, step at 1. msimpl.
        destruct (multi_exec _ _ _) as [res3 s3].
        by erewrite run_alone_done.
      * by erewrite run_alone_done.
    + destruct fuel as [|fuel]; [lia|]. simpl.
      unfold mbind at 1, M_bind at 1, step at 1. msimpl.
      apply IH; lia.
Qed.

(** In particular a call left alone for [4 * MAX_RETRIES + 1] steps returns
    what [attemptPurchase] returns. *)
Lemma run_alone_attemptPurchase conn userId now startsAt endsAt s :
  run_alone' (4 * MAX_RETRIES + 1) (Call conn userId now startsAt endsAt (PLoop 0)) s
  = let '(r, s') := attemptPurchase NumberOther MAX_RETRIES conn userId now startsAt endsAt s in
    (Call conn userId now startsAt endsAt (PDone r), s').
Proof. apply run_alone_attempt_loop; lia. Qed.

(** A step of a call writes no string key but the stock counter and the
    receipt of its own buyer. *)
Lemma step_effect c s :
  ∀ k, k ≠ stockKey → k ≠ userKey (c_userId c) →
  strs (step' c s).2 !! k = strs s !! k.
Proof.
  intros k Hk1 Hk2. unfold step.
  destruct (c_pc c) as [tries|tries|tries stockStr existing|tries| |r]; msimpl.
  - by destruct (_ <? _)%nat.
  - by destruct (window_closed _ _ _).
  - destruct (Js.truthy existing); [done|].
    destruct (_ || _); [done|]. simpl.
    pose proof (purchase_tx_effect (c_conn c) (userKey (c_userId c))
      (Js.string_of_Z (c_now c) ++ ":" ++ c_userId c)
      (OrderEntry (c_userId c) (c_now c) (Js.string_of_Z (c_now c) ++ ":" ++ c_userId c))
      s (userKey_stockKey _)) as Htx.
    destruct (multi_exec _ _ _) as [[rs|] s2]; simpl in *.
    + destruct Htx as (_ & _ & Hs & _). destruct (_ && _); simpl; by apply Hs.
    + destruct Htx as (_ & _ & -> & _). done.
  - done.
  - pose proof (rollback_tx_effect (c_conn c) (userKey (c_userId c)) s
      (userKey_stockKey _)) as Hrb.
    destruct (multi_exec _ _ _) as [res s2]. simpl.
    destruct Hrb as (_ & _ & _ & Hs & _). by apply Hs.
  - done.
Qed.

Lemma step_params c s :
  c_conn (step' c s).1 = c_conn c ∧ c_userId (step' c s).1 = c_userId c
  ∧ c_now (step' c s).1 = c_now c ∧ c_startsAt (step' c s).1 = c_startsAt c
  ∧ c_endsAt (step' c s).1 = c_endsAt c.
Proof.
  unfold step.
  destruct (c_pc c) as [tries|tries|tries stockStr existing|tries| |r]; msimpl.
  - by destruct (_ <? _)%nat.
  - by destruct (window_closed _ _ _).
  - destruct (Js.truthy existing); [done|]. destruct (_ || _); [done|]. simpl.
    destruct (multi_exec _ _ _) as [[rs|] s2]; simpl; [|done].
    by destruct (_ && _).
  - done.
  - by destruct (multi_exec _ _ _).
  - done.
Qed.

Lemma step_at_params i j w c :
  calls w !! j = Some c →
  ∃ c', calls (step_at' i w) !! j = Some c' ∧ same_params c c'.
Proof.
  intros Hj. unfold step_at.
  destruct (calls w !! i) as [ci|] eqn:Hi; [|by exists c].
  pose proof (step_params ci (store w)) as Hp.
  destruct (step _ _ ci (store w)) as [ci' s']. simpl in *.
  destruct (decide (i = j)) as [->|Hne].
  - exists ci'. split; [|by simplify_eq].
    apply list_lookup_insert_eq. by eapply lookup_lt_Some.
  - exists c. split; [|done]. by rewrite list_lookup_insert_ne.
Qed.

Lemma run_params sched : ∀ w j c,
  calls w !! j = Some c →
  ∃ c', calls (run' sched w) !! j = Some c' ∧ same_params c c'.
Proof.
  induction sched as [|i sched IH]; intros w j c Hj; [by exists c|].
  simpl. destruct (step_at_params i j w c Hj) as (c1 & H1 & Hp1).
  destruct (IH _ _ _ H1) as (c2 & H2 & Hp2).
  exists c2. split; [done|].
  destruct Hp1 as (?&?&?&?&?), Hp2 as (?&?&?&?&?).
  repeat split; congruence.
Qed.

(** C4, as the code has it. The window check is made in every iteration of
    the loop, but on the values [now], [startsAt] and [endsAt] that
    [doPurchase] computed before it called [attemptPurchase]: whatever the
    calls in flight did in between and whatever the store holds by then, a
    call that stands at its window check returns code 3 exactly when the
    window was closed for the time and the configuration it started with. *)
Theorem window_check_cached sched w i conn clock userId s0 c tries s :
  calls w !! i = Some (start_call NumberOther conn clock userId s0) →
  calls (run' sched w) !! i = Some c →
  c_pc c = PWindow tries →
  c_now c = clock
  ∧ c_startsAt c = Js.Number_undef NumberOther (config s0 !! "startsAt")
  ∧ c_endsAt c = Js.Number_undef NumberOther (config s0 !! "endsAt")
  ∧ (c_pc (step' c s).1 = PDone (Result 3 None None) ↔
     window_closed clock
       (Js.Number_undef NumberOther (config s0 !! "startsAt"))
       (Js.Number_undef NumberOther (config s0 !! "endsAt")) = true).
Proof.
  intros H0 Hc Hpc.
  destruct (run_params sched _ _ _ H0) as (c' & Hc' & Hp).
  rewrite Hc in Hc'. injection Hc' as <-.
  destruct Hp as (_ & _ & Hnow & HsA & HeA). simpl in *.
  repeat split; try done.
  - unfold step. rewrite Hpc, Hnow, HsA, HeA.
    destruct (window_closed _ _ _); msimpl; [done|discriminate].
  - unfold step. rewrite Hpc, Hnow, HsA, HeA.
    destruct (window_closed _ _ _); msimpl; [done|discriminate].
Qed.

(** X27. What holds of C9 when the operations do not overlap. Operations
    that run one after the other keep every receipt: a receipt that is
    there (a non-empty order identifier) is still there, unchanged, after
    any sequence of purchases, lookups and status requests, whatever the
    connections, the clocks and the buyers of the purchases. *)
Theorem receipt_permanence u v os s :
  v ≠ "" →
  strs s !! userKey u = Some v →
  strs (run_ops NumberOther MAX_RETRIES os s) !! userKey u = Some v.
Proof. intros Hne Hrec. by apply run_ops_receipt. Qed.

(** *** The invariant *)

Lemma count_insert (f : call → bool) cs i c c' :
  cs !! i = Some c →
  (count f (<[i:=c']> cs) + Nat.b2n (f c) = count f cs + Nat.b2n (f c'))%nat.
Proof.
  revert i. induction cs as [|x cs IH]; intros i Hi; [done|].
  destruct i as [|i]; simpl in *.
  - injection Hi as ->. unfold count. simpl. lia.
  - specialize (IH i Hi). unfold count in *. simpl. lia.
Qed.

Lemma count_pos (f : call → bool) cs i c :
  cs !! i = Some c → f c = true → (0 < count f cs)%nat.
Proof.
  revert i. induction cs as [|x cs IH]; intros i Hi Hf; [done|].
  destruct i as [|i]; simpl in *.
  - injection Hi as ->. unfold count. simpl. rewrite Hf. simpl. lia.
  - specialize (IH i Hi Hf). unfold count in *. simpl. lia.
Qed.

(** One step of a call that satisfies [call_ok], on a stock counter that
    holds the integer [z]: the call still satisfies [call_ok], and the step
    is of one of six kinds. *)
Lemma step_spec c s z (sold : Prop) :
  call_ok (strs s) sold c →
  strs s !! stockKey = Some (Js.string_of_Z z) →
  (Js.INT64_MIN < z < Js.INT64_MAX)%Z →
  (rolling_back c = true → sold) →
  ((z ≤ 0)%Z → sold) →
  let c' := (step' c s).1 in
  let s' := (step' c s).2 in
  call_ok (strs s') sold c'
  ∧ ∃ z', strs s' !! stockKey = Some (Js.string_of_Z z')
    ∧ ((undecided c = true ∧ undecided c' = true ∧ z' = z)
       ∨ (undecided c = true ∧ finished c' = true ∧ returned 0 c' = false ∧ z' = z)
       ∨ (undecided c = true ∧ returned 0 c' = true ∧ z' = (z - 1)%Z ∧ (1 ≤ z)%Z)
       ∨ (undecided c = true ∧ rolling_back c' = true ∧ z' = (z - 1)%Z ∧ (z ≤ 0)%Z)
       ∨ (rolling_back c = true ∧ finished c' = true ∧ returned 0 c' = false
          ∧ (z' = (z + 1)%Z ∨ z' = z))
       ∨ (c' = c ∧ finished c = true ∧ z' = z)).
Proof.
  intros Hok Hstock Hz Hroll Hsold.
  assert (Js.in_int64 z = true ∧ Js.in_int64 (z - 1) = true ∧ Js.in_int64 (z + 1) = true)
    as (Hz0 & Hz1 & Hz2).
  { rewrite !in_int64_spec. lia. }
  destruct c as [conn u now sA eA p]. destruct Hok as [Hwin Hok]. simpl in *.
  unfold step. simpl.
  destruct p as [tries|tries|tries stockStr existing|tries| |r]; simpl in *.
  - destruct (_ <? _)%nat; msimpl.
    + split; [done|]. exists z. split; [done|]. left. done.
    + split; [split; [done|right; right; done]|].
      exists z. split; [done|]. right; left. done.
  - rewrite Hwin. msimpl. rewrite Hstock, Hok.
    split.
    + split; [done|]. repeat split; try done. by exists z.
    + exists z. split; [done|]. left. done.
  - destruct Hok as (Hrec & -> & z0 & -> & Hz0' & Hsold0). simpl.
    rewrite string_of_Z_eqb_empty, (Number_of_Z _ _ Hz0'), (isFinite_nearest _ Hz0'),
      (le_nearest_0 _ Hz0').
    simpl. destruct (Z.leb_spec z0 0) as [Hle|Hgt]; msimpl.
    { split; [split; [done|right; left; split; [done|by apply Hsold0]]|].
      exists z. split; [done|]. right; left. done. }
    rewrite (purchase_tx _ _ _ _ _ z) by done.
    destruct (dirty (getconn s conn)); simpl.
    { split; [done|]. exists z. split; [done|]. left. done. }
    rewrite isFinite_nearest, lt_nearest_0 by done.
    destruct (Z.ltb_spec (z - 1) 0) as [Hneg|Hpos]; simpl.
    + split; [done|]. exists (z - 1)%Z.
      rewrite lookup_insert_ne by apply userKey_stockKey.
      rewrite lookup_insert_eq. split; [done|].
      right; right; right; left. repeat split; try done. lia.
    + split; [split; [done|left; done]|]. exists (z - 1)%Z.
      rewrite lookup_insert_ne by apply userKey_stockKey.
      rewrite lookup_insert_eq. split; [done|].
      right; right; left. repeat split; try done. lia.
  - msimpl. split; [done|]. exists z. split; [done|]. left. done.
  - msimpl. unfold multi_exec.
    destruct (dirty (getconn s conn)); simpl.
    { split; [split; [done|right; left; split; [done|by apply Hroll]]|]. exists z. split; [done|].
      right; right; right; right; left. by auto. }
    rewrite (incrby_of_Z _ _ _ z) by done. simpl.
    destruct (_ !! userKey u); simpl.
    + split; [split; [done|right; left; split; [done|by apply Hroll]]|]. exists (z + 1)%Z.
      rewrite lookup_delete_ne by apply userKey_stockKey.
      rewrite lookup_insert_eq. split; [done|].
      right; right; right; right; left. by auto.
    + split; [split; [done|right; left; split; [done|by apply Hroll]]|]. exists (z + 1)%Z.
      rewrite lookup_insert_eq. split; [done|].
      right; right; right; right; left. by auto.
  - msimpl. split; [done|]. exists z. split; [done|].
    right; right; right; right; right. done.
Qed.

Lemma call_ok_mono (m m' : gmap string string) (sold sold' : Prop) c :
  m' !! userKey (c_userId c) = m !! userKey (c_userId c) →
  (sold → sold') →
  call_ok m sold c → call_ok m' sold' c.
Proof.
  intros Hm Hs [Hwin Hok]. split; [done|].
  destruct (c_pc c) as [tries|tries|tries stockStr existing|tries| |r];
    rewrite ?Hm; try done.
  - destruct Hok as (? & ? & z' & ? & ? & ?). repeat split; try done.
    exists z'. auto.
  - destruct Hok as [?|[[? ?]|?]]; auto.
Qed.

Lemma step_at_length i w : length (calls (step_at' i w)) = length (calls w).
Proof.
  unfold step_at. destruct (calls w !! i); [|done].
  destruct (step _ _ _ _). simpl. apply length_insert.
Qed.

Lemma run_length sched : ∀ w, length (calls (run' sched w)) = length (calls w).
Proof.
  induction sched as [|i sched IH]; intros w; [done|].
  simpl. rewrite IH. apply step_at_length.
Qed.

(** Decides the kind of a call in the hypotheses and the goal. *)
Ltac kinds :=
  unfold count_code, undecided, rolling_back, returned, finished in *;
  repeat match goal with
  | H : context [c_pc ?c] |- _ => destruct (c_pc c); simpl in *; try done
  | H : context [(code ?r =? 0)%Z] |- _ => destruct (code r =? 0)%Z; simpl in *; try done
  end.

Lemma inv_step S i w :
  (0 ≤ S < Js.INT64_MAX)%Z →
  (Z.of_nat (length (calls w)) < 2 ^ 63)%Z →
  inv S w → inv S (step_at' i w).
Proof.
  intros HS HN (z & Hstock & Hcnt & Hnd & Hall).
  unfold step_at. destruct (calls w !! i) as [c|] eqn:Hi; [|by exists z].
  pose proof (proj1 (Forall_lookup _ _) Hall i c Hi) as Hok.
  destruct Hcnt as (C1 & C2 & C3 & C4 & C5).
  assert ((z ≤ 0)%Z → all_sold S (calls w)) as Hsold.
  { unfold all_sold. lia. }
  assert (rolling_back c = true → all_sold S (calls w)) as Hroll.
  { intros Hr. pose proof (count_pos _ _ _ _ Hi Hr). unfold all_sold. lia. }
  assert (Js.INT64_MIN < z < Js.INT64_MAX)%Z as Hz.
  { unfold Js.INT64_MIN, Js.INT64_MAX in *. lia. }
  pose proof (step_spec c (store w) z _ Hok Hstock Hz Hroll Hsold) as Hspec.
  pose proof (step_params c (store w)) as (_ & Hu & _).
  pose proof (step_effect c (store w)) as Heff.
  destruct (step _ _ c (store w)) as [c' s']. simpl in *.
  destruct Hspec as (Hok' & z' & Hstock' & Hcase).
  pose proof (count_insert (returned 0) _ _ _ c' Hi) as E0.
  pose proof (count_insert rolling_back _ _ _ c' Hi) as E1.
  pose proof (count_insert undecided _ _ _ c' Hi) as E2.
  assert (counters S z' (<[i:=c']> (calls w))) as Hcnt'.
  { unfold counters. rewrite length_insert. unfold count_code in *.
    destruct Hcase as [H|[H|[H|[H|[H|H]]]]]; destruct_and?; subst;
      kinds; lia. }
  exists z'. simpl. split; [done|]. split; [done|]. split.
  - rewrite list_fmap_insert, list_insert_id; [done|].
    by rewrite list_lookup_fmap, Hi, Hu.
  - apply Forall_lookup. intros j cj Hj.
    assert (all_sold S (calls w) → all_sold S (<[i:=c']> (calls w))) as Hmono.
    { destruct Hcnt' as (_ & C2' & _). unfold all_sold, count_code in *.
      destruct Hcase as [H|[H|[H|[H|[H|H]]]]]; destruct_and?; subst;
        kinds; lia. }
    destruct (decide (i = j)) as [->|Hne].
    + rewrite list_lookup_insert_eq in Hj by (by eapply lookup_lt_Some).
      injection Hj as <-. by eapply call_ok_mono.
    + rewrite list_lookup_insert_ne in Hj by done.
      eapply call_ok_mono; [|exact Hmono|by eapply (proj1 (Forall_lookup _ _) Hall)].
      apply Heff; [apply userKey_stockKey|].
      intros E%userKey_inj. apply Hne.
      eapply (NoDup_lookup _ i j); [exact Hnd| |].
      * by rewrite list_lookup_fmap, Hi.
      * rewrite list_lookup_fmap, Hj. simpl. by rewrite E.
Qed.

Lemma inv_run S sched : ∀ w,
  (0 ≤ S < Js.INT64_MAX)%Z →
  (Z.of_nat (length (calls w)) < 2 ^ 63)%Z →
  inv S w → inv S (run' sched w).
Proof.
  induction sched as [|i sched IH]; intros w HS HN Hinv; [done|].
  simpl. apply IH; [done|by rewrite step_at_length|by apply inv_step].
Qed.

(** *** Calls that share no connection *)

Lemma flags_watchers_conns c conn x s :
  c ≠ conn → flags_watchers c s (set_conns (insert conn x) s).
Proof.
  intros Hne. split; [|done]. rewrite getconn_insert_ne by done. apply conn_le_refl.
Qed.

(** A step of a call flags the connections of the others where it changes a
    key they watch. *)
Lemma step_flags c s c0 :
  c0 ≠ c_conn c → flags_watchers c0 s (step' c s).2.
Proof.
  intros Hne. unfold step.
  destruct (c_pc c) as [tries|tries|tries stockStr existing|tries| |r]; msimpl.
  - destruct (_ <? _)%nat; simpl; by apply flags_watchers_conns.
  - destruct (window_closed _ _ _); simpl;
      [by apply flags_watchers_conns|apply flags_watchers_refl].
  - destruct (Js.truthy existing); simpl; [by apply flags_watchers_conns|].
    destruct (_ || _); simpl; [by apply flags_watchers_conns|].
    match goal with |- context [multi_exec ?conn ?xs s] =>
      pose proof (multi_exec_flags c0 conn xs s Hne) as H;
      destruct (multi_exec conn xs s) as [[rs|] s2]
    end; simpl in *; [|done].
    by destruct (_ && _).
  - by apply flags_watchers_conns.
  - match goal with |- context [multi_exec ?conn ?xs s] =>
      pose proof (multi_exec_flags c0 conn xs s Hne) as H;
      destruct (multi_exec conn xs s) as [res s2]
    end. done.
  - apply flags_watchers_refl.
Qed.

Lemma call_iso_other s s' z z' c :
  flags_watchers (c_conn c) s s' →
  strs s !! stockKey = Some (Js.string_of_Z z) →
  strs s' !! stockKey = Some (Js.string_of_Z z') →
  call_iso s z c → call_iso s' z' c.
Proof.
  intros [[Hw Hd] Hf] Hs Hs'. unfold call_iso.
  destruct (c_pc c) as [tries|tries|tries stockStr existing|tries| |r];
    rewrite ?Hw; try done.
  intros [Hin [Hdirty| ->]]; (split; [done|]).
  - left. auto.
  - destruct (decide (z' = z)) as [->|Hne]; [by right|left].
    apply (Hf stockKey); [|done]. rewrite Hs, Hs'.
    intros [= E]. by apply string_of_Z_inj in E.
Qed.

(** A step of a call on a connection of its own: it reserves a unit exactly
    when it takes one from the stock counter. *)
Lemma step_iso c s z (sold : Prop) :
  call_ok (strs s) sold c →
  call_iso s z c →
  strs s !! stockKey = Some (Js.string_of_Z z) →
  (Js.INT64_MIN < z < Js.INT64_MAX)%Z →
  let c' := (step' c s).1 in
  let s' := (step' c s).2 in
  ∃ z', strs s' !! stockKey = Some (Js.string_of_Z z')
        ∧ call_iso s' z' c'
        ∧ (z' + Z.b2z (returned 0 c') = z + Z.b2z (returned 0 c))%Z.
Proof.
  intros Hok Hiso Hstock Hz.
  assert (Js.in_int64 z = true ∧ Js.in_int64 (z - 1) = true) as (Hz0 & Hz1).
  { rewrite !in_int64_spec. lia. }
  destruct c as [conn u now sA eA p]. destruct Hok as [Hwin Hok].
  unfold call_iso in *. simpl in *.
  unfold step. simpl.
  destruct p as [tries|tries|tries stockStr existing|tries| |r]; simpl in *.
  - destruct (_ <? _)%nat; msimpl; exists z; (split; [done|]); (split; [|done]).
    + rewrite getconn_insert_eq. simpl.
      apply elem_of_union. right. apply elem_of_union. left.
      by apply elem_of_singleton.
    + done.
  - rewrite Hwin. msimpl. rewrite Hstock. exists z. auto.
  - destruct Hok as (Hrec & -> & z0 & -> & Hz0' & Hsold0). simpl.
    rewrite string_of_Z_eqb_empty, (Number_of_Z _ _ Hz0'), (isFinite_nearest _ Hz0'),
      (le_nearest_0 _ Hz0').
    simpl. destruct (Z.leb_spec z0 0) as [Hle|Hgt]; msimpl.
    { by exists z. }
    rewrite (purchase_tx _ _ _ _ _ z) by done.
    destruct Hiso as [Hin Hiso].
    destruct (dirty (getconn s conn)); simpl.
    { by exists z. }
    destruct Hiso as [?|[= E]]; [done|]. apply string_of_Z_inj in E. subst z0.
    rewrite isFinite_nearest, lt_nearest_0 by done.
    destruct (Z.ltb_spec (z - 1) 0) as [Hneg|Hpos]; [lia|]. simpl.
    exists (z - 1)%Z.
    rewrite lookup_insert_ne by apply userKey_stockKey.
    rewrite lookup_insert_eq. repeat split. lia.
  - msimpl. by exists z.
  - done.
  - msimpl. by exists z.
Qed.

Lemma inv_iso_step S i w :
  (0 ≤ S < Js.INT64_MAX)%Z →
  (Z.of_nat (length (calls w)) < 2 ^ 63)%Z →
  inv S w → inv_iso S w → inv_iso S (step_at' i w).
Proof.
  intros HS HN (z0 & Hstock0 & Hcnt & _ & Hall) (z & Hstock & Hsum & Hnd & Hiso).
  rewrite Hstock in Hstock0. injection Hstock0 as E%string_of_Z_inj. subst z0.
  unfold step_at. destruct (calls w !! i) as [c|] eqn:Hi; [|by exists z].
  pose proof (proj1 (Forall_lookup _ _) Hall i c Hi) as Hok.
  pose proof (proj1 (Forall_lookup _ _) Hiso i c Hi) as Hisoc.
  destruct Hcnt as (C1 & C2 & C3 & C4 & C5).
  assert (Js.INT64_MIN < z < Js.INT64_MAX)%Z as Hz.
  { unfold Js.INT64_MIN, Js.INT64_MAX in *. lia. }
  pose proof (step_iso c (store w) z _ Hok Hisoc Hstock Hz) as Hspec.
  pose proof (step_params c (store w)) as (Hconn & _).
  pose proof (step_flags c (store w)) as Hflags.
  destruct (step _ _ c (store w)) as [c' s']. simpl in *.
  destruct Hspec as (z' & Hstock' & Hiso' & Hsum').
  pose proof (count_insert (returned 0) _ _ _ c' Hi) as E0.
  exists z'. simpl. split; [done|]. split.
  { unfold count_code in *.
    destruct (returned 0 c), (returned 0 c'); simpl in *; lia. }
  split.
  - rewrite list_fmap_insert, list_insert_id; [done|].
    by rewrite list_lookup_fmap, Hi, Hconn.
  - apply Forall_lookup. intros j cj Hj.
    destruct (decide (i = j)) as [->|Hne].
    + rewrite list_lookup_insert_eq in Hj by (by eapply lookup_lt_Some).
      by injection Hj as <-.
    + rewrite list_lookup_insert_ne in Hj by done.
      eapply call_iso_other; [|exact Hstock|exact Hstock'|
                              by eapply (proj1 (Forall_lookup _ _) Hiso)].
      apply Hflags. intros E. apply Hne.
      eapply (NoDup_lookup _ i j); [exact Hnd| |].
      * by rewrite list_lookup_fmap, Hi.
      * rewrite list_lookup_fmap, Hj. simpl. by rewrite E.
Qed.

Lemma inv_iso_run S sched : ∀ w,
  (0 ≤ S < Js.INT64_MAX)%Z →
  (Z.of_nat (length (calls w)) < 2 ^ 63)%Z →
  inv S w → inv_iso S w → inv_iso S (run' sched w).
Proof.
  induction sched as [|i sched IH]; intros w HS HN Hinv Hiso; [done|].
  simpl. apply IH; [done|by rewrite step_at_length|by apply inv_step|
                    by apply inv_iso_step].
Qed.

(** *** Every call returns *)

Abbreviation steps_left' := (steps_left MAX_RETRIES).

Lemma steps_left_finished c : steps_left' c = 0%nat ↔ finished c = true.
Proof.
  unfold steps_left, finished. destruct (c_pc c); split; (done || lia).
Qed.

(** A step of a call that has not returned takes one off its steps left. *)
Lemma step_steps_left c s :
  (steps_left' (step' c s).1 ≤ steps_left' c - 1)%nat.
Proof.
  unfold step, steps_left.
  destruct (c_pc c) as [tries|tries|tries stockStr existing|tries| |r] eqn:Hpc; msimpl.
  - destruct (Nat.ltb_spec tries MAX_RETRIES); simpl; lia.
  - destruct (window_closed _ _ _); simpl; lia.
  - destruct (Js.truthy existing); simpl; [lia|].
    destruct (_ || _); simpl; [lia|].
    destruct (multi_exec _ _ _) as [[rs|] s2]; simpl; [|lia].
    destruct (_ && _); simpl; lia.
  - lia.
  - destruct (multi_exec _ _ _) as [res s2]. simpl. lia.
  - rewrite Hpc. lia.
Qed.

Lemma step_at_steps_left i j w c :
  calls w !! j = Some c →
  ∃ c', calls (step_at' i w) !! j = Some c'
        ∧ (steps_left' c' ≤ steps_left' c - (if decide (i = j) then 1 else 0))%nat.
Proof.
  intros Hj. unfold step_at.
  destruct (calls w !! i) as [ci|] eqn:Hi.
  - pose proof (step_steps_left ci (store w)) as Hs.
    destruct (step _ _ ci (store w)) as [ci' s']. simpl in *.
    destruct (decide (i = j)) as [->|Hne].
    + exists ci'. rewrite list_lookup_insert_eq by (by eapply lookup_lt_Some).
      by simplify_eq.
    + exists c. rewrite list_lookup_insert_ne by done. split; [done|lia].
  - exists c. split; [done|].
    destruct (decide (i = j)) as [->|Hne]; [congruence|lia].
Qed.

(** After [k] steps of its own, whatever the other calls did in between, a
    call has [k] steps less left. *)
Lemma run_steps_left sched : ∀ w j c,
  calls w !! j = Some c →
  ∃ c', calls (run' sched w) !! j = Some c'
        ∧ (steps_left' c' ≤ steps_left' c - count_occ Nat.eq_dec sched j)%nat.
Proof.
  induction sched as [|i sched IH]; intros w j c Hj.
  { exists c. split; [done|simpl; lia]. }
  simpl. destruct (step_at_steps_left i j w c Hj) as (c1 & H1 & L1).
  destruct (IH _ _ _ H1) as (c2 & H2 & L2).
  exists c2. split; [done|].
  destruct (Nat.eq_dec i j) as [->|Hne].
  - rewrite decide_True in L1 by done. lia.
  - rewrite decide_False in L1 by done. lia.
Qed.

(** Every call that the schedule lets move [4 * MAX_RETRIES + 1] times has
    returned. *)
Lemma run_finished sched w :
  Forall (λ c, c_pc c = PLoop 0) (calls w) →
  (∀ i, (i < length (calls w))%nat →
        (4 * MAX_RETRIES + 1 ≤ count_occ Nat.eq_dec sched i)%nat) →
  Forall (λ c, finished c = true) (calls (run' sched w)).
Proof.
  intros Hinit Hfair. apply Forall_lookup. intros j c' Hj.
  assert (j < length (calls w))%nat as Hlt.
  { rewrite <- (run_length sched). by eapply lookup_lt_Some. }
  destruct (lookup_lt_is_Some_2 _ _ Hlt) as [c Hc].
  destruct (run_steps_left sched w j c Hc) as (c2 & Hc2 & Hle).
  rewrite Hj in Hc2. injection Hc2 as <-.
  apply steps_left_finished.
  pose proof (proj1 (Forall_lookup _ _) Hinit j c Hc) as Hpc.
  specialize (Hfair j Hlt).
  unfold steps_left in Hle at 2. rewrite Hpc in Hle. lia.
Qed.

(** *** From the start of the sale to the end of the calls *)

Lemma count_le_length (f : call → bool) cs : (count f cs ≤ length cs)%nat.
Proof.
  induction cs as [|c cs IH]; [done|].
  unfold count in *. simpl. destruct (f c); simpl; lia.
Qed.

Lemma count_none (f : call → bool) cs :
  Forall (λ c, f c = false) cs → count f cs = 0%nat.
Proof.
  induction 1 as [|c cs Hc _ IH]; [done|].
  unfold count in *. simpl. rewrite Hc, IH. done.
Qed.

Lemma count_all (f : call → bool) cs :
  Forall (λ c, f c = true) cs → count f cs = length cs.
Proof.
  induction 1 as [|c cs Hc _ IH]; [done|].
  unfold count in *. simpl. rewrite Hc, IH. done.
Qed.

Lemma count_exists (f : call → bool) cs :
  (0 < count f cs)%nat → ∃ c, c ∈ cs ∧ f c = true.
Proof.
  induction cs as [|c cs IH]; unfold count in *; simpl; [lia|].
  destruct (f c) eqn:Hf.
  - intros _. exists c. split; [left|done].
  - simpl. intros H. destruct (IH H) as (c' & Hin & Hc'). exists c'.
    split; [by right|done].
Qed.

Lemma inv_initial S w : (0 ≤ S)%Z → initial S w → inv S w.
Proof.
  intros HS (Hstock & Hnd & Hall). exists S. repeat split; try done.
  - unfold count_code. rewrite !count_none; [lia|..];
      (eapply Forall_impl; [exact Hall|]); intros c (Hpc & _);
      unfold rolling_back, returned; by rewrite Hpc.
  - unfold count_code. rewrite count_none; [lia|].
    eapply Forall_impl; [exact Hall|]. intros c (Hpc & _).
    unfold returned. by rewrite Hpc.
  - intros H. rewrite count_none in H; [lia|].
    eapply Forall_impl; [exact Hall|]. intros c (Hpc & _).
    unfold rolling_back. by rewrite Hpc.
  - unfold count_code. rewrite !count_none; [lia|..];
      (eapply Forall_impl; [exact Hall|]); intros c (Hpc & _);
      unfold rolling_back, returned; by rewrite Hpc.
  - rewrite count_all; [lia|].
    eapply Forall_impl; [exact Hall|]. intros c (Hpc & _).
    unfold undecided. by rewrite Hpc.
  - eapply Forall_impl; [exact Hall|]. intros c (Hpc & Hwin & Hrec).
    split; [done|]. by rewrite Hpc.
Qed.

Lemma inv_iso_initial S w :
  initial S w → NoDup (c_conn <$> calls w) → inv_iso S w.
Proof.
  intros (Hstock & _ & Hall) Hnd. exists S. repeat split; try done.
  - unfold count_code. rewrite count_none; [lia|].
    eapply Forall_impl; [exact Hall|]. intros c (Hpc & _).
    unfold returned. by rewrite Hpc.
  - eapply Forall_impl; [exact Hall|]. intros c (Hpc & _).
    unfold call_iso. by rewrite Hpc.
Qed.

(** When every call has returned under [call_ok], each has returned code 0,
    2 or 4. *)
Lemma count_finished m sold cs :
  Forall (call_ok m sold) cs →
  Forall (λ c, finished c = true) cs →
  (count_code 0 cs + count_code 2 cs + count_code 4 cs = length cs)%nat.
Proof.
  unfold count_code, count.
  induction cs as [|c cs IH]; intros Hok Hfin; [done|].
  apply Forall_cons in Hok as [[_ Hc] Hok]. apply Forall_cons in Hfin as [Hf Hfin].
  specialize (IH Hok Hfin). simpl.
  unfold finished, returned in *. destruct (c_pc c); try done.
  destruct Hc as [->|[[-> _]| ->]]; simpl; lia.
Qed.

(** C1, as the code has it. [N] calls for pairwise distinct buyers without
    receipts, each inside its sale window, run interleaved from a stock
    counter [S]. At every moment at most [min S N] calls have returned code 0.
    All calls have returned once each has moved [4 * MAX_RETRIES + 1] times.
    Once all calls have returned, each has returned code 0 (reserved), 2
    (sold out) or 4 (busy), and if none returned busy, exactly [min S N] are
    reserved and the others sold out. Where every call runs on a connection
    of its own, the stock counter is [S] minus the reserved units at every
    moment: at the end, 0 when [S <= N] and [S - N] otherwise, if no call
    returned busy. *)
Theorem no_oversell S w sched :
  (0 ≤ S < Js.INT64_MAX)%Z →
  (Z.of_nat (length (calls w)) < 2 ^ 63)%Z →
  initial S w →
  let w' := run' sched w in
  let N := Z.of_nat (length (calls w)) in
  let reserved := Z.of_nat (count_code 0 (calls w')) in
  let sold_out := Z.of_nat (count_code 2 (calls w')) in
  let busy := Z.of_nat (count_code 4 (calls w')) in
  (reserved ≤ Z.min S N)%Z
  ∧ ((∀ i, (i < length (calls w))%nat →
           (4 * MAX_RETRIES + 1 ≤ count_occ Nat.eq_dec sched i)%nat) →
     Forall (λ c, finished c = true) (calls w'))
  ∧ (Forall (λ c, finished c = true) (calls w') →
     (reserved + sold_out + busy = N)%Z
     ∧ (busy = 0%Z → reserved = Z.min S N ∧ sold_out = (N - Z.min S N)%Z))
  ∧ (NoDup (c_conn <$> calls w) →
     strs (store w') !! stockKey = Some (Js.string_of_Z (S - reserved))
     ∧ (Forall (λ c, finished c = true) (calls w') → busy = 0%Z →
        (S - reserved)%Z = if (S <=? N)%Z then 0%Z else (S - N)%Z)).
Proof.
  intros HS HN Hinit w' N reserved sold_out busy.
  pose proof (inv_run S sched w HS HN (inv_initial _ _ (proj1 HS) Hinit)) as Hinv.
  fold w' in Hinv.
  pose proof (count_le_length (returned 0) (calls w')) as Hle.
  assert (length (calls w') = length (calls w)) as Hlen by apply run_length.
  destruct Hinv as (z & Hstock & (C1 & C2 & C3 & C4 & C5) & Hnd & Hall).
  fold (count_code 0 (calls w')) in Hle.
  split; [subst reserved N; lia|].
  split.
  { apply run_finished. destruct Hinit as (_ & _ & Hinit).
    eapply Forall_impl; [exact Hinit|]. by intros c (Hpc & _). }
  assert (Forall (λ c, finished c = true) (calls w') →
          (reserved + sold_out + busy = N)%Z
          ∧ (busy = 0%Z → reserved = Z.min S N)) as Hend.
  { intros Hfin.
    pose proof (count_finished _ _ _ Hall Hfin) as Hsum.
    split; [subst reserved sold_out busy N; lia|].
    intros Hb. destruct (decide (count_code 2 (calls w') = 0)%nat) as [E|E].
    - subst reserved busy N. lia.
    - destruct (count_exists (returned 2) (calls w')) as (c & Hin & Hc);
        [unfold count_code in E; lia|].
      pose proof (proj1 (Forall_forall _ _) Hall c Hin) as [_ Hok].
      unfold returned in Hc. destruct (c_pc c) as [| | | | |r]; try done.
      destruct Hok as [->|[[_ Hsold]| ->]]; try done.
      unfold all_sold in Hsold. subst reserved busy N. lia. }
  split.
  { intros Hfin. destruct (Hend Hfin) as [Hsum Hmin].
    split; [done|]. intros Hb. specialize (Hmin Hb). split; [done|].
    subst reserved sold_out busy N. lia. }
  intros Hconn.
  pose proof (inv_iso_run S sched w HS HN (inv_initial _ _ (proj1 HS) Hinit)
                (inv_iso_initial _ _ Hinit Hconn)) as (z' & Hstock' & Hz' & _).
  fold w' in Hstock', Hz'. split.
  { rewrite Hstock'. do 2 f_equal. subst reserved. lia. }
  intros Hfin Hb. destruct (Hend Hfin) as [_ Hmin]. specialize (Hmin Hb).
  subst reserved N.
  destruct (Z.leb_spec S (Z.of_nat (length (calls w)))); lia.
Qed.

End Concurrent.

(** ** The statements on the sale of the tests *)

Section OnTheSale.

Import Sale.

Abbreviation NO := Sale.NumberOther.

(** C1 as the specification states it fails: of six calls for six units,
    launched together on six connections, five return code 0 and the sixth,
    whose transaction was rejected five times, returns code 4 (busy), not
    code 2; one unit is left. *)
Lemma busy_counterexample :
  let w := world_of 6 six_buyers in
  let w' := go busy_schedule w in
  initial 6 w
  ∧ NoDup (c_conn <$> calls w)
  ∧ Forall (λ c, finished c = true) (calls w')
  ∧ count_code 0 (calls w') = 5%nat
  ∧ count_code 2 (calls w') = 0%nat
  ∧ count_code 4 (calls w') = 1%nat
  ∧ strs (store w') !! stockKey = Some "1".
Proof.
  split; [|split; [|split]].
  - split; [reflexivity|]. split; [by apply (bool_decide_unpack _)|].
    repeat constructor.
  - by apply (bool_decide_unpack _).
  - vm_compute. repeat constructor.
  - vm_compute. done.
Qed.

(** C2 as the specification states it fails: the order identifier is not
    the timestamp followed by the buyer, there is a colon in between. *)
Lemma orderId_counterexample :
  let s := sale 5 in
  let '(r, s') := attemptPurchase NO MAX_RETRIES 0 "alice" 50 (Js.of_Z 0) (Js.of_Z 100) s in
  strs s !! userKey "alice" = None
  ∧ strs s !! stockKey = Some (Js.string_of_Z 5)
  ∧ window_closed 50 (Js.of_Z 0) (Js.of_Z 100) = false
  ∧ code r = 0%Z
  ∧ orderId r = Some "50:alice"
  ∧ orderId r ≠ Some (Js.string_of_Z 50 ++ "alice").
Proof. vm_compute. by repeat split. Qed.

(** C4 as the specification states it fails. Two calls start at time 50 in a
    window that ends at 100. The transaction of the first is rejected, and it
    comes to its second window check when the clock shows 200, after the end
    of the sale as the configuration in the store has it: the check passes
    all the same, on the time 50 the call started with, and the call goes on
    to reserve a unit. *)
Lemma stale_window_counterexample :
  let w := go [0; 0; 1; 1; 1; 0; 0; 0]%nat (world_of 5 ["alice"; "bob"]) in
  let clock := 200%Z in
  (c_pc <$> calls w !! 0%nat) = Some (PWindow 1)
  ∧ window_closed clock
      (Js.Number_undef NO (config (store w) !! "startsAt"))
      (Js.Number_undef NO (config (store w) !! "endsAt")) = true
  ∧ (c_pc <$> calls (go [0]%nat w) !! 0%nat) = Some (PRead 1 (Some "4") None)
  ∧ (c_pc <$> calls (go [0; 0]%nat w) !! 0%nat)
    = Some (PDone (Result 0 (Some "50:alice") None)).
Proof. vm_compute. by repeat split. Qed.

(** C7 as the specification states it fails: [sold] is a difference of
    doubles. A sale of [2^53 + 2] units of which one is sold has a stock of
    [2^53 + 1]; [Number] reads that stock as [2^53], and [getStatus] reports
    that two units are sold, where one is. *)
Lemma sold_rounded_counterexample :
  let s := Db {[ stockKey := "9007199254740993" ]}
              (<["initialStock" := "9007199254740994"]> (config (sale 0))) [] ∅ in
  config s !! "initialStock" = Some (Js.string_of_Z (2 ^ 53 + 2))
  ∧ strs s !! stockKey = Some (Js.string_of_Z (2 ^ 53 + 1))
  ∧ st_stock (getStatus NO 50 s).1 = Js.of_Z (2 ^ 53)
  ∧ st_sold (getStatus NO 50 s).1 = Js.of_Z 2
  ∧ st_sold (getStatus NO 50 s).1 ≠ Js.of_Z ((2 ^ 53 + 2) - (2 ^ 53 + 1)).
Proof. vm_compute. by repeat split. Qed.

(** C9 at the input on which the code fails it. Of ten requests on the pool
    of eight connections, the second (alice again, at time 60) and the tenth
    (carol, who holds a receipt) share connection 1. The second request
    watches and reads; the first reserves a unit for alice and is answered
    200 with the order identifier [50:alice], which flags connection 1; the
    request of carol watches on connection 1, finds the receipt of carol and
    unwatches, which takes the flag away; the transaction of the second
    request then commits unguarded: it is answered 200 as well, and the
    receipt of alice is written over with [60:alice]. *)
Lemma receipt_overwritten :
  let w := go [1; 1; 0; 0; 0]%nat ten_requests in
  let w' := go [9; 9; 9; 1]%nat w in
  (c_conn <$> calls w !! 1%nat) = Some 1%nat
  ∧ (c_conn <$> calls w !! 9%nat) = Some 1%nat
  ∧ (respond <$> (calls w !! 0%nat ≫= result_of))
    = Some (Http 200 (BPurchased (Some "50:alice")))
  ∧ strs (store w) !! userKey "alice" = Some "50:alice"
  ∧ (respond <$> (calls w' !! 9%nat ≫= result_of))
    = Some (Http 409 (BAlreadyPurchased (Some "40:carol")))
  ∧ (respond <$> (calls w' !! 1%nat ≫= result_of))
    = Some (Http 200 (BPurchased (Some "60:alice")))
  ∧ strs (store w') !! userKey "alice" = Some "60:alice"
  ∧ strs (store w') !! stockKey = Some "3".
Proof. vm_compute. by repeat split. Qed.

(** C8 at the input on which the code fails it. Of nine requests on the pool
    of eight connections the first and the ninth are by the same buyer and
    share connection 0. The first reserves the last unit and [doPurchase]
    answers it 200 with the order identifier; the transaction of the ninth
    commits unguarded and its rollback deletes the receipt; a lookup then
    answers that the buyer has not purchased. *)
Lemma lookup_after_rollback :
  let w := go [0; 0; 8; 8; 0; 8; 8]%nat (world_of 1 nine_requests) in
  (respond <$> (calls w !! 0%nat ≫= result_of))
  = Some (Http 200 (BPurchased (Some "50:alice")))
  ∧ (respond <$> (calls w !! 8%nat ≫= result_of)) = Some (Http 410 BSoldOut)
  ∧ (getPurchase (Some "alice") (store w)).1 = Http 200 (BLookup false None).
Proof. vm_compute. by repeat split. Qed.

Lemma no_oversell_witness :
  (0 ≤ 2 < Js.INT64_MAX)%Z
  ∧ (Z.of_nat (length (calls (world_of 2 three_buyers))) < 2 ^ 63)%Z
  ∧ initial 2 (world_of 2 three_buyers)
  ∧ (Z.of_nat (count_code 0 (calls (go in_turn (world_of 2 three_buyers))))
     ≤ Z.min 2 (Z.of_nat (length (calls (world_of 2 three_buyers)))))%Z.
Proof.
  assert (0 ≤ 2 < Js.INT64_MAX)%Z as H1 by (by vm_compute).
  assert (Z.of_nat (length (calls (world_of 2 three_buyers))) < 2 ^ 63)%Z
    as H2 by (by vm_compute).
  assert (initial 2 (world_of 2 three_buyers)) as H3.
  { split; [reflexivity|]. split; [by apply (bool_decide_unpack _)|].
    repeat constructor. }
  split; [exact H1|]. split; [exact H2|]. split; [exact H3|].
  exact (proj1 (no_oversell NO MAX_RETRIES 2 _ in_turn H1 H2 H3)).
Defined.

Lemma reservation_postcondition_witness :
  (0 < MAX_RETRIES)%nat
  ∧ Js.lt (Js.of_Z 50) (Js.of_Z 0) = false
  ∧ Js.gt (Js.of_Z 50) (Js.of_Z 100) = false
  ∧ strs (sale 5) !! userKey "alice" = None
  ∧ strs (sale 5) !! stockKey = Some (Js.string_of_Z 5)
  ∧ (1 ≤ 5 ≤ Js.INT64_MAX)%Z
  ∧ (let '(r, s') :=
       attemptPurchase NO MAX_RETRIES 0 "alice" 50 (Js.of_Z 0) (Js.of_Z 100) (sale 5) in
     r = Result 0 (Some "50:alice") None
     ∧ strs s' = <[userKey "alice" := "50:alice"]>
                   (<[stockKey := Js.string_of_Z (5 - 1)]> (strs (sale 5)))
     ∧ orders s' = OrderEntry "alice" 50 "50:alice" :: orders (sale 5)
     ∧ config s' = config (sale 5)).
Proof.
  assert (0 < MAX_RETRIES)%nat as H1 by (unfold MAX_RETRIES; lia).
  assert (Js.lt (Js.of_Z 50) (Js.of_Z 0) = false) as H2 by reflexivity.
  assert (Js.gt (Js.of_Z 50) (Js.of_Z 100) = false) as H3 by reflexivity.
  assert (strs (sale 5) !! userKey "alice" = None) as H4 by reflexivity.
  assert (strs (sale 5) !! stockKey = Some (Js.string_of_Z 5)) as H5 by reflexivity.
  assert (1 ≤ 5 ≤ Js.INT64_MAX)%Z as H6 by (by vm_compute).
  do 6 (split; [assumption|]).
  exact (proj1 (reservation_postcondition NO MAX_RETRIES 0 "alice" 50 _ _ (sale 5) 5
                  H1 H2 H3 H4 H5 H6) eq_refl).
Defined.

Lemma window_enforcement_witness :
  (0 < MAX_RETRIES)%nat
  ∧ (Js.lt (Js.of_Z 10) (Js.of_Z 100) = true ∨ Js.gt (Js.of_Z 10) (Js.of_Z 200) = true)
  ∧ (let '(r, s') :=
       attemptPurchase NO MAX_RETRIES 0 "alice" 10 (Js.of_Z 100) (Js.of_Z 200) (sale 5) in
     r = Result 3 None None ∧ same_data (sale 5) s').
Proof.
  assert (0 < MAX_RETRIES)%nat as H1 by (unfold MAX_RETRIES; lia).
  assert (Js.lt (Js.of_Z 10) (Js.of_Z 100) = true
          ∨ Js.gt (Js.of_Z 10) (Js.of_Z 200) = true) as H2 by (left; reflexivity).
  do 2 (split; [assumption|]).
  exact (window_enforcement NO MAX_RETRIES 0 "alice" 10 _ _ (sale 5) H1 H2).
Defined.

Lemma window_check_cached_witness :
  let w := world_of 5 ["alice"; "bob"] in
  let sched := [0; 0; 1; 1; 1; 0; 0; 0]%nat in
  let c := at_pc (start_call NO 0 50 "alice" (sale 5)) (PWindow 1) in
  calls w !! 0%nat = Some (start_call NO 0 50 "alice" (sale 5))
  ∧ calls (go sched w) !! 0%nat = Some c
  ∧ c_pc c = PWindow 1
  ∧ (c_pc (step NO MAX_RETRIES c (store (go sched w))).1 = PDone (Result 3 None None)
     ↔ window_closed 50
         (Js.Number_undef NO (config (sale 5) !! "startsAt"))
         (Js.Number_undef NO (config (sale 5) !! "endsAt")) = true).
Proof.
  intros w sched c.
  assert (calls w !! 0%nat = Some (start_call NO 0 50 "alice" (sale 5))) as H1
    by reflexivity.
  assert (calls (go sched w) !! 0%nat = Some c) as H2 by (by vm_compute).
  assert (c_pc c = PWindow 1) as H3 by reflexivity.
  do 3 (split; [assumption|]).
  exact (proj2 (proj2 (proj2
    (window_check_cached NO MAX_RETRIES sched w 0 0 50 "alice" (sale 5) c 1
       (store (go sched w)) H1 H2 H3)))).
Defined.

Lemma duplicate_rejection_witness :
  let s := sold_to "alice" "40:alice" (sale 4) in
  (0 < MAX_RETRIES)%nat
  ∧ Js.lt (Js.of_Z 50) (Js.of_Z 0) = false
  ∧ Js.gt (Js.of_Z 50) (Js.of_Z 100) = false
  ∧ strs s !! userKey "alice" = Some "40:alice"
  ∧ "40:alice" ≠ ""
  ∧ (let '(r, s') :=
       attemptPurchase NO MAX_RETRIES 0 "alice" 50 (Js.of_Z 0) (Js.of_Z 100) s in
     r = Result 1 (Some "40:alice") None ∧ same_data s s').
Proof.
  intros s.
  assert (0 < MAX_RETRIES)%nat as H1 by (unfold MAX_RETRIES; lia).
  assert (Js.lt (Js.of_Z 50) (Js.of_Z 0) = false) as H2 by reflexivity.
  assert (Js.gt (Js.of_Z 50) (Js.of_Z 100) = false) as H3 by reflexivity.
  assert (strs s !! userKey "alice" = Some "40:alice") as H4 by reflexivity.
  assert ("40:alice" ≠ "") as H5 by discriminate.
  do 5 (split; [assumption|]).
  exact (duplicate_rejection NO MAX_RETRIES 0 "alice" 50 _ _ s "40:alice"
           H1 H2 H3 H4 H5).
Defined.

Lemma sold_out_rejection_witness :
  (0 < MAX_RETRIES)%nat
  ∧ Js.lt (Js.of_Z 50) (Js.of_Z 0) = false
  ∧ Js.gt (Js.of_Z 50) (Js.of_Z 100) = false
  ∧ strs (sale 0) !! userKey "alice" = None
  ∧ stock_exhausted NO (strs (sale 0) !! stockKey)
  ∧ (let '(r, s') :=
       attemptPurchase NO MAX_RETRIES 0 "alice" 50 (Js.of_Z 0) (Js.of_Z 100) (sale 0) in
     r = Result 2 None None ∧ same_data (sale 0) s').
Proof.
  assert (0 < MAX_RETRIES)%nat as H1 by (unfold MAX_RETRIES; lia).
  assert (Js.lt (Js.of_Z 50) (Js.of_Z 0) = false) as H2 by reflexivity.
  assert (Js.gt (Js.of_Z 50) (Js.of_Z 100) = false) as H3 by reflexivity.
  assert (strs (sale 0) !! userKey "alice" = None) as H4 by reflexivity.
  assert (stock_exhausted NO (strs (sale 0) !! stockKey)) as H5
    by (right; reflexivity).
  do 5 (split; [assumption|]).
  exact (sold_out_rejection NO MAX_RETRIES 0 "alice" 50 _ _ (sale 0) H1 H2 H3 H4 H5).
Defined.

Lemma lookup_idempotent_witness :
  let os := [Lookup (Some " alice "); Status 60; Reserve 1 50 (Some "bob")] in
  (3 ≤ String.length (Js.trim " alice "))%nat
  ∧ strs (sale 5) !! userKey (Js.trim " alice ") = None
  ∧ no_purchase_by NO MAX_RETRIES (Js.trim " alice ") os (sale 5)
  ∧ (getPurchase (Some " alice ") (run_ops NO MAX_RETRIES os (sale 5))).1
    = Http 200 (BLookup false None).
Proof.
  intros os.
  assert (3 ≤ String.length (Js.trim " alice "))%nat as H1
    by (vm_compute; repeat constructor).
  assert (strs (sale 5) !! userKey (Js.trim " alice ") = None) as H2 by reflexivity.
  assert (no_purchase_by NO MAX_RETRIES (Js.trim " alice ") os (sale 5)) as H3.
  { repeat split. intros E. discriminate E. }
  do 3 (split; [assumption|]).
  exact (proj1 (proj2 (proj2 (lookup_idempotent NO MAX_RETRIES " alice " (sale 5) H1)))
           H2 os H3).
Defined.

Lemma receipt_permanence_witness :
  let s := sold_to "alice" "40:alice" (sale 4) in
  let os := [Reserve 0 50 (Some "alice"); Lookup (Some "alice"); Status 60;
             Reserve 1 70 (Some "bob")] in
  "40:alice" ≠ ""
  ∧ strs s !! userKey "alice" = Some "40:alice"
  ∧ strs (run_ops NO MAX_RETRIES os s) !! userKey "alice" = Some "40:alice".
Proof.
  intros s os.
  assert ("40:alice" ≠ "") as H1 by discriminate.
  assert (strs s !! userKey "alice" = Some "40:alice") as H2 by reflexivity.
  do 2 (split; [assumption|]).
  exact (receipt_permanence NO MAX_RETRIES "alice" "40:alice" os s H1 H2).
Defined.

(** Three buyers in turn for two units: two reserve, the third is sold
    out, no unit is left. *)
Example in_turn_outcome :
  let w' := go in_turn (world_of 2 three_buyers) in
  (c_pc <$> calls w')
  = [PDone (Result 0 (Some "50:buyer0") None);
     PDone (Result 0 (Some "50:buyer1") None);
     PDone (Result 2 None None)]
  ∧ strs (store w') !! stockKey = Some "0"
  ∧ orders (store w')
    = [OrderEntry "buyer1" 50 "50:buyer1"; OrderEntry "buyer0" 50 "50:buyer0"].
Proof. vm_compute. by repeat split. Qed.

(** A request that [doPurchase] answers 422 starts no call and takes no
    connection: of these three requests the third runs on connection 1. *)
Example launch_skips_invalid :
  (λ c, (c_conn c, c_userId c)) <$> launch NO POOL_SIZE 0 50 [" alice "; "b1"; "carol"] (sale 5)
  = [(0%nat, "alice"); (1%nat, "carol")].
Proof. reflexivity. Qed.

(** The guard rollback can be lost. Seventeen buyers ask for the one unit;
    on the pool of eight connections, requests 0, 8 and 16 share connection
    0 and requests 1 and 9 share connection 1. Request 0 reserves the unit.
    The transactions of requests 8 and 9, which read the stock before that,
    run unguarded and take the stock to -2. Request 16 has put a watch on
    connection 0 in between, so the rollback of request 8 is rejected, and
    nothing looks at that: every call returns, one with code 0 and sixteen
    with code 2, the stock counter is left at -1, and buyer 8, who was
    answered sold out, holds a receipt. *)
Example lost_rollback :
  let w := world_of 1 seventeen_buyers in
  let w' := go lost_rollback_schedule w in
  initial 1 w
  ∧ Forall (λ c, finished c = true) (calls w')
  ∧ count_code 0 (calls w') = 1%nat
  ∧ count_code 2 (calls w') = 16%nat
  ∧ strs (store w') !! stockKey = Some "-1"
  ∧ (respond <$> (calls w' !! 8%nat ≫= result_of)) = Some (Http 410 BSoldOut)
  ∧ (getPurchase (Some "buyer08") (store w')).1
    = Http 200 (BLookup true (Some "50:buyer08")).
Proof.
  split; [|split].
  - split; [reflexivity|]. split; [by apply (bool_decide_unpack _)|].
    repeat constructor.
  - vm_compute. repeat constructor.
  - vm_compute. done.
Qed.

(** With no iteration allowed every call is busy, whatever the window. *)
Example no_iteration :
  (attemptPurchase NO 0 0 "alice" 10 (Js.of_Z 100) (Js.of_Z 200) (sale 5)).1
  = Result 4 None (Some "contention").
Proof. reflexivity. Qed.

(** [getStatus] halfway through the sale of the tests. *)
Example status_ex :
  let r := (getStatus NO 50 (sold_to "alice" "40:alice" (Db {[ stockKey := "4" ]}
              (config (sale 5)) [] ∅))).1 in
  st_status r = active ∧ st_stock r = Js.of_Z 4 ∧ st_sold r = Js.of_Z 1.
Proof. vm_compute. by repeat split. Qed.

End OnTheSale.

Example trim_ex : Js.trim "  bob@x  " = "bob@x".
Proof. reflexivity. Qed.

Example string_of_Z_ex : Js.string_of_Z (-12) = "-12" ∧ Js.Z_of_string "007" = Some 7.
Proof. split; reflexivity. Qed.

Lemma string2ll_Some t z :
  string2ll t = Some z → t = Js.string_of_Z z ∧ Js.in_int64 z = true.
Proof.
  unfold string2ll. destruct (Js.Z_of_string t) as [z'|]; [|done].
  destruct (String.eqb_spec (Js.string_of_Z z') t) as [E|E]; simpl; [|done].
  destruct (Js.in_int64 z') eqn:Hz; [|done]. intros [= <-]. done.
Qed.

Lemma Number_zero NO : Js.Number NO "0" = Js.of_Z 0.
Proof. apply (Number_of_Z NO 0). reflexivity. Qed.

Section Alone.

Variable NumberOther : string → Js.number.
Variable MAX_RETRIES : nat.

Abbreviation attempt_loop' := (attempt_loop NumberOther).
Abbreviation doPurchase' := (doPurchase NumberOther MAX_RETRIES).
Abbreviation run_ops' := (run_ops NumberOther MAX_RETRIES).
Abbreviation run_op' := (run_op NumberOther MAX_RETRIES).

(** The purchase transaction on a connection that is not flagged, after a
    stock check that passed: the receipt and the log entry are written; the
    counter goes down by one where it holds an integer, and stays as it is
    where DECR fails. The reply is never a negative number. *)
Lemma purchase_tx_checked conn uk oid e s :
  uk ≠ stockKey →
  dirty (getconn s conn) = false →
  (negb (Js.isFinite (Js.Number NumberOther (Js.or_str (strs s !! stockKey) "0")))
   || Js.le (Js.Number NumberOther (Js.or_str (strs s !! stockKey) "0")) (Js.of_Z 0)) = false →
  let '(res, s') := multi_exec conn [DECR stockKey; SET uk oid; LPUSH_orders e] s in
  ∃ rs, res = Some rs
    ∧ (Js.isFinite (Number_reply rs) && Js.lt (Number_reply rs) (Js.of_Z 0)) = false
    ∧ config s' = config s
    ∧ orders s' = e :: orders s
    ∧ strs s' !! uk = Some oid
    ∧ (∀ k, k ≠ stockKey → k ≠ uk → strs s' !! k = strs s !! k)
    ∧ (∀ z, strs s !! stockKey = Some (Js.string_of_Z z) → Js.in_int64 z = true →
         (1 ≤ z)%Z ∧ strs s' !! stockKey = Some (Js.string_of_Z (z - 1)))
    ∧ (∀ t, strs s !! stockKey = Some t → string2ll t = None →
         strs s' !! stockKey = Some t).
Proof.
  intros Hne Hclean Hcheck. unfold multi_exec. rewrite Hclean.
  unfold exec_cmds, exec_cmd, incrby. simpl.
  destruct (strs s !! stockKey) as [t|] eqn:Hstock; simpl in Hcheck.
  2:{ rewrite Number_zero, le_of_Z in Hcheck. done. }
  destruct (String.eqb_spec t "") as [->|Ht].
  { rewrite Number_zero, le_of_Z in Hcheck. done. }
  destruct (string2ll t) as [z|] eqn:Hll.
  - apply string2ll_Some in Hll as [-> Hz].
    rewrite (Number_of_Z _ _ Hz), (isFinite_nearest _ Hz), (le_nearest_0 _ Hz) in Hcheck.
    simpl in Hcheck. apply Z.leb_gt in Hcheck.
    assert (Js.in_int64 (z + -1) = true) as Hz1.
    { apply in_int64_spec. apply in_int64_spec in Hz.
      unfold Js.INT64_MIN, Js.INT64_MAX in *. lia. }
    rewrite Hz1.
    simpl. eexists. split; [done|]. simpl.
    rewrite (isFinite_nearest _ Hz1), (lt_nearest_0 _ Hz1).
    split; [apply Z.ltb_ge; lia|].
    do 2 (split; [done|]). split; [by rewrite lookup_insert_eq|].
    split; [intros k Hk1 Hk2; by rewrite !lookup_insert_ne|].
    split.
    + intros z' [= E%string_of_Z_inj] _. subst z'. split; [lia|].
      rewrite lookup_insert_ne by done. by rewrite lookup_insert_eq.
    + intros t' [= <-]. by rewrite string2ll_of_Z.
  - simpl. eexists. split; [done|]. simpl. split; [done|].
    do 2 (split; [done|]). split; [by rewrite lookup_insert_eq|].
    split; [intros k Hk1 Hk2; by rewrite !lookup_insert_ne|].
    split.
    + intros z' [= ->] Hz'. by rewrite string2ll_of_Z in Hll.
    + intros t' [= <-] _. by rewrite lookup_insert_ne.
Qed.

(** A call of [attemptPurchase] that runs undisturbed, whatever the store
    holds: the guard rollback never runs. A result other than code 0 leaves
    the data as it was; code 0 means that the window was open and the buyer
    had no receipt, and the receipt and the log entry are written. *)
Lemma attempt_loop_alone conn userId now startsAt endsAt n s :
  let '(r, s') := attempt_loop' conn userId now startsAt endsAt n s in
  let orderId := Js.string_of_Z now ++ ":" ++ userId in
  getconn s' conn = fresh
  ∧ (code r ≠ 0%Z → same_data s s')
  ∧ (code r = 0%Z →
       r = Result 0 (Some orderId) None
       ∧ window_closed now startsAt endsAt = false
       ∧ Js.truthy (strs s !! userKey userId) = false
       ∧ config s' = config s
       ∧ orders s' = OrderEntry userId now orderId :: orders s
       ∧ strs s' !! userKey userId = Some orderId
       ∧ (∀ k, k ≠ stockKey → k ≠ userKey userId → strs s' !! k = strs s !! k)
       ∧ (∀ z, strs s !! stockKey = Some (Js.string_of_Z z) → Js.in_int64 z = true →
            (1 ≤ z)%Z ∧ strs s' !! stockKey = Some (Js.string_of_Z (z - 1)))
       ∧ (∀ t, strs s !! stockKey = Some t → string2ll t = None →
            strs s' !! stockKey = Some t)).
Proof.
  revert s. induction n as [|n IH]; intros s; simpl; msimpl.
  { rewrite getconn_insert_eq. by repeat split. }
  destruct (window_closed now startsAt endsAt) eqn:Hwin; simpl.
  { rewrite getconn_insert_eq. by repeat split. }
  destruct (Js.truthy (strs s !! userKey userId)) eqn:Hex; simpl.
  { rewrite getconn_insert_eq. by repeat split. }
  destruct (_ || _) eqn:Hcheck; simpl.
  { rewrite getconn_insert_eq. by repeat split. }
  match goal with |- context [multi_exec conn ?xs ?s1] => set (s1' := s1) end.
  destruct (dirty (getconn s1' conn)) eqn:Hd.
  - unfold multi_exec. rewrite Hd. simpl.
    specialize (IH (set_conns <[conn:=fresh]> (set_conns <[conn:=fresh]> s1'))).
    destruct (attempt_loop _ _ _ _ _ _ _ _) as [r s']. simpl in *.
    destruct IH as (IH1 & IH2 & IH3). split; [done|]. split; [exact IH2|].
    intros E. destruct (IH3 E) as (H1 & _ & _ & H4).
    do 3 (split; [done|]). exact H4.
  - pose proof (purchase_tx_checked conn (userKey userId)
      (Js.string_of_Z now ++ ":" ++ userId)
      (OrderEntry userId now (Js.string_of_Z now ++ ":" ++ userId))
      s1' (userKey_stockKey userId) Hd Hcheck) as Htx.
    pose proof (purchase_tx_effect conn (userKey userId)
      (Js.string_of_Z now ++ ":" ++ userId)
      (OrderEntry userId now (Js.string_of_Z now ++ ":" ++ userId))
      s1' (userKey_stockKey userId)) as Hfx.
    destruct (multi_exec conn _ s1') as [res s2].
    destruct Htx as (rs & -> & Hrs & Hc & Ho & Hu & Hk & Hz & Ht).
    destruct Hfx as (_ & Hfresh & _).
    rewrite Hrs. simpl. split; [done|].
    split; [done|]. intros _. clear Hd. subst s1'. simpl in *.
    do 7 (split; [done|]). split; [exact Hz|exact Ht].
Qed.

(** The same for a purchase request. *)
Lemma doPurchase_alone conn clock body_userId s :
  let '(h, s') := doPurchase' conn clock body_userId s in
  let u := Js.trim (Js.or_str body_userId "") in
  let oid := Js.string_of_Z clock ++ ":" ++ u in
  (http_status h ≠ 200%Z → same_data s s')
  ∧ (http_status h = 200%Z →
       h = Http 200 (BPurchased (Some oid))
       ∧ (3 ≤ String.length u)%nat
       ∧ window_closed clock (Js.Number_undef NumberOther (config s !! "startsAt"))
           (Js.Number_undef NumberOther (config s !! "endsAt")) = false
       ∧ Js.truthy (strs s !! userKey u) = false
       ∧ config s' = config s
       ∧ orders s' = OrderEntry u clock oid :: orders s
       ∧ strs s' !! userKey u = Some oid
       ∧ (∀ k, k ≠ stockKey → k ≠ userKey u → strs s' !! k = strs s !! k)
       ∧ (∀ z, strs s !! stockKey = Some (Js.string_of_Z z) → Js.in_int64 z = true →
            (1 ≤ z)%Z ∧ strs s' !! stockKey = Some (Js.string_of_Z (z - 1)))
       ∧ (∀ t, strs s !! stockKey = Some t → string2ll t = None →
            strs s' !! stockKey = Some t)).
Proof.
  unfold doPurchase. destruct (_ || _) eqn:Hvalid; simpl.
  { split; [done|]. intros [=]. }
  msimpl. unfold attemptPurchase.
  pose proof (attempt_loop_alone conn (Js.trim (Js.or_str body_userId "")) clock
    (Js.Number_undef NumberOther (config s !! "startsAt"))
    (Js.Number_undef NumberOther (config s !! "endsAt")) MAX_RETRIES s) as H.
  destruct (attempt_loop _ _ _ _ _ _ _ s) as [r s']. simpl in *.
  destruct H as (_ & H2 & H3). split.
  - intros E. apply H2. by rewrite <- respond_200.
  - intros E%respond_200. destruct (H3 E) as (-> & H4).
    split; [done|]. split; [|exact H4].
    apply orb_false_iff in Hvalid as [_ Hlen]. by apply Nat.ltb_ge in Hlen.
Qed.

Lemma run_op_config o s : config (run_op' o s) = config s.
Proof.
  destruct o as [conn clock body_userId|userId|clock]; simpl.
  - pose proof (doPurchase_alone conn clock body_userId s) as H.
    destruct (doPurchase _ _ _ _ _ s) as [h s']. simpl.
    destruct H as [H1 H2].
    destruct (decide (http_status h = 200%Z)) as [E|E].
    + by destruct (H2 E) as (_ & _ & _ & _ & ? & _).
    + by destruct (H1 E) as (_ & _ & ?).
  - by rewrite getPurchase_store.
  - done.
Qed.

Lemma run_ops_config os : ∀ s, config (run_ops' os s) = config s.
Proof.
  induction os as [|o os IH]; intros s; [done|].
  simpl. rewrite IH. apply run_op_config.
Qed.

(** X1. A purchase request that runs undisturbed never runs the guard
    rollback, whatever the store holds. Answered anything but 200, it leaves
    the stock counter, the receipts, the order log and the configuration as
    they were. Answered 200, it carries the order identifier made of the
    clock and the trimmed buyer; the buyer is valid, had no receipt and the
    window was open; the receipt is written, the order log has one more
    entry, no other buyer's receipt changed, and a stock counter that held
    the integer [z] holds [z - 1], with [z >= 1]. *)
Theorem purchase_alone conn clock body_userId s :
  let '(h, s') := doPurchase' conn clock body_userId s in
  let u := Js.trim (Js.or_str body_userId "") in
  let oid := Js.string_of_Z clock ++ ":" ++ u in
  (http_status h ≠ 200%Z → same_data s s')
  ∧ (http_status h = 200%Z →
       h = Http 200 (BPurchased (Some oid))
       ∧ (3 ≤ String.length u)%nat
       ∧ window_closed clock (Js.Number_undef NumberOther (config s !! "startsAt"))
           (Js.Number_undef NumberOther (config s !! "endsAt")) = false
       ∧ Js.truthy (strs s !! userKey u) = false
       ∧ config s' = config s
       ∧ orders s' = OrderEntry u clock oid :: orders s
       ∧ strs s' !! userKey u = Some oid
       ∧ (∀ k, k ≠ stockKey → k ≠ userKey u → strs s' !! k = strs s !! k)
       ∧ (∀ z, strs s !! stockKey = Some (Js.string_of_Z z) → Js.in_int64 z = true →
            (1 ≤ z)%Z ∧ strs s' !! stockKey = Some (Js.string_of_Z (z - 1)))).
Proof.
  pose proof (doPurchase_alone conn clock body_userId s) as H.
  destruct (doPurchase _ _ _ _ _ s) as [h s']. simpl in *.
  destruct H as [H1 H2]. split; [done|].
  intros E. destruct (H2 E) as (?&?&?&?&?&?&?&?&?&?).
  do 8 (split; [done|]). done.
Qed.

(** Operations that run one after the other take one unit from the stock
    counter for every purchase answered 200. *)
Lemma run_ops_accounting os : ∀ s z,
  strs s !! stockKey = Some (Js.string_of_Z z) →
  (0 ≤ z ≤ Js.INT64_MAX)%Z →
  let s' := run_ops' os s in
  let k := purchased NumberOther MAX_RETRIES os s in
  (Z.of_nat k ≤ z)%Z
  ∧ strs s' !! stockKey = Some (Js.string_of_Z (z - Z.of_nat k))
  ∧ length (orders s') = (length (orders s) + k)%nat
  ∧ config s' = config s.
Proof.
  induction os as [|o os IH]; intros s z Hstock Hz; simpl.
  { rewrite Z.sub_0_r, Nat.add_0_r. split; [lia|done]. }
  assert (Js.in_int64 z = true) as Hz64.
  { apply in_int64_spec. unfold Js.INT64_MIN, Js.INT64_MAX in *. lia. }
  destruct o as [conn clock body_userId|userId|clock]; simpl.
  - pose proof (doPurchase_alone conn clock body_userId s) as H.
    destruct (doPurchase _ _ _ _ _ s) as [h s1]. simpl in *.
    destruct H as [H1 H2].
    destruct (Z.eqb_spec (http_status h) 200) as [E|E].
    + destruct (H2 E) as (_ & _ & _ & _ & Hc & Ho & _ & _ & Hzz & _).
      destruct (Hzz z Hstock Hz64) as [Hz1 Hstock1].
      destruct (IH s1 (z - 1)%Z Hstock1) as (I1 & I2 & I3 & I4); [lia|].
      split; [lia|]. split; [rewrite I2; do 2 f_equal; lia|].
      split; [rewrite I3, Ho; simpl; lia|]. congruence.
    + destruct (H1 E) as (Hs & Ho & Hc).
      rewrite <- Hs in Hstock.
      destruct (IH s1 z Hstock Hz) as (I1 & I2 & I3 & I4).
      split; [lia|]. split; [rewrite I2; do 2 f_equal; lia|].
      split; [rewrite I3, Ho; simpl; lia|]. congruence.
  - rewrite getPurchase_store. apply IH; done.
  - apply IH; done.
Qed.

(** X2. Purchases, lookups and status requests that run one after the
    other from a stock counter that holds the integer [z >= 0]: the counter
    is [z] minus the number of purchases answered 200, which is at most [z];
    the order log has grown by one entry for each of them; the configuration
    is as it was. *)
Theorem sequential_accounting os s z :
  strs s !! stockKey = Some (Js.string_of_Z z) →
  (0 ≤ z ≤ Js.INT64_MAX)%Z →
  let s' := run_ops' os s in
  let k := purchased NumberOther MAX_RETRIES os s in
  (Z.of_nat k ≤ z)%Z
  ∧ strs s' !! stockKey = Some (Js.string_of_Z (z - Z.of_nat k))
  ∧ length (orders s') = (length (orders s) + k)%nat
  ∧ config s' = config s.
Proof. apply run_ops_accounting. Qed.

(** One purchase by a valid buyer without a receipt, inside the window, on
    a connection that is not flagged and a stock that passes the check, is
    answered 200. *)
Lemma doPurchase_200 conn clock userId s :
  (0 < MAX_RETRIES)%nat →
  (3 ≤ String.length (Js.trim userId))%nat →
  window_closed clock (Js.Number_undef NumberOther (config s !! "startsAt"))
    (Js.Number_undef NumberOther (config s !! "endsAt")) = false →
  Js.truthy (strs s !! userKey (Js.trim userId)) = false →
  dirty (getconn s conn) = false →
  (negb (Js.isFinite (Js.Number NumberOther (Js.or_str (strs s !! stockKey) "0")))
   || Js.le (Js.Number NumberOther (Js.or_str (strs s !! stockKey) "0")) (Js.of_Z 0)) = false →
  http_status (doPurchase' conn clock (Some userId) s).1 = 200%Z.
Proof.
  intros Hmax Hvalid Hwin Hrec Hclean Hcheck.
  destruct (trim_valid _ Hvalid) as (_ & Ho & Hl).
  unfold doPurchase. rewrite Ho, Hl.
  assert (String.eqb (Js.trim userId) "" = false) as ->.
  { apply String.eqb_neq. intros E. rewrite E in Hvalid. simpl in Hvalid. lia. }
  simpl. msimpl. unfold attemptPurchase.
  destruct MAX_RETRIES as [|n]; [lia|]. simpl. msimpl.
  rewrite Hwin. simpl. rewrite Hrec. simpl. rewrite Hcheck. simpl.
  match goal with |- context [multi_exec conn ?xs ?s1] =>
    pose proof (purchase_tx_checked conn (userKey (Js.trim userId))
      (Js.string_of_Z clock ++ ":" ++ Js.trim userId)
      (OrderEntry (Js.trim userId) clock (Js.string_of_Z clock ++ ":" ++ Js.trim userId))
      s1 (userKey_stockKey _)) as Htx;
    destruct (multi_exec conn xs s1) as [res s2]
  end.
  rewrite getconn_insert_eq in Htx. simpl in Htx.
  destruct (Htx Hclean Hcheck) as (rs & -> & Hrs & _).
  rewrite Hrs. done.
Qed.

(** X3. The stock check reads the counter with [Number], the transaction
    decrements it with DECR, and the two disagree on texts that are numbers
    to JavaScript and no integers to Redis (a leading zero, a fraction, an
    exponent). On such a counter DECR fails inside the transaction, the
    failure is not looked at, and the purchase is answered 200: whatever
    operations run, the counter never changes, and every valid buyer
    without a receipt who asks inside the window is served. Such a sale
    never sells out. *)
Theorem stock_not_integer os s t :
  strs s !! stockKey = Some t →
  string2ll t = None →
  Js.isFinite (Js.Number NumberOther t) = true →
  Js.le (Js.Number NumberOther t) (Js.of_Z 0) = false →
  (0 < MAX_RETRIES)%nat →
  let s' := run_ops' os s in
  strs s' !! stockKey = Some t
  ∧ ∀ conn clock userId,
      (3 ≤ String.length (Js.trim userId))%nat →
      window_closed clock (Js.Number_undef NumberOther (config s !! "startsAt"))
        (Js.Number_undef NumberOther (config s !! "endsAt")) = false →
      Js.truthy (strs s' !! userKey (Js.trim userId)) = false →
      dirty (getconn s' conn) = false →
      http_status (doPurchase' conn clock (Some userId) s').1 = 200%Z
      ∧ strs (doPurchase' conn clock (Some userId) s').2 !! stockKey = Some t.
Proof.
  intros Hstock Hll Hfin Hle Hmax s'.
  assert (strs s' !! stockKey = Some t) as Hstock'.
  { subst s'. revert s Hstock. induction os as [|o os IH]; intros s Hstock; [done|].
    simpl. apply IH.
    destruct o as [conn clock body_userId|userId|clock]; simpl.
    - pose proof (doPurchase_alone conn clock body_userId s) as H.
      destruct (doPurchase _ _ _ _ _ s) as [h s1]. simpl.
      destruct H as [H1 H2].
      destruct (decide (http_status h = 200%Z)) as [E|E].
      + destruct (H2 E) as (_ & _ & _ & _ & _ & _ & _ & _ & _ & Ht). by apply Ht.
      + destruct (H1 E) as (-> & _). done.
    - by rewrite getPurchase_store.
    - done. }
  split; [done|]. intros conn clock userId Hvalid Hwin Hrec Hclean.
  assert (t ≠ "") as Hne.
  { intros ->. unfold Js.Number in Hle. simpl in Hle. by rewrite le_of_Z in Hle. }
  assert (http_status (doPurchase' conn clock (Some userId) s').1 = 200%Z) as H200.
  { apply doPurchase_200; try done.
    - subst s'. by rewrite run_ops_config.
    - rewrite Hstock'. simpl. destruct (String.eqb_spec t ""); [done|].
      by rewrite Hfin, Hle. }
  split; [done|].
  pose proof (doPurchase_alone conn clock (Some userId) s') as H.
  destruct (doPurchase _ _ _ _ _ s') as [h s1]. simpl in *.
  destruct H as [_ H2].
  destruct (H2 H200) as (_ & _ & _ & _ & _ & _ & _ & _ & _ & Ht). by apply Ht.
Qed.

(** X4. Purchases are idempotent by buyer. Once a purchase of a buyer was
    answered 200 with an order identifier, and whatever operations ran in
    between one after the other, a later purchase request of the same buyer
    (the same identifier after trimming) inside the window is answered 409
    with that order identifier, and outside the window 403; either way the
    stock counter, the receipts and the order log are as before the
    request. *)
Theorem repeat_purchase conn clock userId s oid os conn' clock' userId' :
  (0 < MAX_RETRIES)%nat →
  (doPurchase' conn clock (Some userId) s).1 = Http 200 (BPurchased oid) →
  Js.trim userId' = Js.trim userId →
  let s1 := run_ops' os (doPurchase' conn clock (Some userId) s).2 in
  let '(h, s2) := doPurchase' conn' clock' (Some userId') s1 in
  same_data s1 s2
  ∧ h = if window_closed clock' (Js.Number_undef NumberOther (config s !! "startsAt"))
             (Js.Number_undef NumberOther (config s !! "endsAt"))
        then Http 403 BNotActive
        else Http 409 (BAlreadyPurchased oid).
Proof.
  intros Hmax E Htrim s1.
  pose proof (doPurchase_alone conn clock (Some userId) s) as H.
  assert (config s1 = config s) as Hcfg.
  { subst s1. rewrite run_ops_config.
    destruct (doPurchase _ _ _ _ _ s) as [h s0]. simpl in *.
    destruct H as [_ H2]. subst h. by destruct (H2 eq_refl) as (_ & _ & _ & _ & ? & _). }
  assert (∃ v, oid = Some v ∧ v ≠ "" ∧ strs s1 !! userKey (Js.trim userId) = Some v
               ∧ (3 ≤ String.length (Js.trim userId))%nat)
    as (v & -> & Hv & Hrec & Hvalid).
  { subst s1. destruct (doPurchase _ _ _ _ _ s) as [h s0]. simpl in *.
    destruct H as [_ H2]. subst h.
    destruct (H2 eq_refl) as ([= ->] & Hvalid & _ & _ & _ & _ & Hrec & _).
    assert (Js.or_str (Some userId) "" = userId) as Ho.
    { apply trim_valid. simpl in Hvalid.
      destruct (String.eqb_spec userId ""); [by subst|done]. }
    simpl in Ho. rewrite Ho in *.
    eexists. split; [done|]. split; [apply orderId_nonempty|].
    split; [|done]. apply run_ops_receipt; [done|apply orderId_nonempty]. }
  rewrite <- Htrim in Hrec, Hvalid.
  destruct (trim_valid _ Hvalid) as (_ & Ho & Hl).
  unfold doPurchase. rewrite Ho, Hl.
  assert (String.eqb (Js.trim userId') "" = false) as ->.
  { apply String.eqb_neq. intros E'. rewrite E' in Hvalid. simpl in Hvalid. lia. }
  simpl. msimpl. unfold attemptPurchase.
  destruct MAX_RETRIES as [|n]; [lia|]. simpl. msimpl.
  rewrite Hcfg.
  destruct (window_closed clock' _ _); simpl; [done|].
  rewrite Hrec. simpl. destruct (String.eqb_spec v ""); [done|]. simpl. done.
Qed.

(** X5. Who the buyer is. Both handlers trim the identifier they are given
    and reject it with status 422, leaving the store as it is, exactly when
    fewer than three characters remain (or none was given); identifiers that
    are equal after trimming are the same buyer to both handlers. *)
Theorem buyer_identity conn clock s :
  (∀ v, let u := Js.trim (Js.or_str v "") in
     ((String.length u < 3)%nat ↔
        http_status (doPurchase' conn clock v s).1 = 422%Z)
     ∧ ((String.length u < 3)%nat ↔ http_status (getPurchase v s).1 = 422%Z)
     ∧ ((String.length u < 3)%nat →
        doPurchase' conn clock v s = (Http 422 (BError "invalid_user"), s)
        ∧ getPurchase v s = (Http 422 (BError "invalid_user"), s)))
  ∧ (∀ a b, Js.trim a = Js.trim b →
       doPurchase' conn clock (Some a) s = doPurchase' conn clock (Some b) s
       ∧ getPurchase (Some a) s = getPurchase (Some b) s).
Proof.
  assert (∀ v, String.eqb (Js.trim (Js.or_str v "")) ""
               || (String.length (Js.trim (Js.or_str v "")) <? 3)%nat
               = (String.length (Js.trim (Js.or_str v "")) <? 3)%nat) as Hd.
  { intros v. destruct (String.eqb_spec (Js.trim (Js.or_str v "")) "") as [->|]; done. }
  assert (∀ v, negb (Js.truthy v)
               || (String.length (Js.trim (Js.or_str v "")) <? 3)%nat
               = (String.length (Js.trim (Js.or_str v "")) <? 3)%nat) as Hg.
  { intros [v|]; simpl; [|done]. destruct (String.eqb_spec v "") as [->|]; done. }
  split.
  - intros v u. subst u.
    unfold doPurchase, getPurchase in *. rewrite Hd, Hg in *.
    destruct (Nat.ltb_spec (String.length (Js.trim (Js.or_str v ""))) 3) as [Hlt|Hge].
    + simpl. by repeat split.
    + msimpl. destruct (attemptPurchase _ _ _ _ _ _ _ s) as [r s']. simpl.
      split; [split; [lia|]|split; [split; [lia|done]|lia]].
      unfold respond. by repeat case_match.
  - intros a b E.
    assert (Js.trim (Js.or_str (Some a) "") = Js.trim (Js.or_str (Some b) "")) as Ht.
    { simpl. destruct (String.eqb_spec a "") as [->|], (String.eqb_spec b "") as [->|];
        try done. }
    unfold doPurchase, getPurchase. rewrite !Hg, Ht. done.
Qed.

End Alone.

Section Pool.

Variable NumberOther : string → Js.number.
Variable MAX_RETRIES : nat.

Abbreviation step' := (step NumberOther MAX_RETRIES).
Abbreviation run' := (run NumberOther MAX_RETRIES).
Abbreviation step_at' := (step_at NumberOther MAX_RETRIES).





End Pool.

Section Own.

Variable NumberOther : string → Js.number.
Variable MAX_RETRIES : nat.

Abbreviation step' := (step NumberOther MAX_RETRIES).
Abbreviation run' := (run NumberOther MAX_RETRIES).
Abbreviation step_at' := (step_at NumberOther MAX_RETRIES).

Lemma oid_of_nonempty c : oid_of c ≠ "".
Proof. apply orderId_nonempty. Qed.

Lemma step_finished c s : finished c = true → step' c s = (c, s).
Proof. unfold finished, step. by destruct (c_pc c). Qed.

(** A step after which the call has returned code 0 is the step of a call
    that had returned before, or it wrote the receipt. *)
Lemma step_reserved c s :
  returned 0 (step' c s).1 = true →
  finished c = true ∨ reserved_ok (step' c s).2 (step' c s).1.
Proof.
  destruct c as [conn u now sA eA p]. unfold step, reserved_ok, oid_of. simpl.
  destruct p as [tries|tries|tries stockStr existing|tries| |r]; msimpl.
  - by destruct (_ <? _)%nat.
  - by destruct (window_closed _ _ _).
  - destruct (Js.truthy existing); [done|]. destruct (_ || _); [done|]. simpl.
    pose proof (purchase_tx_effect conn (userKey u)
      (Js.string_of_Z now ++ ":" ++ u)
      (OrderEntry u now (Js.string_of_Z now ++ ":" ++ u))
      s (userKey_stockKey _)) as Htx.
    destruct (multi_exec _ _ _) as [[rs|] s2]; simpl in *; [|done].
    destruct Htx as (_ & _ & _ & Hu & _).
    destruct (_ && _); simpl; [done|]. right. done.
  - done.
  - by destruct (multi_exec _ _ _).
  - by left.
Qed.

Lemma reserved_ok_step i w :
  NoDup (c_userId <$> calls w) →
  Forall (reserved_ok (store w)) (calls w) →
  Forall (reserved_ok (store (step_at' i w))) (calls (step_at' i w)).
Proof.
  intros Hnd Hall. unfold step_at.
  destruct (calls w !! i) as [c|] eqn:Hi; [|done].
  pose proof (step_reserved c (store w)) as Hres.
  pose proof (step_finished c (store w)) as Hfin.
  pose proof (step_params NumberOther MAX_RETRIES c (store w)) as (_ & Hu & Hn & _).
  pose proof (step_effect NumberOther MAX_RETRIES c (store w)) as Heff.
  destruct (step _ _ c (store w)) as [c' s']. simpl in *.
  apply Forall_lookup. intros j cj Hj.
  destruct (decide (i = j)) as [->|Hne].
  - rewrite list_lookup_insert_eq in Hj by (by eapply lookup_lt_Some).
    injection Hj as <-. intros Hret.
    destruct (Hres Hret) as [Hf|Hok]; [|by apply Hok].
    injection (Hfin Hf) as -> ->.
    by apply (proj1 (Forall_lookup _ _) Hall j c Hi).
  - rewrite list_lookup_insert_ne in Hj by done.
    intros Hret.
    destruct (proj1 (Forall_lookup _ _) Hall j cj Hj Hret) as [Hpc Hrec].
    split; [done|]. rewrite Heff; [done|apply userKey_stockKey|].
    intros E%userKey_inj. apply Hne.
    eapply (NoDup_lookup _ i j); [exact Hnd| |].
    + by rewrite list_lookup_fmap, Hi.
    + rewrite list_lookup_fmap, Hj. simpl. by rewrite E.
Qed.

Lemma step_at_userIds i w : c_userId <$> calls (step_at' i w) = c_userId <$> calls w.
Proof.
  unfold step_at. destruct (calls w !! i) as [c|] eqn:Hi; [|done].
  pose proof (step_params NumberOther MAX_RETRIES c (store w)) as (_ & Hu & _).
  destruct (step _ _ c (store w)) as [c' s']. simpl in *.
  rewrite list_fmap_insert, list_insert_id; [done|].
  by rewrite list_lookup_fmap, Hi, Hu.
Qed.

(** X7. Among calls for pairwise distinct buyers, however they are
    interleaved and whatever connections they share: at every moment, a call
    that has returned code 0 returned the order identifier made of its
    timestamp and its buyer, and the receipt of its buyer holds that
    identifier. No other call takes the receipt of a served buyer away. *)
Theorem reserved_has_receipt sched : ∀ w,
  NoDup (c_userId <$> calls w) →
  Forall (λ c, returned 0 c = false) (calls w) →
  let w' := run' sched w in
  ∀ c, c ∈ calls w' → returned 0 c = true →
    c_pc c = PDone (Result 0 (Some (Js.string_of_Z (c_now c) ++ ":" ++ c_userId c)) None)
    ∧ strs (store w') !! userKey (c_userId c)
      = Some (Js.string_of_Z (c_now c) ++ ":" ++ c_userId c).
Proof.
  intros w Hnd Hall.
  assert (Forall (reserved_ok (store w)) (calls w)) as Hok.
  { eapply Forall_impl; [exact Hall|]. intros c Hc Hret. congruence. }
  clear Hall. simpl.
  revert w Hnd Hok. induction sched as [|i sched IH]; intros w Hnd Hok.
  - intros c Hc Hret. by apply (proj1 (Forall_forall _ _) Hok c Hc).
  - simpl. apply IH; [by rewrite step_at_userIds|by apply reserved_ok_step].
Qed.

(** A step of a call on a connection of its own, whoever its buyer: the
    stock counter never goes below zero, the call reserves a unit exactly
    when it takes one from the counter, and it writes the receipt of its
    buyer only where there was none. *)
Lemma step_own c s z :
  call_own s z c →
  strs s !! stockKey = Some (Js.string_of_Z z) →
  (0 ≤ z < Js.INT64_MAX)%Z →
  let c' := (step' c s).1 in
  let s' := (step' c s).2 in
  ∃ z', strs s' !! stockKey = Some (Js.string_of_Z z')
        ∧ (0 ≤ z')%Z
        ∧ call_own s' z' c'
        ∧ (z' + Z.b2z (returned 0 c') = z + Z.b2z (returned 0 c))%Z
        ∧ ((strs s' !! userKey (c_userId c) = strs s !! userKey (c_userId c)
            ∧ returned 0 c' = returned 0 c)
           ∨ (returned 0 c = false ∧ returned 0 c' = true
              ∧ Js.truthy (strs s !! userKey (c_userId c)) = false)).
Proof.
  intros Hown Hstock Hz.
  assert (Js.in_int64 z = true ∧ Js.in_int64 (z - 1) = true) as (Hz0 & Hz1).
  { rewrite !in_int64_spec. unfold Js.INT64_MIN, Js.INT64_MAX in *. lia. }
  destruct Hz as [Hz _].
  destruct c as [conn u now sA eA p].
  unfold call_own, reserved_ok, oid_of in *. simpl in *.
  unfold step. simpl.
  destruct p as [tries|tries|tries stockStr existing|tries| |r]; simpl in *.
  - destruct (_ <? _)%nat; msimpl; exists z; (do 2 (split; [done|])).
    + split; [|split; [done|by left]].
      rewrite getconn_insert_eq. simpl. split.
      * apply elem_of_union. right. apply elem_of_union. left.
        by apply elem_of_singleton.
      * apply elem_of_union. right. apply elem_of_union. right.
        apply elem_of_union. left. by apply elem_of_singleton.
    + split; [done|]. split; [done|by left].
  - destruct (window_closed _ _ _); msimpl; exists z; (do 2 (split; [done|])).
    + split; [done|]. split; [done|by left].
    + rewrite Hstock. destruct Hown as [H1 H2].
      split; [by auto|]. split; [done|by left].
  - destruct (Js.truthy existing) eqn:Hex; msimpl.
    { exists z. do 2 (split; [done|]). split; [done|]. split; [done|by left]. }
    destruct (_ || _) eqn:Hcheck; msimpl.
    { exists z. do 2 (split; [done|]). split; [done|]. split; [done|by left]. }
    destruct Hown as (Hw1 & Hw2 & Hread).
    destruct (dirty (getconn s conn)) eqn:Hd.
    { unfold multi_exec. rewrite Hd. simpl.
      exists z. do 2 (split; [done|]). split; [done|]. split; [done|by left]. }
    destruct Hread as [?|[-> ->]]; [done|].
    simpl in Hcheck.
    rewrite string_of_Z_eqb_empty, (Number_of_Z _ _ Hz0), (isFinite_nearest _ Hz0),
      (le_nearest_0 _ Hz0) in Hcheck.
    simpl in Hcheck. apply Z.leb_gt in Hcheck.
    rewrite (purchase_tx _ _ _ _ _ z) by done. rewrite Hd. simpl.
    rewrite isFinite_nearest, lt_nearest_0 by done. destruct (Z.ltb_spec (z - 1) 0) as [?|_]; [lia|]. simpl.
    exists (z - 1)%Z.
    rewrite lookup_insert_ne by apply userKey_stockKey.
    rewrite !lookup_insert_eq.
    split; [done|]. split; [lia|]. split; [done|]. split; [lia|].
    right. done.
  - msimpl. exists z. do 2 (split; [done|]). split; [done|]. split; [done|by left].
  - done.
  - msimpl. exists z. do 2 (split; [done|]). split; [done|]. split; [done|by left].
Qed.

(** What a step of another client leaves of [call_own]. *)
Lemma call_own_other s s' z z' c :
  flags_watchers (c_conn c) s s' →
  strs s !! stockKey = Some (Js.string_of_Z z) →
  strs s' !! stockKey = Some (Js.string_of_Z z') →
  (returned 0 c = true →
   strs s' !! userKey (c_userId c) = strs s !! userKey (c_userId c)) →
  call_own s z c → call_own s' z' c.
Proof.
  intros [[Hw Hd] Hf] Hs Hs' Hrec. unfold call_own, reserved_ok. simpl.
  destruct (c_pc c) as [tries|tries|tries stockStr existing|tries| |r] eqn:Hpc;
    rewrite ?Hw; try done.
  - intros (H1 & H2 & [Hdirty|[-> ->]]); (do 2 (split; [done|])).
    + left. auto.
    + destruct (decide (z' = z)) as [->|Hne].
      * destruct (decide (strs s' !! userKey (c_userId c)
                          = strs s !! userKey (c_userId c))) as [E|E].
        -- right. by rewrite E.
        -- left. by apply (Hf (userKey (c_userId c))).
      * left. apply (Hf stockKey); [|done]. rewrite Hs, Hs'.
        intros [= E]. by apply string_of_Z_inj in E.
  - intros H Hret. destruct (H Hret) as [H1 H2]. split; [done|].
    by rewrite Hrec.
Qed.

Lemma inv_own_step S m0 i w :
  (0 ≤ S < Js.INT64_MAX)%Z →
  inv_own S m0 w → inv_own S m0 (step_at' i w).
Proof.
  intros HS (z & Hstock & Hz & Hsum & Hnd & Hall & Hone & Hkept).
  unfold step_at. destruct (calls w !! i) as [c|] eqn:Hi.
  2:{ exists z. do 6 (split; [done|]). done. }
  pose proof (proj1 (Forall_lookup _ _) Hall i c Hi) as Hown.
  assert (0 ≤ z < Js.INT64_MAX)%Z as Hz'.
  { pose proof (count_le_length (returned 0) (calls w)). unfold count_code in *. lia. }
  pose proof (step_own c (store w) z Hown Hstock Hz') as Hspec.
  pose proof (step_params NumberOther MAX_RETRIES c (store w)) as (Hconn & Hu & _).
  pose proof (step_flags NumberOther MAX_RETRIES c (store w)) as Hflags.
  pose proof (step_effect NumberOther MAX_RETRIES c (store w)) as Heff.
  destruct (step _ _ c (store w)) as [c' s']. simpl in *.
  destruct Hspec as (z' & Hstock' & Hz0' & Hown' & Hsum' & Hcase).
  pose proof (count_insert (returned 0) _ _ _ c' Hi) as E0.
  (* a served call of the buyer of [c] rules the second case out *)
  assert (∀ j cj, calls w !! j = Some cj → returned 0 cj = true →
            c_userId cj = c_userId c →
            strs s' !! userKey (c_userId c) = strs (store w) !! userKey (c_userId c)
            ∧ returned 0 c' = returned 0 c) as Hserved.
  { intros j cj Hj Hret Hsame.
    destruct Hcase as [?|(_ & _ & Hno)]; [done|].
    pose proof (proj1 (Forall_lookup _ _) Hall j cj Hj) as Hownj.
    unfold call_own in Hownj. unfold returned in Hret.
    destruct (c_pc cj) eqn:Hpc; try done.
    destruct (Hownj ltac:(unfold returned; by rewrite Hpc)) as [_ Hrec].
    rewrite Hsame in Hrec. rewrite Hrec in Hno.
    by rewrite (truthy_Some _ (oid_of_nonempty cj)) in Hno. }
  assert (∀ j cj, i ≠ j → calls w !! j = Some cj → returned 0 cj = true →
            strs s' !! userKey (c_userId cj) = strs (store w) !! userKey (c_userId cj))
    as Hothers.
  { intros j cj Hne Hj Hret.
    destruct (decide (c_userId cj = c_userId c)) as [E|E].
    - rewrite E. by apply (Hserved j cj).
    - apply Heff; [apply userKey_stockKey|]. by intros E'%userKey_inj. }
  exists z'. simpl. split; [done|]. split; [done|]. split.
  { unfold count_code in *.
    destruct (returned 0 c), (returned 0 c'); simpl in *; lia. }
  split.
  { rewrite list_fmap_insert, list_insert_id; [done|].
    by rewrite list_lookup_fmap, Hi, Hconn. }
  split.
  { apply Forall_lookup. intros j cj Hj.
    destruct (decide (i = j)) as [->|Hne].
    - rewrite list_lookup_insert_eq in Hj by (by eapply lookup_lt_Some).
      by injection Hj as <-.
    - rewrite list_lookup_insert_ne in Hj by done.
      eapply call_own_other; [|exact Hstock|exact Hstock'| |
                              by eapply (proj1 (Forall_lookup _ _) Hall)].
      + apply Hflags. intros E. apply Hne.
        eapply (NoDup_lookup _ i j); [exact Hnd| |].
        * by rewrite list_lookup_fmap, Hi.
        * rewrite list_lookup_fmap, Hj. simpl. by rewrite E.
      + intros Hret. by apply (Hothers j). }
  split.
  { intros j k cj ck Hj Hk Hrj Hrk Hsame.
    destruct (decide (j = k)) as [|Hjk]; [done|]. exfalso.
    destruct (decide (i = j)) as [->|Hij].
    - rewrite list_lookup_insert_eq in Hj by (by eapply lookup_lt_Some).
      injection Hj as <-.
      rewrite list_lookup_insert_ne in Hk by done.
      destruct (Hserved k ck Hk Hrk) as [_ E]; [congruence|].
      apply Hjk, (Hone j k c ck); [done|done|congruence|done|congruence].
    - rewrite list_lookup_insert_ne in Hj by done.
      destruct (decide (i = k)) as [->|Hik].
      + rewrite list_lookup_insert_eq in Hk by (by eapply lookup_lt_Some).
        injection Hk as <-.
        destruct (Hserved j cj Hj Hrj) as [_ E]; [congruence|].
        apply Hjk, (Hone j k cj c); [done|done|done|congruence|congruence].
      + rewrite list_lookup_insert_ne in Hk by done.
        by apply Hjk, (Hone j k cj ck). }
  intros u0 Hu0. destruct (Hkept u0 Hu0) as [Hrec Hnone].
  assert (c_userId c = u0 → strs s' !! userKey u0 = strs (store w) !! userKey u0
                           ∧ returned 0 c' = false) as Hsame.
  { intros <-. pose proof (proj1 (Forall_lookup _ _) Hnone i c Hi eq_refl) as Hc.
    destruct Hcase as [[? ?]|(_ & _ & Hno)]; [split; congruence|].
    rewrite Hrec, Hu0 in Hno. done. }
  split.
  - simpl. destruct (decide (c_userId c = u0)) as [E|E].
    + destruct (Hsame E) as [-> _]. done.
    + rewrite Heff; [done|apply userKey_stockKey|]. by intros E'%userKey_inj.
  - simpl. apply Forall_lookup. intros j cj Hj Hcj.
    destruct (decide (i = j)) as [->|Hne].
    + rewrite list_lookup_insert_eq in Hj by (by eapply lookup_lt_Some).
      injection Hj as <-. apply Hsame. congruence.
    + rewrite list_lookup_insert_ne in Hj by done.
      by apply (proj1 (Forall_lookup _ _) Hnone j cj Hj).
Qed.

Lemma inv_own_run S m0 sched : ∀ w,
  (0 ≤ S < Js.INT64_MAX)%Z →
  inv_own S m0 w → inv_own S m0 (run' sched w).
Proof.
  induction sched as [|i sched IH]; intros w HS Hinv; [done|].
  simpl. apply IH; [done|by apply inv_own_step].
Qed.

(** X8. Calls on connections of their own, whoever their buyers (one buyer
    may have many calls in flight) and wherever the sale window is, run
    interleaved from a stock counter [S >= 0]. At every moment: the stock
    counter is [S] minus the number of calls that returned code 0, and is
    not negative; no call has a rollback to run; no two calls of one buyer
    have returned code 0; a call that returned code 0 holds its receipt, and
    its buyer had none at the start; and every receipt of the start is still
    there. *)
Theorem isolated_calls S w sched :
  (0 ≤ S < Js.INT64_MAX)%Z →
  strs (store w) !! stockKey = Some (Js.string_of_Z S) →
  NoDup (c_conn <$> calls w) →
  Forall (λ c, c_pc c = PLoop 0) (calls w) →
  let w' := run' sched w in
  (∃ z, strs (store w') !! stockKey = Some (Js.string_of_Z z)
        ∧ (0 ≤ z)%Z
        ∧ z = (S - Z.of_nat (count_code 0 (calls w')))%Z)
  ∧ Forall (λ c, rolling_back c = false) (calls w')
  ∧ (∀ i j ci cj, calls w' !! i = Some ci → calls w' !! j = Some cj →
       returned 0 ci = true → returned 0 cj = true →
       c_userId ci = c_userId cj → i = j)
  ∧ (∀ c, c ∈ calls w' → returned 0 c = true →
       strs (store w') !! userKey (c_userId c)
       = Some (Js.string_of_Z (c_now c) ++ ":" ++ c_userId c)
       ∧ Js.truthy (strs (store w) !! userKey (c_userId c)) = false)
  ∧ (∀ u, Js.truthy (strs (store w) !! userKey u) = true →
       strs (store w') !! userKey u = strs (store w) !! userKey u).
Proof.
  intros HS Hstock Hnd Hall w'.
  assert (inv_own S (strs (store w)) w) as Hinv.
  { exists S. split; [done|]. split; [lia|]. split.
    { unfold count_code. rewrite count_none; [lia|].
      eapply Forall_impl; [exact Hall|]. intros c Hpc. unfold returned. by rewrite Hpc. }
    split; [done|]. split.
    { eapply Forall_impl; [exact Hall|]. intros c Hpc. unfold call_own. by rewrite Hpc. }
    split.
    { intros i j ci cj Hi Hj Hri. exfalso.
      pose proof (proj1 (Forall_lookup _ _) Hall i ci Hi) as Hpc.
      unfold returned in Hri. by rewrite Hpc in Hri. }
    intros u Hu. split; [done|].
    eapply Forall_impl; [exact Hall|]. intros c Hpc _. unfold returned. by rewrite Hpc. }
  pose proof (inv_own_run S _ sched w HS Hinv) as Hinv'. fold w' in Hinv'.
  destruct Hinv' as (z & Hstock' & Hz & Hsum & _ & Hown & Hone & Hkept).
  split; [exists z; split; [done|]; split; [done|lia]|].
  split.
  { eapply Forall_impl; [exact Hown|]. intros c Hc.
    unfold call_own, rolling_back in *. by destruct (c_pc c). }
  split; [exact Hone|]. split.
  - intros c Hc Hret.
    pose proof (proj1 (Forall_forall _ _) Hown c Hc) as Hcown.
    unfold call_own in Hcown. pose proof Hret as Hret'. unfold returned in Hret'.
    destruct (c_pc c) eqn:Hpc; try done.
    destruct (Hcown Hret) as [_ Hrec]. split; [done|].
    destruct (Js.truthy (strs (store w) !! userKey (c_userId c))) eqn:Ht; [|done].
    destruct (Hkept _ Ht) as [_ Hnone].
    pose proof (proj1 (Forall_forall _ _) Hnone c Hc eq_refl). congruence.
  - intros u Hu. by destruct (Hkept u Hu).
Qed.

End Own.

(** ** Facts about numbers and their texts *)

(** Sums and products of integers that are integers of at most 53 bits
    are exact. *)
Lemma add_of_Z a b :
  (Z.abs (a + b) ≤ 2 ^ 53)%Z → JsMore.add (Js.of_Z a) (Js.of_Z b) = Js.of_Z (a + b).
Proof.
  intros H. unfold JsMore.add, Js.of_Z.
  rewrite (round_Qeq _ (inject_Z (a + b))).
  - by apply nearest_safe.
  - by rewrite <- inject_Z_plus.
Qed.

Lemma mul_of_Z a b :
  (Z.abs (a * b) ≤ 2 ^ 53)%Z → JsMore.mul (Js.of_Z a) (Js.of_Z b) = Js.of_Z (a * b).
Proof.
  intros H. unfold JsMore.mul, Js.of_Z.
  rewrite (round_Qeq _ (inject_Z (a * b))).
  - by apply nearest_safe.
  - by rewrite <- inject_Z_mult.
Qed.

Lemma toString_of_Z SO z :
  (Z.abs z ≤ 2 ^ 53)%Z → JsMore.toString SO (Js.of_Z z) = Js.string_of_Z z.
Proof.
  intros Hz. unfold JsMore.toString, Js.of_Z.
  rewrite Qred_inject_Z. simpl.
  by rewrite (proj2 (Z.leb_le _ _) Hz).
Qed.

Lemma string_forall_app p s1 s2 :
  JsMore.string_forall p (s1 ++ s2)
  = (JsMore.string_forall p s1 && JsMore.string_forall p s2)%bool.
Proof.
  induction s1 as [|a s1 IH]; simpl; [done|]. rewrite IH. by rewrite andb_assoc.
Qed.

Lemma digit_no_space a : JsMore.is_digit a = true → negb (Js.is_space a) = true.
Proof.
  unfold JsMore.is_digit, Js.is_space.
  intros [H1 H2]%andb_true_iff. apply Nat.leb_le in H1, H2.
  apply negb_true_iff. rewrite !orb_false_iff, andb_false_iff, !Nat.leb_gt, !Nat.eqb_neq.
  lia.
Qed.

Lemma uint_digits d : JsMore.string_forall JsMore.is_digit (NilEmpty.string_of_uint d) = true.
Proof. induction d; simpl; done. Qed.

(** The decimal text of a natural number is made of digits. *)
Lemma string_of_Z_digits n :
  (0 ≤ n)%Z → JsMore.all_digits (Js.string_of_Z n) = true.
Proof.
  intros Hn. unfold JsMore.all_digits.
  rewrite string_of_Z_eqb_empty. simpl.
  unfold Js.string_of_Z. destruct n as [|p|p]; [done| |lia]. simpl.
  unfold NilZero.string_of_uint.
  pose proof (uint_digits (Pos.to_uint p)).
  by destruct (Pos.to_uint p).
Qed.

(** The decimal text of a negative number is a minus sign and digits. *)
Lemma string_of_Z_neg n :
  (n < 0)%Z → Js.string_of_Z n = String "-" (Js.string_of_Z (- n)).
Proof. intros Hn. destruct n as [|p|p]; try lia. reflexivity. Qed.

Lemma span_app p s1 s2 :
  JsMore.string_forall p s1 = true →
  (match s2 with String a _ => p a = false | EmptyString => True end) →
  JsMore.span p (s1 ++ s2) = (s1, s2).
Proof.
  intros H1 H2. induction s1 as [|a s1 IH]; simpl in *.
  - destruct s2 as [|a s2]; [done|]. simpl. by rewrite H2.
  - apply andb_true_iff in H1 as [Ha H1]. rewrite Ha, (IH H1). done.
Qed.

(** ** The configuration *)

Section ConfigFacts.

Variable NumberOther : string → Js.number.
Variable DateParse : string → Js.number.
Variable StringOther : Q → string.
Variable MAX_RETRIES : nat.

Abbreviation envTime' := (envTime NumberOther DateParse).
Abbreviation loadSaleConfig' := (loadSaleConfig NumberOther DateParse).
Abbreviation bootstrap_cfg' := (bootstrap_cfg StringOther).
Abbreviation startup' := (startup NumberOther DateParse StringOther).

Lemma all_digits_nonempty s : JsMore.all_digits s = true → s ≠ "".
Proof.
  unfold JsMore.all_digits. intros [H _]%andb_true_iff.
  apply negb_true_iff in H. by apply String.eqb_neq.
Qed.

Lemma Number_Z_of_string s n :
  s ≠ "" → Js.Z_of_string s = Some n → (Z.abs n ≤ 2 ^ 53)%Z →
  Js.Number NumberOther s = Js.of_Z n.
Proof.
  intros Hs Hn Hr. unfold Js.Number.
  apply String.eqb_neq in Hs. rewrite Hs, Hn, (safe_in_int64 _ Hr).
  by apply nearest_safe.
Qed.

(** X9. A time that is given as digits is an epoch: read as seconds, and
    multiplied by 1000, when it is below ten thousand million, and as
    milliseconds otherwise. Leading zeros and surrounding white space do not
    matter. *)
Theorem envTime_epoch env name v n fallbackMs nowMs :
  env !! name = Some v →
  JsMore.all_digits (Js.trim v) = true →
  Js.Z_of_string (Js.trim v) = Some n →
  (n ≤ 2 ^ 53)%Z →
  envTime' env name fallbackMs nowMs
  = Js.of_Z (if (n <? 10000000000)%Z then n * 1000 else n).
Proof.
  intros Hv Hd Hn Hr. unfold envTime. rewrite Hv. simpl.
  pose proof (all_digits_nonempty _ Hd) as Hne.
  apply String.eqb_neq in Hne. rewrite Hne. simpl. rewrite Hd.
  assert (0 ≤ n)%Z as H0.
  { unfold Js.Z_of_string in Hn.
    destruct (Js.trim v) as [|a r]; [done|]. simpl in Hn.
    unfold JsMore.all_digits in Hd. simpl in Hd.
    apply andb_true_iff in Hd as [Ha _].
    destruct (Ascii.eqb_spec a "-") as [->|_]; [done|].
    destruct (uint_of_char a _) as [d|]; [|done]. simpl in Hn.
    injection Hn as <-. unfold Z.of_uint. lia. }
  rewrite (Number_Z_of_string _ n); [|by apply String.eqb_neq|done|lia].
  rewrite lt_of_Z. destruct (Z.ltb_spec n 10000000000); [|done].
  apply mul_of_Z. lia.
Qed.

Lemma unit_props u :
  u ∈ ["ms"; "s"; "m"; "h"; "MS"; "Ms"; "mS"; "S"; "M"; "H"] →
  (∃ a r, u = String a r ∧ JsMore.is_digit a = false ∧ Js.is_space a = false)
  ∧ JsMore.string_forall JsMore.is_digit u = false
  ∧ bool_decide (JsMore.toLowerCase u ∈ ["ms"; "s"; "m"; "h"]) = true.
Proof.
  intros Hu.
  repeat (apply elem_of_cons in Hu as [->|Hu];
          [split; [eexists _, _; by repeat split|split; [done|by vm_compute]]|]).
  by apply elem_of_nil in Hu.
Qed.

Lemma span_space_unit sp a r :
  JsMore.string_forall Js.is_space sp = true →
  Js.is_space a = false →
  JsMore.span Js.is_space (sp ++ String a r) = (sp, String a r).
Proof. intros H1 H2. by apply span_app. Qed.

Lemma first_not_digit sp a r :
  JsMore.string_forall Js.is_space sp = true →
  JsMore.is_digit a = false →
  match sp ++ String a r with
  | String b _ => JsMore.is_digit b = false
  | EmptyString => True
  end.
Proof.
  intros H1 H2. destruct sp as [|b sp]; simpl in *; [done|].
  apply andb_true_iff in H1 as [Hb _].
  destruct (JsMore.is_digit b) eqn:E; [|done].
  apply digit_no_space in E. by rewrite Hb in E.
Qed.

(** [rel_exec] on digits, white space and a unit. *)
Lemma rel_exec_digits ds sp u :
  JsMore.all_digits ds = true →
  JsMore.string_forall Js.is_space sp = true →
  u ∈ ["ms"; "s"; "m"; "h"; "MS"; "Ms"; "mS"; "S"; "M"; "H"] →
  JsMore.rel_exec (ds ++ sp ++ u) = Some (ds, JsMore.toLowerCase u)
  ∧ JsMore.rel_exec (String "-" ds ++ sp ++ u)
    = Some (String "-" ds, JsMore.toLowerCase u)
  ∧ JsMore.all_digits (ds ++ sp ++ u) = false
  ∧ JsMore.all_digits (String "-" ds ++ sp ++ u) = false.
Proof.
  intros Hd Hsp Hu.
  destruct (unit_props u Hu) as ((a & r & -> & Ha1 & Ha2) & Hnd & Hunit).
  pose proof (all_digits_nonempty _ Hd) as Hne.
  unfold JsMore.all_digits in Hd. apply andb_true_iff in Hd as [_ Hd].
  assert (JsMore.span JsMore.is_digit (ds ++ sp ++ String a r) = (ds, sp ++ String a r)) as E1.
  { apply span_app; [done|]. by apply first_not_digit. }
  split; [|split; [|split]].
  - unfold JsMore.rel_exec.
    destruct ds as [|d ds]; [done|]. simpl in Hd.
    apply andb_true_iff in Hd as [Hd0 Hd].
    assert (((d =? "+")%char || (d =? "-")%char)%bool = false) as Hsign.
    { destruct (Ascii.eqb_spec d "+") as [->|_]; [done|].
      destruct (Ascii.eqb_spec d "-") as [->|_]; done. }
    change (String d ds ++ sp ++ String a r)
      with (String d (ds ++ sp ++ String a r)) in *.
    cbv beta iota. rewrite Hsign, E1. simpl.
    rewrite (span_space_unit _ _ _ Hsp Ha2). by rewrite Hunit.
  - unfold JsMore.rel_exec.
    change (String "-" ds ++ sp ++ String a r)
      with (String "-" (ds ++ sp ++ String a r)).
    cbv beta iota. change (("-" =? "+")%char || ("-" =? "-")%char)%bool with true.
    cbv beta iota. rewrite E1.
    apply String.eqb_neq in Hne. rewrite Hne.
    rewrite (span_space_unit _ _ _ Hsp Ha2). by rewrite Hunit.
  - unfold JsMore.all_digits. rewrite !string_forall_app, Hnd.
    by rewrite !andb_false_r.
  - reflexivity.
Qed.

Lemma factor_bounds unit : (1 ≤ factor unit ≤ 3600000)%Z.
Proof. unfold factor. repeat case_match; lia. Qed.

(** X10. A time that is given as a whole number, white space or none, and
    one of the units ms, s, m, h in either case is relative to now: now plus
    the number times 1, 1000, 60000 or 3600000. The number may carry a minus
    sign, which gives a time in the past. (The bounds keep the arithmetic
    where a double is exact.) *)
Theorem envTime_relative env name v k sp u fallbackMs clock :
  env !! name = Some v →
  Js.trim v = Js.string_of_Z k ++ sp ++ u →
  JsMore.string_forall Js.is_space sp = true →
  u ∈ ["ms"; "s"; "m"; "h"; "MS"; "Ms"; "mS"; "S"; "M"; "H"] →
  (Z.abs k ≤ 2 ^ 31)%Z →
  (0 ≤ clock ≤ 2 ^ 50)%Z →
  envTime' env name fallbackMs (Js.of_Z clock)
  = Js.of_Z (clock + k * factor (JsMore.toLowerCase u)).
Proof.
  intros Hv Ht Hsp Hu Hk0 Hc.
  pose proof (factor_bounds (JsMore.toLowerCase u)) as Hf.
  assert (Z.abs (k * factor (JsMore.toLowerCase u)) ≤ 2 ^ 31 * 3600000)%Z as Hkf by nia.
  unfold envTime. rewrite Hv. simpl. rewrite Ht.
  assert (∃ ds, JsMore.all_digits ds = true
                ∧ (Js.string_of_Z k = ds ∨ Js.string_of_Z k = String "-" ds)) as (ds & Hds & Hk').
  { destruct (Z.neg_nonneg_cases k) as [Hn|Hn].
    - exists (Js.string_of_Z (- k)). split; [apply string_of_Z_digits; lia|].
      right. by apply string_of_Z_neg.
    - exists (Js.string_of_Z k). split; [by apply string_of_Z_digits|by left]. }
  destruct (rel_exec_digits ds sp u Hds Hsp Hu) as (R1 & R2 & D1 & D2).
  assert (String.eqb (Js.string_of_Z k ++ sp ++ u) "" = false) as ->.
  { pose proof (string_of_Z_nonempty k). by destruct (Js.string_of_Z k). }
  simpl.
  destruct Hk' as [E|E]; rewrite E.
  - rewrite D1, R1. rewrite <- E, (Number_safe _ k) by lia.
    rewrite mul_of_Z by lia. by rewrite add_of_Z by lia.
  - rewrite D2, R2. rewrite <- E, (Number_safe _ k) by lia.
    rewrite mul_of_Z by lia. by rewrite add_of_Z by lia.
Qed.

(** *** Starting the server *)

Lemma key_exists_stock s :
  RedisMore.key_exists stockKey s = bool_decide (is_Some (strs s !! stockKey)).
Proof. unfold RedisMore.key_exists. simpl. by rewrite !orb_false_r. Qed.

(** The data that [bootstrap_cfg] leaves. *)
Lemma bootstrap_cfg_data cfg s :
  let s' := (bootstrap_cfg' cfg s).2 in
  strs s' = match strs s !! stockKey with
            | Some _ => strs s
            | None => <[stockKey := JsMore.toString StringOther (cfg_initialStock cfg)]> (strs s)
            end
  ∧ orders s' = orders s
  ∧ config s'
    = <["initialStock" := JsMore.toString StringOther (cfg_initialStock cfg)]>
        (<["endsAt" := JsMore.toString StringOther (cfg_endsAt cfg)]>
           (<["startsAt" := JsMore.toString StringOther (cfg_startsAt cfg)]>
              (<["productDescription" := cfg_productDescription cfg]>
                 (<["productId" := cfg_productId cfg]> (config s))))).
Proof.
  unfold bootstrap_cfg, RedisMore.exists_, RedisMore.set, RedisMore.hset_config.
  msimpl. rewrite key_exists_stock.
  destruct (strs s !! stockKey) as [v|] eqn:Hstock; simpl; done.
Qed.

Lemma flushall_data s :
  strs (RedisMore.flushall s).2 = ∅
  ∧ config (RedisMore.flushall s).2 = ∅
  ∧ orders (RedisMore.flushall s).2 = [].
Proof. done. Qed.

(** What the start of the server leaves in the store. *)
Lemma startup_resets_data clock env s :
  match loadSaleConfig' clock env with
  | Some cfg =>
      (startup' clock env s).1 = Some tt
      ∧ strs (startup' clock env s).2
        = {[ stockKey := JsMore.toString StringOther (cfg_initialStock cfg) ]}
      ∧ config (startup' clock env s).2
        = {[ "productId" := cfg_productId cfg;
             "productDescription" := cfg_productDescription cfg;
             "startsAt" := JsMore.toString StringOther (cfg_startsAt cfg);
             "endsAt" := JsMore.toString StringOther (cfg_endsAt cfg);
             "initialStock" := JsMore.toString StringOther (cfg_initialStock cfg) ]}
  | None =>
      (startup' clock env s).1 = None
      ∧ strs (startup' clock env s).2 = ∅ ∧ config (startup' clock env s).2 = ∅
  end
  ∧ orders (startup' clock env s).2 = [].
Proof.
  pose proof (flushall_data s) as (F1 & F2 & F3).
  change (startup' clock env s)
    with (bootstrapSale NumberOther DateParse StringOther clock env (RedisMore.flushall s).2).
  generalize dependent (RedisMore.flushall s).2. intros s0 F1 F2 F3.
  unfold bootstrapSale.
  destruct (loadSaleConfig _ _ clock env) as [cfg|].
  - pose proof (bootstrap_cfg_data cfg s0) as (B1 & B2 & B3).
    unfold mbind, M_bind, mret, M_ret.
    destruct (bootstrap_cfg _ cfg s0) as [[] s']. simpl in *.
    rewrite F1, lookup_empty in B1. rewrite F2 in B3. rewrite F3 in B2.
    split; [|done]. split; [done|]. split; [by rewrite B1|].
    rewrite B3. apply map_eq. intros k.
    rewrite !lookup_insert, lookup_singleton. repeat case_decide; simplify_eq; done.
  - simpl. by rewrite F1, F2, F3.
Qed.

(** X11. Every start of the server begins a new sale. Whatever the store
    held, after FLUSHALL and [bootstrapSale] no buyer has a receipt, the
    order log is empty, and every lookup answers that nothing was
    purchased. With a configuration that loads, the stock counter holds the
    text of the configured initial stock and the hash holds the five fields
    of the configuration and nothing else; with a configuration that does
    not load, [bootstrapSale] throws and the store is left empty. *)
Theorem startup_resets clock env s :
  let '(r, s') := startup' clock env s in
  orders s' = []
  ∧ (∀ u, strs s' !! userKey u = None)
  ∧ (∀ v, (getPurchase v s').1 = Http 422 (BError "invalid_user")
          ∨ (getPurchase v s').1 = Http 200 (BLookup false None))
  ∧ match loadSaleConfig' clock env with
    | Some cfg =>
        r = Some tt
        ∧ strs s' = {[ stockKey := JsMore.toString StringOther (cfg_initialStock cfg) ]}
        ∧ config s'
          = {[ "productId" := cfg_productId cfg;
               "productDescription" := cfg_productDescription cfg;
               "startsAt" := JsMore.toString StringOther (cfg_startsAt cfg);
               "endsAt" := JsMore.toString StringOther (cfg_endsAt cfg);
               "initialStock" := JsMore.toString StringOther (cfg_initialStock cfg) ]}
    | None => r = None ∧ strs s' = ∅ ∧ config s' = ∅
    end.
Proof.
  pose proof (startup_resets_data clock env s) as [H Ho].
  destruct (startup _ _ _ clock env s) as [r s']. simpl in *.
  assert (∀ u, strs s' !! userKey u = None) as Hnone.
  { intros u. destruct (loadSaleConfig _ _ clock env) as [cfg|].
    - destruct H as (_ & -> & _).
      rewrite lookup_singleton_ne by (symmetry; apply userKey_stockKey). done.
    - destruct H as (_ & -> & _). apply lookup_empty. }
  split; [done|]. split; [done|]. split; [|done].
  intros v. unfold getPurchase. destruct (_ || _); [by left|].
  right. msimpl. by rewrite Hnone.
Qed.

(** X12. [bootstrapSale] on its own never resets a sale that is under way:
    where the stock counter exists it is left as it is, whatever the
    configured initial stock, and no receipt and no entry of the order log
    changes; only the five fields of the configuration are written over.
    Where there is no stock counter it is set to the text of the initial
    stock. Running [bootstrapSale] again with the same configuration changes
    nothing. *)
Theorem bootstrap_keeps_sale cfg s :
  let s' := (bootstrap_cfg' cfg s).2 in
  orders s' = orders s
  ∧ (∀ k, k ≠ stockKey → strs s' !! k = strs s !! k)
  ∧ strs s' !! stockKey
    = Some (default (JsMore.toString StringOther (cfg_initialStock cfg))
              (strs s !! stockKey))
  ∧ config s' !! "initialStock"
    = Some (JsMore.toString StringOther (cfg_initialStock cfg))
  ∧ config s' !! "startsAt" = Some (JsMore.toString StringOther (cfg_startsAt cfg))
  ∧ config s' !! "endsAt" = Some (JsMore.toString StringOther (cfg_endsAt cfg))
  ∧ same_data s' (bootstrap_cfg' cfg s').2.
Proof.
  pose proof (bootstrap_cfg_data cfg s) as (B1 & B2 & B3).
  pose proof (bootstrap_cfg_data cfg (bootstrap_cfg' cfg s).2) as (C1 & C2 & C3).
  destruct (bootstrap_cfg _ cfg s) as [[] s']. simpl in *.
  destruct (bootstrap_cfg _ cfg s') as [[] s'']. simpl in *.
  assert (strs s' !! stockKey
          = Some (default (JsMore.toString StringOther (cfg_initialStock cfg))
                    (strs s !! stockKey))) as Hstock.
  { rewrite B1. destruct (strs s !! stockKey) eqn:E; simpl; [done|].
    by rewrite lookup_insert_eq. }
  split; [done|]. split.
  { intros k Hk. rewrite B1. destruct (strs s !! stockKey); [done|].
    by rewrite lookup_insert_ne. }
  split; [done|].
  split; [by rewrite B3, lookup_insert_eq|].
  split; [rewrite B3; by repeat (rewrite lookup_insert_ne by done); rewrite lookup_insert_eq|].
  split; [rewrite B3; by repeat (rewrite lookup_insert_ne by done); rewrite lookup_insert_eq|].
  rewrite Hstock in C1.
  split; [done|]. split; [done|].
  rewrite C3, B3. apply map_eq. intros k.
  rewrite !lookup_insert. by repeat case_decide.
Qed.

Lemma loadSaleConfig_default clock :
  (0 ≤ clock ≤ 8640000000000000)%Z →
  loadSaleConfig' clock ∅
  = Some {| cfg_productId := "PRD-001";
            cfg_productDescription :=
              "Ultra-rare drop. First come, first served. Limited stock.";
            cfg_startsAt := Js.of_Z (clock + 60000);
            cfg_endsAt := Js.of_Z (clock + 3600000);
            cfg_initialStock := Js.of_Z 1000 |}.
Proof.
  intros Hclock.
  unfold loadSaleConfig, envTime, envStr, envNum. rewrite !lookup_empty. simpl.
  rewrite !add_of_Z by lia. rewrite le_of_Z.
  destruct (Z.leb_spec (clock + 3600000) (clock + 60000)); [lia|done].
Qed.

(** The status of a store that holds integers of at most 53 bits. *)
Lemma getStatus_of_Z t s a b n z pid descr :
  config s !! "startsAt" = Some (Js.string_of_Z a) →
  config s !! "endsAt" = Some (Js.string_of_Z b) →
  config s !! "initialStock" = Some (Js.string_of_Z n) →
  config s !! "productId" = pid →
  config s !! "productDescription" = descr →
  strs s !! stockKey = Some (Js.string_of_Z z) →
  (Z.abs a ≤ 2 ^ 53)%Z → (Z.abs b ≤ 2 ^ 53)%Z →
  (Z.abs n ≤ 2 ^ 53)%Z → (Z.abs z ≤ 2 ^ 53)%Z → (Z.abs (n - z) ≤ 2 ^ 53)%Z →
  (getStatus NumberOther t s).1
  = StatusReply
      (if (t <? a)%Z then upcoming
       else if (b <? t)%Z then ended
       else if (z <=? 0)%Z then sold_out else active)
      (Js.of_Z a) (Js.of_Z b) (Js.of_Z z) (Js.of_Z (n - z)) pid descr.
Proof.
  intros Ha Hb Hn Hp Hd Hz Ha' Hb' Hn' Hz' Hnz.
  unfold getStatus. msimpl. rewrite Ha, Hb, Hn, Hp, Hd, Hz. simpl.
  rewrite !Number_safe, !or0_of_Z by done.
  unfold Js.gt. rewrite !lt_of_Z, le_of_Z, sub_of_Z by done. done.
Qed.

(** X13. With no variable set in the environment the server starts the
    default sale: product PRD-001, 1000 units, a window that opens one
    minute after the start and closes one hour after the start. Whatever the
    store held before, [getStatus] then answers upcoming before the window,
    active inside it (both ends included) and ended after it, with a stock
    of 1000 and nothing sold. (The clock is in the range of [Date.now()],
    at most 8.64e15, where the two sums are exact.) *)
Theorem default_sale clock s t :
  (0 ≤ clock ≤ 8640000000000000)%Z →
  loadSaleConfig' clock ∅
  = Some {| cfg_productId := "PRD-001";
            cfg_productDescription :=
              "Ultra-rare drop. First come, first served. Limited stock.";
            cfg_startsAt := Js.of_Z (clock + 60000);
            cfg_endsAt := Js.of_Z (clock + 3600000);
            cfg_initialStock := Js.of_Z 1000 |}
  ∧ (startup' clock ∅ s).1 = Some tt
  ∧ (getStatus NumberOther t (startup' clock ∅ s).2).1
    = StatusReply
        (if (t <? clock + 60000)%Z then upcoming
         else if (clock + 3600000 <? t)%Z then ended
         else active)
        (Js.of_Z (clock + 60000)) (Js.of_Z (clock + 3600000))
        (Js.of_Z 1000) (Js.of_Z 0)
        (Some "PRD-001")
        (Some "Ultra-rare drop. First come, first served. Limited stock.").
Proof.
  intros Hclock. split; [by apply loadSaleConfig_default|].
  pose proof (startup_resets_data clock ∅ s) as H.
  rewrite loadSaleConfig_default in H by done.
  destruct (startup _ _ _ clock ∅ s) as [r s']. cbn [fst snd] in *.
  cbn [cfg_startsAt cfg_endsAt cfg_initialStock cfg_productId cfg_productDescription] in H.
  destruct H as ((-> & Hstrs & Hcfg) & _). split; [done|].
  rewrite !toString_of_Z in Hstrs, Hcfg by lia.
  rewrite (getStatus_of_Z t s' (clock + 60000) (clock + 3600000) 1000 1000
             (Some "PRD-001")
             (Some "Ultra-rare drop. First come, first served. Limited stock."));
    try lia;
    rewrite ?Hcfg, ?Hstrs, ?lookup_insert, ?lookup_singleton;
    repeat case_decide; simplify_eq; rewrite ?toString_of_Z by lia; done.
Qed.

(** X14. From the start of a sale to its status. A sale is started (FLUSHALL
    and the commands of [bootstrapSale]) with a configuration of integers of
    at most [2^53] in absolute value, which doubles hold and [String] prints
    exactly: a window from [a] to [b] and [n >= 0] units. After any
    purchases, lookups and status requests that ran one after the other,
    [getStatus] answers
    with the window of the configuration, a stock of [n] minus the number of
    purchases answered 200 and that number as sold, which is at most [n];
    the phase is upcoming before [a], ended after [b], and in between sold
    out exactly when every unit is sold. *)
Theorem status_after_sales cfg a b n s os t :
  cfg_startsAt cfg = Js.of_Z a →
  cfg_endsAt cfg = Js.of_Z b →
  cfg_initialStock cfg = Js.of_Z n →
  (Z.abs a ≤ 2 ^ 53)%Z →
  (Z.abs b ≤ 2 ^ 53)%Z →
  (0 ≤ n ≤ 2 ^ 53)%Z →
  let s0 := (bootstrap_cfg' cfg (RedisMore.flushall s).2).2 in
  let k := Z.of_nat (purchased NumberOther MAX_RETRIES os s0) in
  (k ≤ n)%Z
  ∧ (getStatus NumberOther t (run_ops NumberOther MAX_RETRIES os s0)).1
    = StatusReply
        (if (t <? a)%Z then upcoming
         else if (b <? t)%Z then ended
         else if (n - k <=? 0)%Z then sold_out else active)
        (Js.of_Z a) (Js.of_Z b) (Js.of_Z (n - k)) (Js.of_Z k)
        (Some (cfg_productId cfg)) (Some (cfg_productDescription cfg)).
Proof.
  intros Ha Hb Hn Ba Bb Hn53 s0 k.
  assert (Z.abs n ≤ 2 ^ 53)%Z as Bn by lia.
  assert (0 ≤ n ≤ Js.INT64_MAX)%Z as Hn'.
  { pose proof (proj1 (in_int64_spec n) (safe_in_int64 n Bn)) as [_ ?]. lia. }
  pose proof (flushall_data s) as (F1 & F2 & F3).
  pose proof (bootstrap_cfg_data cfg (RedisMore.flushall s).2) as (B1 & B2 & B3).
  fold s0 in B1, B2, B3. rewrite F1, lookup_empty in B1. rewrite F2 in B3.
  rewrite Ha, Hb, Hn in *. rewrite !toString_of_Z in * by done.
  assert (strs s0 !! stockKey = Some (Js.string_of_Z n)) as Hstock.
  { by rewrite B1, lookup_insert_eq. }
  destruct (run_ops_accounting NumberOther MAX_RETRIES os s0 n Hstock Hn')
    as (Hk & Hstock' & _ & Hcfg).
  fold k in Hk, Hstock'. split; [done|].
  assert (0 ≤ k)%Z as Hk0 by (subst k; lia).
  rewrite (getStatus_of_Z t _ a b n (n - k) (Some (cfg_productId cfg))
             (Some (cfg_productDescription cfg))); try done; try lia.
  - do 2 f_equal. lia.
  - rewrite Hcfg, B3. by repeat (rewrite lookup_insert_ne by done); rewrite lookup_insert_eq.
  - rewrite Hcfg, B3. by repeat (rewrite lookup_insert_ne by done); rewrite lookup_insert_eq.
  - rewrite Hcfg, B3. by rewrite lookup_insert_eq.
  - rewrite Hcfg, B3. by repeat (rewrite lookup_insert_ne by done); rewrite lookup_insert_eq.
  - rewrite Hcfg, B3. by repeat (rewrite lookup_insert_ne by done); rewrite lookup_insert_eq.
Qed.

End ConfigFacts.

Lemma limit_key_stock ip : "ratelimit:" ++ ip ≠ stockKey.
Proof. unfold stockKey. simpl. discriminate. Qed.

Lemma limit_key_user ip u : "ratelimit:" ++ ip ≠ userKey u.
Proof. unfold userKey. simpl. discriminate. Qed.

Section RateLimit.

Variable env : gmap string string.
Hypothesis enabled : env !! "DISABLE_RATELIMIT" ≠ Some "1".

(** One request when the address has no counter, or one whose time is
    over: the request goes on, the counter is 1 and expires ten seconds
    after PEXPIRE arrived. *)
Lemma rateLimit_first ip t1 t2 s :
  ((strs (t_db s) !! ("ratelimit:" ++ ip) = None
    ∧ expires s !! ("ratelimit:" ++ ip) = None)
   ∨ ∃ w, expires s !! ("ratelimit:" ++ ip) = Some w ∧ (w < t1)%Z) →
  let '(h, s') := rateLimit env ip t1 t2 s in
  h = Continue
  ∧ strs (t_db s') !! ("ratelimit:" ++ ip) = Some "1"
  ∧ expires s' !! ("ratelimit:" ++ ip) = Some (t2 + 10000)%Z
  ∧ (∀ k, k ≠ "ratelimit:" ++ ip →
       strs (t_db s') !! k = strs (t_db s) !! k ∧ expires s' !! k = expires s !! k)
  ∧ config (t_db s') = config (t_db s) ∧ orders (t_db s') = orders (t_db s).
Proof.
  intros Hkey. unfold rateLimit.
  rewrite bool_decide_eq_false_2 by done.
  set (key := "ratelimit:" ++ ip) in *.
  pose (s0 := RedisTime.expire_if_needed t1 key s).
  assert (strs (t_db s0) !! key = None ∧ expires s0 !! key = None
          ∧ (∀ k, k ≠ key → strs (t_db s0) !! k = strs (t_db s) !! k
                            ∧ expires s0 !! k = expires s !! k)
          ∧ config (t_db s0) = config (t_db s) ∧ orders (t_db s0) = orders (t_db s))
    as (Hnone & Hexp & Hother & Hcfg & Hord).
  { subst s0. unfold RedisTime.expire_if_needed.
    destruct Hkey as [[Hs Hw]|(w & Hw & Hlt)].
    - by rewrite Hw.
    - rewrite Hw. rewrite (proj2 (Z.ltb_lt w t1) Hlt). simpl.
      destruct (strs (t_db s) !! key) eqn:Hs; simpl.
      + rewrite !lookup_delete_eq. do 2 (split; [done|]). split; [|done].
        intros k Hk. by rewrite !lookup_delete_ne.
      + rewrite Hs, lookup_delete_eq. do 2 (split; [done|]). split; [|done].
        intros k Hk. by rewrite lookup_delete_ne. }
  unfold RedisTime.incr. fold s0.
  destruct s0 as [d e]. simpl in *.
  unfold incrby. rewrite Hnone. simpl.
  unfold RedisTime.pexpire, RedisTime.expire_if_needed. simpl.
  rewrite Hexp. simpl. rewrite lookup_insert_eq. simpl.
  rewrite !lookup_insert_eq.
  do 3 (split; [done|]). split; [|done].
  intros k Hk. rewrite !lookup_insert_ne by done. by apply Hother.
Qed.

(** One request when the address has a counter that holds the integer [c]
    and whose time is not over: the counter goes up by one, its expiry time
    stays, and the request goes on exactly when the new count is at most
    20. *)
Lemma rateLimit_next ip t1 t2 s c w :
  strs (t_db s) !! ("ratelimit:" ++ ip) = Some (Js.string_of_Z c) →
  (1 ≤ c < Js.INT64_MAX)%Z →
  (expires s !! ("ratelimit:" ++ ip) = Some w ∧ (t1 ≤ w)%Z
   ∨ expires s !! ("ratelimit:" ++ ip) = None) →
  let '(h, s') := rateLimit env ip t1 t2 s in
  h = (if (20 <? c + 1)%Z then Reply (Http 429 (BError "rate_limited")) else Continue)
  ∧ strs (t_db s') !! ("ratelimit:" ++ ip) = Some (Js.string_of_Z (c + 1))
  ∧ expires s' !! ("ratelimit:" ++ ip) = expires s !! ("ratelimit:" ++ ip)
  ∧ (∀ k, k ≠ "ratelimit:" ++ ip →
       strs (t_db s') !! k = strs (t_db s) !! k ∧ expires s' !! k = expires s !! k)
  ∧ config (t_db s') = config (t_db s) ∧ orders (t_db s') = orders (t_db s).
Proof.
  intros Hc Hrange Hw. unfold rateLimit.
  rewrite bool_decide_eq_false_2 by done.
  set (key := "ratelimit:" ++ ip) in *.
  assert (RedisTime.expire_if_needed t1 key s = s) as Hs0.
  { unfold RedisTime.expire_if_needed.
    destruct Hw as [[-> Hle]| ->]; [|done].
    by rewrite (proj2 (Z.ltb_ge w t1) Hle). }
  unfold RedisTime.incr. rewrite Hs0.
  rewrite (incrby_of_Z _ _ _ c); [|done|..].
  2,3: apply in_int64_spec; unfold Js.INT64_MIN, Js.INT64_MAX in *; lia.
  destruct (Z.eqb_spec (c + 1) 1) as [?|_]; [lia|].
  destruct (20 <? c + 1)%Z; simpl; rewrite lookup_insert_eq;
    (do 3 (split; [done|])); (split; [|done]);
    intros k Hk; by rewrite lookup_insert_ne.
Qed.

(** Requests while the counter holds [c] and its time is not over, or it
    has none. *)
Lemma rateLimits_next ip ts : ∀ s c,
  strs (t_db s) !! ("ratelimit:" ++ ip) = Some (Js.string_of_Z c) →
  (1 ≤ c)%Z →
  (c + Z.of_nat (length ts) < Js.INT64_MAX)%Z →
  ((∃ w, expires s !! ("ratelimit:" ++ ip) = Some w ∧ Forall (λ p, (p.1 ≤ w)%Z) ts)
   ∨ expires s !! ("ratelimit:" ++ ip) = None) →
  let '(hs, s') := rateLimits env ip ts s in
  hs = (λ i, if (20 <? c + 1 + Z.of_nat i)%Z
             then Reply (Http 429 (BError "rate_limited")) else Continue)
       <$> seq 0 (length ts)
  ∧ strs (t_db s') !! ("ratelimit:" ++ ip)
    = Some (Js.string_of_Z (c + Z.of_nat (length ts)))
  ∧ expires s' !! ("ratelimit:" ++ ip) = expires s !! ("ratelimit:" ++ ip)
  ∧ (∀ k, k ≠ "ratelimit:" ++ ip →
       strs (t_db s') !! k = strs (t_db s) !! k ∧ expires s' !! k = expires s !! k)
  ∧ config (t_db s') = config (t_db s) ∧ orders (t_db s') = orders (t_db s).
Proof.
  induction ts as [|[t1 t2] ts IH]; intros s c Hc Hc1 Hlen Hw; simpl.
  { rewrite Z.add_0_r. by repeat split. }
  simpl in Hlen.
  pose proof (rateLimit_next ip t1 t2 s c
                (default 0%Z (expires s !! ("ratelimit:" ++ ip))) Hc) as H1.
  destruct (rateLimit env ip t1 t2 s) as [h s1].
  destruct H1 as (-> & Hc' & Hw' & Hk & Hcfg & Hord); [lia| |].
  { destruct Hw as [(w & Hw & Hall)|Hw]; [|by right].
    left. rewrite Hw. simpl. split; [done|].
    apply Forall_cons in Hall as [H _]. done. }
  specialize (IH s1 (c + 1)%Z Hc').
  destruct (rateLimits env ip ts s1) as [hs s2].
  destruct IH as (-> & Hc2 & Hw2 & Hk2 & Hcfg2 & Hord2); [lia|lia| |].
  { rewrite Hw'. destruct Hw as [(w & Hw & Hall)|Hw]; [|by right].
    left. exists w. split; [done|]. by apply Forall_cons in Hall as [_ H]. }
  split.
  { simpl. f_equal; [by rewrite Z.add_0_r|].
    rewrite <- fmap_S_seq, <- list_fmap_compose. apply list_fmap_ext.
    intros _ x _. unfold compose.
    replace (c + 1 + Z.of_nat (S x))%Z with (c + 1 + 1 + Z.of_nat x)%Z by lia. done. }
  split; [rewrite Hc2; do 2 f_equal; lia|].
  split; [congruence|]. split; [|split; congruence].
  intros k Hne. destruct (Hk k Hne), (Hk2 k Hne). split; congruence.
Qed.

(** X15. The rate limit is a fixed window per address. From a store without
    a counter for the address (or with one whose time is over), the requests
    of the address whose INCR arrives within ten seconds of the first
    request's PEXPIRE are counted: the first twenty go on, every later one is
    answered 429. The first request whose INCR arrives after that goes on and
    starts the next window. No request changes a key of the sale. *)
Theorem rate_limit_window ip t1 t2 ts ta tb s :
  (strs (t_db s) !! ("ratelimit:" ++ ip) = None
   ∧ expires s !! ("ratelimit:" ++ ip) = None)
  ∨ (∃ w, expires s !! ("ratelimit:" ++ ip) = Some w ∧ (w < t1)%Z) →
  Forall (λ p, (p.1 ≤ t2 + 10000)%Z) ts →
  (Z.of_nat (length ts) < 2 ^ 62)%Z →
  (t2 + 10000 < ta)%Z →
  let '(hs, s') := rateLimits env ip ((t1, t2) :: ts) s in
  hs = (λ i, if (i <? 20)%nat then Continue
             else Reply (Http 429 (BError "rate_limited")))
       <$> seq 0 (S (length ts))
  ∧ (rateLimit env ip ta tb s').1 = Continue
  ∧ strs (t_db s') !! stockKey = strs (t_db s) !! stockKey
  ∧ (∀ u, strs (t_db s') !! userKey u = strs (t_db s) !! userKey u)
  ∧ config (t_db s') = config (t_db s) ∧ orders (t_db s') = orders (t_db s).
Proof.
  intros Hkey Hall Hlen Hta. simpl.
  pose proof (rateLimit_first ip t1 t2 s Hkey) as H1.
  destruct (rateLimit env ip t1 t2 s) as [h s1].
  destruct H1 as (-> & Hc & Hw & Hk & Hcfg & Hord).
  pose proof (rateLimits_next ip ts s1 1 Hc) as H2.
  destruct (rateLimits env ip ts s1) as [hs s2].
  destruct H2 as (-> & Hc2 & Hw2 & Hk2 & Hcfg2 & Hord2); [lia| | |].
  { unfold Js.INT64_MAX. lia. }
  { left. by exists (t2 + 10000)%Z. }
  split.
  { simpl. f_equal. rewrite <- fmap_S_seq, <- list_fmap_compose.
    apply list_fmap_ext. intros _ i _. unfold compose.
    destruct (Z.ltb_spec 20 (1 + 1 + Z.of_nat i)),
             (Nat.ltb_spec (S i) 20); try done; lia. }
  split.
  { pose proof (rateLimit_first ip ta tb s2) as H3.
    destruct (rateLimit env ip ta tb s2) as [h3 s3]. simpl.
    destruct H3 as (-> & _); [|done].
    right. exists (t2 + 10000)%Z. split; [congruence|done]. }
  split.
  { destruct (Hk stockKey), (Hk2 stockKey); try congruence;
      symmetry; apply limit_key_stock. }
  split; [|split; congruence].
  intros u. destruct (Hk (userKey u)), (Hk2 (userKey u)); try congruence;
    symmetry; apply limit_key_user.
Qed.

(** X16. The window is opened by a second command, PEXPIRE, and only after
    the INCR that answered 1. When the hook stops between the two (the
    process ends, or PEXPIRE fails), the counter is left without an expiry
    time, no later request opens a window (none is answered 1 again), and
    the address is limited for good: of the requests that follow, however
    late they come, the first nineteen go on and all the others are answered
    429. *)
Theorem rate_limit_stuck ip t0 ts s :
  strs (t_db s) !! ("ratelimit:" ++ ip) = None →
  expires s !! ("ratelimit:" ++ ip) = None →
  (Z.of_nat (length ts) < 2 ^ 62)%Z →
  let s1 := (RedisTime.incr t0 ("ratelimit:" ++ ip) s).2 in
  let '(hs, s') := rateLimits env ip ts s1 in
  hs = (λ i, if (i <? 19)%nat then Continue
             else Reply (Http 429 (BError "rate_limited")))
       <$> seq 0 (length ts)
  ∧ expires s' !! ("ratelimit:" ++ ip) = None.
Proof.
  intros Hs Hw Hlen s1.
  assert (strs (t_db s1) !! ("ratelimit:" ++ ip) = Some (Js.string_of_Z 1)
          ∧ expires s1 !! ("ratelimit:" ++ ip) = None) as [Hc1 Hw1].
  { subst s1. unfold RedisTime.incr, RedisTime.expire_if_needed. rewrite Hw.
    unfold incrby. rewrite Hs. simpl. by rewrite lookup_insert_eq. }
  pose proof (rateLimits_next ip ts s1 1 Hc1) as H2.
  destruct (rateLimits env ip ts s1) as [hs s2].
  destruct H2 as (-> & _ & Hw2 & _); [lia| | |].
  { unfold Js.INT64_MAX. lia. }
  { by right. }
  split; [|congruence].
  apply list_fmap_ext. intros _ i _.
  destruct (Z.ltb_spec 20 (1 + 1 + Z.of_nat i)), (Nat.ltb_spec i 19); try done; lia.
Qed.

End RateLimit.

(** *** The token *)

Lemma char_b64 i : (i < 64)%N → is_b64 (Base64.char i) = true.
Proof.
  intros Hi. unfold is_b64, Base64.char. apply bool_decide_eq_true_2.
  apply list_elem_of_In, nth_In. simpl. lia.
Qed.

Lemma bits_bound a b c : (Base64.bits a b c < 16777216)%N.
Proof.
  unfold Base64.bits.
  pose proof (Byte.to_N_bounded a). pose proof (Byte.to_N_bounded b).
  pose proof (Byte.to_N_bounded c). lia.
Qed.

Lemma list_ind3 {A} (P : list A → Prop) :
  P [] → (∀ a, P [a]) → (∀ a b, P [a; b]) →
  (∀ a b c l, P l → P (a :: b :: c :: l)) →
  ∀ l, P l.
Proof.
  intros H0 H1 H2 H3 l.
  assert (P l ∧ (∀ a, P (a :: l)) ∧ (∀ a b, P (a :: b :: l))) as [H _]; [|done].
  induction l as [|x l (IH0 & IH1 & IH2)]; [done|].
  split; [done|]. split; [done|]. intros a b. by apply H3.
Qed.

(** The encoding is characters of the alphabet, four for every three bytes
    and two or three for what is left, followed by the padding. *)
Lemma encode_shape bs :
  ∃ core pad, Base64.encode bs = core ++ pad
    ∧ JsMore.string_forall is_b64 core = true
    ∧ pad ∈ [""; "="; "=="]
    ∧ String.length core = ((4 * length bs + 2) / 3)%nat.
Proof.
  induction bs as [|a|a b|a b c l (core & pad & E & Hc & Hp & Hl)] using list_ind3.
  - exists "", "". split; [done|]. split; [done|]. split; [set_solver|done].
  - eexists (String _ (String _ "")), "==". simpl.
    split; [done|]. split; [|split; [set_solver|done]].
    rewrite !char_b64; [done|..].
    + apply N.mod_lt. done.
    + pose proof (bits_bound a Byte.x00 Byte.x00).
      apply N.Div0.div_lt_upper_bound. lia.
  - eexists (String _ (String _ (String _ ""))), "=". simpl.
    split; [done|]. split; [|split; [set_solver|done]].
    rewrite !char_b64; [done|..].
    + apply N.mod_lt. done.
    + apply N.mod_lt. done.
    + pose proof (bits_bound a b Byte.x00).
      apply N.Div0.div_lt_upper_bound. lia.
  - eexists (String _ (String _ (String _ (String _ core)))), pad.
    cbn [Base64.encode]. rewrite E. cbn [append].
    split; [done|]. split; [|split; [done|]].
    + cbn [JsMore.string_forall]. rewrite Hc, !char_b64; [done|..].
      * apply N.mod_lt. done.
      * apply N.mod_lt. done.
      * apply N.mod_lt. done.
      * pose proof (bits_bound a b c).
        apply N.Div0.div_lt_upper_bound. lia.
    + cbn [String.length length]. rewrite Hl.
      replace (4 * S (S (S (length l))) + 2)%nat with ((4 * length l + 2) + 4 * 3)%nat by lia.
      rewrite Nat.div_add by done. lia.
Qed.

Lemma replace_char_app a b s1 s2 :
  replace_char a b (s1 ++ s2) = replace_char a b s1 ++ replace_char a b s2.
Proof. induction s1 as [|x s1 IH]; simpl; [done|]. by rewrite IH. Qed.

Lemma replace_char_length a b s : String.length (replace_char a b s) = String.length s.
Proof. induction s as [|x s IH]; simpl; [done|]. by rewrite IH. Qed.

Lemma url_of_b64 x :
  is_b64 x = true →
  is_url (if Ascii.eqb (if Ascii.eqb x "+" then "-"%char else x) "/"
          then "_"%char else (if Ascii.eqb x "+" then "-"%char else x)) = true.
Proof.
  unfold is_b64. intros H%bool_decide_eq_true_1. revert x H.
  apply Forall_forall. by apply (bool_decide_unpack _).
Qed.

Lemma replace_url core :
  JsMore.string_forall is_b64 core = true →
  JsMore.string_forall is_url (replace_char "/" "_" (replace_char "+" "-" core)) = true.
Proof.
  induction core as [|x core IH]; [done|]. simpl.
  intros [Hx Hc]%andb_true_iff. by rewrite (url_of_b64 x Hx), IH.
Qed.

Lemma strip_pad_app X pad :
  JsMore.string_forall is_url X = true →
  pad ∈ [""; "="; "=="] →
  strip_pad (X ++ pad) = X.
Proof.
  intros HX Hpad.
  assert (strip_pad pad = "") as Hp.
  { repeat (apply elem_of_cons in Hpad as [->|Hpad]; [done|]).
    by apply elem_of_nil in Hpad. }
  induction X as [|x X IH]; [done|]. simpl in *.
  apply andb_true_iff in HX as [Hx HX]. rewrite (IH HX).
  destruct X; [|done].
  destruct (Ascii.eqb_spec x "=") as [->|]; done.
Qed.

(** The token is made of letters, digits, [-] and [_]; it has four
    characters for every three bytes, rounded up. *)
Lemma toBase64Url_shape bs :
  JsMore.string_forall is_url (toBase64Url bs) = true
  ∧ String.length (toBase64Url bs) = ((4 * length bs + 2) / 3)%nat.
Proof.
  destruct (encode_shape bs) as (core & pad & E & Hc & Hp & Hl).
  unfold toBase64Url. rewrite E, !replace_char_app.
  assert (replace_char "/" "_" (replace_char "+" "-" pad) = pad) as ->.
  { repeat (apply elem_of_cons in Hp as [->|Hp]; [done|]).
    by apply elem_of_nil in Hp. }
  rewrite strip_pad_app; [|by apply replace_url|done].
  split; [by apply replace_url|]. by rewrite !replace_char_length.
Qed.

(** *** The check *)

(** X17. The CSRF check is a double submit. A request passes exactly when
    it carries a non-empty [csrfToken] cookie and the same value in the
    header [x-csrf-token], or in [x-xsrf-token] when the first is absent or
    empty. Otherwise the reason is the first that applies: no cookie, no
    header, or two values that differ. *)
Theorem csrf_double_submit req :
  let h1 := req_headers req !! "x-csrf-token" in
  let h2 := req_headers req !! "x-xsrf-token" in
  let c := req_cookies req !! CSRF_COOKIE in
  (assertCsrf req = None ↔
     ∃ t, t ≠ "" ∧ c = Some t ∧ (h1 = Some t ∨ (Js.truthy h1 = false ∧ h2 = Some t)))
  ∧ (assertCsrf req = Some "missing_cookie" ↔ Js.truthy c = false)
  ∧ (assertCsrf req = Some "missing_header" ↔
     Js.truthy c = true ∧ Js.truthy h1 = false ∧ Js.truthy h2 = false)
  ∧ (assertCsrf req = Some "mismatch" ↔
     Js.truthy c = true
     ∧ ((Js.truthy h1 = true ∧ h1 ≠ c)
        ∨ (Js.truthy h1 = false ∧ Js.truthy h2 = true ∧ h2 ≠ c))).
Proof.
  intros h1 h2 c. unfold assertCsrf. fold h1 h2 c.
  generalize h1 h2 c. clear. intros h1 h2 c.
  destruct h1 as [x|], h2 as [y|], c as [t|]; simpl;
    repeat (match goal with |- context [String.eqb ?a ""] =>
              destruct (String.eqb_spec a "") as [->|?]; simpl end);
    repeat case_bool_decide; simpl; simplify_eq;
    (split; [|split; [|split]]); split; try done;
    try (by intros; destruct_and?; repeat (destruct_or?; destruct_and?); simplify_eq);
    try (by intros (? & ? & ? & [?|[? ?]]); simplify_eq);
    try (by intros _; eexists; eauto).
Qed.

Lemma is_url_nonempty t :
  (0 < String.length t)%nat → t ≠ "".
Proof. intros H ->. simpl in H. lia. Qed.

(** A request that repeats the token of its cookie in the header passes. *)
Lemma with_token_passes token req :
  token ≠ "" → assertCsrf (with_token token req) = None.
Proof.
  intros Ht. apply String.eqb_neq in Ht.
  unfold assertCsrf, with_token, CSRF_COOKIE. simpl.
  rewrite !lookup_insert_eq. simpl. repeat (rewrite Ht; simpl).
  by rewrite bool_decide_eq_true_2.
Qed.

(** X18. A request that fails the CSRF check is answered 403 with the
    reason and a fresh token, the same in the body and in the cookie. The
    token of 32 random bytes has 43 characters, all of them letters, digits,
    [-] or [_] (no padding is left). A client that sends the request again
    with that cookie and the same value in the header passes the check; so
    does one that asks [issueCsrfToken] for a token first. *)
Theorem csrf_rotation rnd req :
  length rnd = 32%nat →
  assertCsrf req ≠ None →
  ∃ reason token,
    assertCsrf req = Some reason
    ∧ csrfPreHandler rnd req = Some (Response 403 (PCsrfError reason token) (Some token))
    ∧ issueCsrfToken rnd = Response 200 (PCsrfToken token) (Some token)
    ∧ token = toBase64Url rnd
    ∧ String.length token = 43%nat
    ∧ JsMore.string_forall is_url token = true
    ∧ ∀ rnd', csrfPreHandler rnd' (with_token token req) = None.
Proof.
  intros Hlen Hfail.
  destruct (toBase64Url_shape rnd) as [Hurl Hl]. rewrite Hlen in Hl.
  change ((4 * 32 + 2) / 3)%nat with 43%nat in Hl.
  destruct (assertCsrf req) as [reason|] eqn:E; [|done].
  exists reason, (toBase64Url rnd).
  assert (reason ≠ "") as Hr.
  { unfold assertCsrf in E. repeat case_match; by simplify_eq. }
  split; [done|]. split.
  { unfold csrfPreHandler. rewrite E. simpl.
    by destruct (String.eqb_spec reason ""). }
  do 4 (split; [done|]).
  intros rnd'. unfold csrfPreHandler. rewrite with_token_passes; [done|].
  apply is_url_nonempty. lia.
Qed.

(** *** The routes *)

Section RoutesFacts.

Variable NumberOther : string → Js.number.
Variable MAX_RETRIES : nat.

Lemma expire_if_needed_effect now k s :
  let s' := RedisTime.expire_if_needed now k s in
  (∀ k', k' ≠ k → strs (t_db s') !! k' = strs (t_db s) !! k')
  ∧ config (t_db s') = config (t_db s) ∧ orders (t_db s') = orders (t_db s).
Proof.
  unfold RedisTime.expire_if_needed.
  destruct (expires s !! k) as [w|]; [|done].
  destruct (w <? now)%Z; [|done]. simpl.
  destruct (strs (t_db s) !! k); simpl; [|done].
  split; [|done]. intros k' Hne. by rewrite lookup_delete_ne.
Qed.

(** [rateLimit] writes no key but the counter of the address. *)
Lemma rateLimit_effect env ip t1 t2 s :
  let s' := (rateLimit env ip t1 t2 s).2 in
  (∀ k, k ≠ "ratelimit:" ++ ip → strs (t_db s') !! k = strs (t_db s) !! k)
  ∧ config (t_db s') = config (t_db s) ∧ orders (t_db s') = orders (t_db s).
Proof.
  unfold rateLimit. case_bool_decide; [done|].
  set (key := "ratelimit:" ++ ip).
  unfold RedisTime.incr.
  pose proof (expire_if_needed_effect t1 key s) as (E1 & E2 & E3).
  destruct (RedisTime.expire_if_needed t1 key s) as [d e]. simpl in *.
  pose proof (incrby_effect key 1 d) as (I1 & I2 & I3 & _).
  destruct (incrby key 1 d) as [r d1]. simpl in *.
  assert ((∀ k, k ≠ key → strs d1 !! k = strs (t_db s) !! k)
          ∧ config d1 = config (t_db s) ∧ orders d1 = orders (t_db s)) as H1.
  { split; [|split; congruence]. intros k Hk. rewrite I1 by done. by apply E1. }
  destruct r as [count| |]; [|done..].
  assert (let s2 := if (count =? 1)%Z
                    then (RedisTime.pexpire t2 key 10000 (Timed d1 e)).2
                    else Timed d1 e in
          (∀ k, k ≠ key → strs (t_db s2) !! k = strs (t_db s) !! k)
          ∧ config (t_db s2) = config (t_db s) ∧ orders (t_db s2) = orders (t_db s)) as H2.
  { destruct (count =? 1)%Z; [|done].
    unfold RedisTime.pexpire.
    pose proof (expire_if_needed_effect t2 key (Timed d1 e)) as (P1 & P2 & P3).
    destruct (RedisTime.expire_if_needed t2 key (Timed d1 e)) as [d2 e2]. simpl in *.
    destruct H1 as (H1 & H1' & H1'').
    destruct (strs d2 !! key); simpl;
      (split; [|split; congruence]); intros k Hk; rewrite P1 by done; by apply H1. }
  by destruct (20 <? count)%Z.
Qed.

Lemma rateLimit_sale env ip t1 t2 s :
  sale_unchanged (t_db s) (t_db (rateLimit env ip t1 t2 s).2).
Proof.
  destruct (rateLimit_effect env ip t1 t2 s) as (H1 & H2 & H3).
  split; [|split; [|done]].
  - apply H1. symmetry. apply limit_key_stock.
  - intros u. apply H1. symmetry. apply limit_key_user.
Qed.

(** X19. What a request can do to the sale. A request whose origin the
    CORS hook refuses fails before anything else runs, and leaves the whole
    store, the counters of the rate limit included, as it was. Whatever the
    route, the request and the store: unless the request is a POST to
    [/api/purchase] that the CORS hook and the rate limit let go on and that
    passes the CSRF check, the stock counter, the receipts, the
    configuration and the order log are as before; and when it is, the
    answer and the store are those of [doPurchase] on the store that the
    rate limit left. An answer with status 429 or a CSRF error always leaves
    the sale as it was. *)
Theorem only_purchase_writes env conn clock t1 t2 rnd req rt s :
  let r := serve NumberOther MAX_RETRIES env conn clock t1 t2 rnd req rt s in
  let l := rateLimit env (req_ip req) t1 t2 s in
  (cors env req = Continue ↔
     Cors.origin_allowed (env !! "ALLOWED_ORIGINS") (req_headers req !! "origin")
     = Some true)
  ∧ (cors env req ≠ Continue → r = (Failed, s))
  ∧ ((∃ body_userId,
        rt = PostPurchase body_userId ∧ cors env req = Continue
        ∧ l.1 = Continue ∧ assertCsrf req = None
        ∧ r.1 = Answered (of_http
                  (doPurchase NumberOther MAX_RETRIES conn clock body_userId (t_db l.2)).1)
        ∧ t_db r.2
          = (doPurchase NumberOther MAX_RETRIES conn clock body_userId (t_db l.2)).2)
     ∨ (sale_unchanged (t_db s) (t_db r.2)
        ∧ ((∃ body_userId, rt = PostPurchase body_userId)
           → cors env req ≠ Continue ∨ l.1 ≠ Continue ∨ assertCsrf req ≠ None))).
Proof.
  cbv zeta. split.
  { unfold cors. destruct (Cors.origin_allowed _ _) as [[|]|]; split; done. }
  assert (sale_unchanged (t_db s) (t_db s)) as Hrefl by (by repeat split).
  unfold serve.
  destruct (cors env req) as [|h0|] eqn:Hcors.
  2:{ unfold cors in Hcors. by destruct (Cors.origin_allowed _ _) as [[|]|]. }
  2:{ split; [done|]. right. split; [done|]. intros _. by left. }
  split; [done|].
  pose proof (rateLimit_sale env (req_ip req) t1 t2 s) as Hsale.
  destruct (rateLimit env (req_ip req) t1 t2 s) as [hk s1]. simpl in Hsale.
  cbn [fst snd].
  destruct hk as [|h|].
  - destruct rt as [| |userId|body_userId].
    + right. pose proof (getStatus_store NumberOther clock (t_db s1)) as E.
      destruct (getStatus _ _ _) as [r d]. simpl in *. subst d.
      split; [done|]. by intros [? ?].
    + right. split; [done|]. by intros [? ?].
    + right. pose proof (getPurchase_store userId (t_db s1)) as E.
      destruct (getPurchase _ _) as [h d]. simpl in *. subst d.
      split; [done|]. by intros [? ?].
    + unfold csrfPreHandler. destruct (assertCsrf req) as [reason|] eqn:E.
      * right. split; [done|]. intros _. right. by right.
      * left. exists body_userId.
        destruct (doPurchase _ _ _ _ _ _) as [h d]. done.
  - right. split; [done|]. intros _. right. by left.
  - right. split; [done|]. intros _. right. by left.
Qed.

End RoutesFacts.

(** ** The sale of the tests *)

(** X20. [resetSale] with integers of at most [2^53] in absolute value
    (the integers that [String] prints digit by digit), whatever the store
    held: the stock counter holds the stock, the hash holds the product
    [LE-001], the window and the initial stock, and there is no receipt and
    no order. With the window from 0 to 100 this is the data of the store
    [sale] that the statements above run on. *)
Theorem resetSale_store SO a b n s :
  (Z.abs a ≤ 2 ^ 53)%Z → (Z.abs b ≤ 2 ^ 53)%Z → (Z.abs n ≤ 2 ^ 53)%Z →
  let s' := (resetSale SO (Js.of_Z a) (Js.of_Z b) (Js.of_Z n) s).2 in
  strs s' = {[ stockKey := Js.string_of_Z n ]}
  ∧ config s' = {[ "productId" := "LE-001"; "startsAt" := Js.string_of_Z a;
                   "endsAt" := Js.string_of_Z b;
                   "initialStock" := Js.string_of_Z n ]}
  ∧ orders s' = []
  ∧ (a = 0%Z → b = 100%Z → same_data (Sale.sale n) s').
Proof.
  intros Ha Hb Hn s'.
  assert (strs s' = {[ stockKey := Js.string_of_Z n ]}
          ∧ config s' = {[ "productId" := "LE-001"; "startsAt" := Js.string_of_Z a;
                           "endsAt" := Js.string_of_Z b;
                           "initialStock" := Js.string_of_Z n ]}
          ∧ orders s' = []) as (H1 & H2 & H3).
  { subst s'. unfold resetSale, RedisMore.flushall, RedisMore.hset_config, RedisMore.set.
    msimpl. rewrite !toString_of_Z by done.
    split; [done|]. split; [|done].
    apply map_eq. intros k.
    rewrite !lookup_insert, lookup_singleton. repeat case_decide; simplify_eq; done. }
  do 3 (split; [done|]).
  intros -> ->. unfold same_data. rewrite H1, H2, H3. done.
Qed.

(** ** The status and the purchase *)

Section StatusFacts.

Variable NumberOther : string → Js.number.
Variable MAX_RETRIES : nat.

(** X21. The status predicts the answer to a purchase. On a store whose
    stock counter holds an integer, at one time and for a valid buyer
    without a receipt on a connection that is not flagged: the purchase is
    answered 403 exactly when the status is upcoming or ended, 410 exactly
    when it is sold out, and 200 with the order identifier exactly when it is
    active. The two handlers read the window and the stock in the same
    way. *)
Theorem status_predicts_purchase conn clock userId s z :
  (0 < MAX_RETRIES)%nat →
  (3 ≤ String.length (Js.trim userId))%nat →
  strs s !! userKey (Js.trim userId) = None →
  dirty (getconn s conn) = false →
  strs s !! stockKey = Some (Js.string_of_Z z) →
  Js.in_int64 z = true →
  let st := st_status (getStatus NumberOther clock s).1 in
  let h := (doPurchase NumberOther MAX_RETRIES conn clock (Some userId) s).1 in
  h = match st with
      | upcoming | ended => Http 403 BNotActive
      | sold_out => Http 410 BSoldOut
      | active =>
          Http 200 (BPurchased (Some (Js.string_of_Z clock ++ ":" ++ Js.trim userId)))
      end.
Proof.
  intros Hmax Hvalid Hrec Hclean Hstock Hz st h.
  destruct (trim_valid _ Hvalid) as (_ & Ho & Hl).
  assert (String.eqb (Js.trim userId) "" = false) as Hne.
  { apply String.eqb_neq. intros E. rewrite E in Hvalid. simpl in Hvalid. lia. }
  subst st h. unfold getStatus, doPurchase. rewrite Ho, Hl, Hne.
  msimpl. rewrite Hstock. simpl. rewrite (Number_of_Z _ _ Hz), (or0_nearest _ Hz).
  unfold attemptPurchase. destruct MAX_RETRIES as [|n]; [lia|]. simpl. msimpl.
  unfold window_closed.
  destruct (Js.lt (Js.of_Z clock) _) eqn:H1; simpl; [done|].
  destruct (Js.gt (Js.of_Z clock) _) eqn:H2; simpl; [done|].
  rewrite Hrec, Hstock. simpl.
  rewrite string_of_Z_eqb_empty, (Number_of_Z _ _ Hz), (isFinite_nearest _ Hz),
    (le_nearest_0 _ Hz).
  simpl. destruct (Z.leb_spec z 0) as [Hle|Hgt]; simpl; [done|].
  assert (Js.in_int64 (z - 1) = true) as Hz1.
  { apply in_int64_spec. apply in_int64_spec in Hz.
    unfold Js.INT64_MIN, Js.INT64_MAX in *. lia. }
  rewrite (purchase_tx _ _ _ _ _ z); [|done..].
  rewrite getconn_insert_eq. simpl. rewrite Hclean. simpl.
  rewrite (isFinite_nearest _ Hz1), (lt_nearest_0 _ Hz1).
  destruct (Z.ltb_spec (z - 1) 0) as [?|_]; [lia|]. done.
Qed.

Lemma lt_of_Z_mono t1 t2 x :
  (t1 ≤ t2)%Z → Js.lt (Js.of_Z t2) x = true → Js.lt (Js.of_Z t1) x = true.
Proof.
  intros Ht. unfold Js.lt, Js.of_Z. destruct x as [| | |q]; try done.
  rewrite !negb_true_iff. intros H.
  destruct (Qle_bool q (inject_Z t1)) eqn:E; [|done].
  apply Qle_bool_iff in E.
  assert (Qle_bool q (inject_Z t2) = true) as E2; [|congruence].
  apply Qle_bool_iff. eapply Qle_trans; [exact E|]. by rewrite <- Zle_Qle.
Qed.

Lemma gt_of_Z_mono t1 t2 x :
  (t1 ≤ t2)%Z → Js.gt (Js.of_Z t1) x = true → Js.gt (Js.of_Z t2) x = true.
Proof.
  intros Ht. unfold Js.gt, Js.lt, Js.of_Z. destruct x as [| | |q]; try done.
  rewrite !negb_true_iff. intros H.
  destruct (Qle_bool (inject_Z t2) q) eqn:E; [|done].
  apply Qle_bool_iff in E.
  assert (Qle_bool (inject_Z t1) q = true) as E2; [|congruence].
  apply Qle_bool_iff. eapply Qle_trans; [|exact E]. by rewrite <- Zle_Qle.
Qed.

(** X22. On a store that does not change, the phase of [getStatus] only
    moves forward in time: upcoming, then active or sold out, then ended,
    whatever the configuration holds (also a window that is empty or no
    number). *)
Theorem status_phases_in_order s t1 t2 :
  (t1 ≤ t2)%Z →
  (phase_rank (st_status (getStatus NumberOther t1 s).1)
   ≤ phase_rank (st_status (getStatus NumberOther t2 s).1))%nat.
Proof.
  intros Ht. unfold getStatus. msimpl.
  set (sA := Js.Number_undef NumberOther (config s !! "startsAt")).
  set (eA := Js.Number_undef NumberOther (config s !! "endsAt")).
  pose proof (lt_of_Z_mono t1 t2 sA Ht) as Hlt.
  pose proof (gt_of_Z_mono t1 t2 eA Ht) as Hgt.
  destruct (Js.lt (Js.of_Z t2) sA) eqn:L2.
  { by rewrite (Hlt eq_refl). }
  destruct (Js.lt (Js.of_Z t1) sA) eqn:L1; simpl.
  { lia. }
  destruct (Js.gt (Js.of_Z t1) eA) eqn:G1.
  { by rewrite (Hgt eq_refl). }
  destruct (Js.gt (Js.of_Z t2) eA) eqn:G2; simpl.
  { destruct (Js.le _ _); simpl; lia. }
  done.
Qed.

End StatusFacts.

(** ** The pool *)



(** ** The allowed origins *)

Lemma escaped_syntax c :
  Cors.is_escaped c = true → Cors.is_syntax c = true ∧ Ascii.eqb c "*" = false.
Proof.
  unfold Cors.is_escaped. intros H%bool_decide_eq_true_1. revert c H.
  apply Forall_forall. by apply (bool_decide_unpack _).
Qed.

Lemma syntax_escaped c :
  Cors.is_syntax c = true → Cors.is_escaped c = true ∨ c = "*"%char.
Proof.
  unfold Cors.is_syntax. intros H%bool_decide_eq_true_1. revert c H.
  apply Forall_forall. repeat (constructor; [by (left + right)|]). constructor.
Qed.

(** The expression of a pattern is the pattern, character by character: a
    star is [.*] and every other character is itself. *)
Lemma toWildcardRegex_glob pattern :
  Cors.toWildcardRegex pattern = Some (Cors.glob pattern).
Proof.
  unfold Cors.toWildcardRegex, Cors.glob.
  induction pattern as [|c rest IH]; [done|]. simpl.
  destruct (Cors.is_escaped c) eqn:He.
  - destruct (escaped_syntax c He) as [Hs Hstar].
    simpl. rewrite Hstar. simpl. rewrite Hs, IH. done.
  - simpl. destruct (Ascii.eqb_spec c "*") as [->|Hstar]; simpl.
    + by rewrite IH.
    + destruct (Cors.is_syntax c) eqn:Hs.
      { destruct (syntax_escaped c Hs) as [?|?]; [congruence|done]. }
      destruct (Ascii.eqb_spec c "092") as [->|_]; [done|].
      destruct (Ascii.eqb_spec c ".") as [->|_]; [done|].
      by rewrite IH.
Qed.

Lemma test_literal p : ∀ o,
  JsMore.string_forall (λ c, negb (Ascii.eqb c "*")) p = true →
  Cors.test (Cors.glob p) o = true ↔ o = p.
Proof.
  unfold Cors.glob.
  induction p as [|c p IH]; intros o Hp; simpl.
  { by rewrite String.eqb_eq. }
  simpl in Hp. apply andb_true_iff in Hp as [Hc Hp].
  apply negb_true_iff in Hc. rewrite Hc.
  destruct o as [|d o]; simpl; [done|].
  rewrite andb_true_iff, (IH o Hp).
  destruct (Ascii.eqb_spec c d) as [->|Hne]; split; intros; destruct_and?;
    simplify_eq; done.
Qed.

Lemma test_any r : ∀ o,
  Cors.test (Cors.RAnyStar :: r) o = true ↔
  ∃ mid rest, o = mid ++ rest
    ∧ JsMore.string_forall (λ c, negb (Cors.is_line_terminator c)) mid = true
    ∧ Cors.test r rest = true.
Proof.
  induction o as [|d o IH].
  - simpl. rewrite orb_false_r. split.
    + intros H. by exists "", "".
    + intros (mid & rest & E & _ & H). destruct mid; [|done].
      change ("" = rest) in E. by subst.
  - change (Cors.test (Cors.RAnyStar :: r) (String d o))
      with (Cors.test r (String d o)
            || negb (Cors.is_line_terminator d) && Cors.test (Cors.RAnyStar :: r) o).
    rewrite orb_true_iff, andb_true_iff, IH. split.
    + intros [H|[Hd (mid & rest & -> & Hm & Hr)]].
      * by exists "", (String d o).
      * exists (String d mid), rest. split; [done|]. split; [|done].
        simpl. by rewrite Hd, Hm.
    + intros (mid & rest & E & Hm & Hr). destruct mid as [|d' mid].
      * left. change (String d o = rest) in E. by subst.
      * change (String d o = String d' (mid ++ rest)) in E.
        injection E as -> ->. simpl in Hm. apply andb_true_iff in Hm as [Hd Hm].
        right. split; [done|]. by exists mid, rest.
Qed.

Lemma glob_app p1 p2 :
  Cors.glob (p1 ++ p2) = (Cors.glob p1 ++ Cors.glob p2)%list.
Proof.
  induction p1 as [|c p1 IH]; [done|].
  change (Cors.glob (String c p1 ++ p2))
    with ((if Ascii.eqb c "*" then Cors.RAnyStar else Cors.RChar c) :: Cors.glob (p1 ++ p2)).
  by rewrite IH.
Qed.

Lemma test_prefix pre r : ∀ o,
  JsMore.string_forall (λ c, negb (Ascii.eqb c "*")) pre = true →
  Cors.test (Cors.glob pre ++ r)%list o = true ↔
  ∃ o', o = pre ++ o' ∧ Cors.test r o' = true.
Proof.
  unfold Cors.glob.
  induction pre as [|c pre IH]; intros o Hp.
  { split; [by exists o|by intros (o' & -> & ?)]. }
  simpl in Hp. apply andb_true_iff in Hp as [Hc Hp].
  apply negb_true_iff in Hc. simpl. rewrite Hc.
  destruct o as [|d o]; simpl.
  { split; [done|by intros (o' & ? & _)]. }
  rewrite andb_true_iff, (IH o Hp). split.
  - intros [E%Ascii.eqb_eq (o' & -> & H)]. subst. by exists o'.
  - intros (o' & E & H). change (String d o = String c (pre ++ o')) in E.
    injection E as -> ->. split; [apply Ascii.eqb_refl|by exists o'].
Qed.

(** X24. The patterns of the allowed origins. [toWildcardRegex] always
    builds an expression: every character of the pattern other than the star
    stands for itself, whatever it means in a regular expression, and the star
    for any run of characters without a line terminator. So a pattern
    without a star allows the one origin that is equal to it, and a pattern
    with one star allows the origins that begin with what is before the star
    and end with what is after it. *)
Theorem wildcard_patterns pattern :
  Cors.toWildcardRegex pattern = Some (Cors.glob pattern)
  ∧ (JsMore.string_forall (λ c, negb (Ascii.eqb c "*")) pattern = true →
     ∀ o, Cors.test (Cors.glob pattern) o = true ↔ o = pattern)
  ∧ (∀ pre suf,
       pattern = pre ++ String "*" suf →
       JsMore.string_forall (λ c, negb (Ascii.eqb c "*")) pre = true →
       JsMore.string_forall (λ c, negb (Ascii.eqb c "*")) suf = true →
       ∀ o, Cors.test (Cors.glob pattern) o = true ↔
            ∃ mid, o = pre ++ mid ++ suf
              ∧ JsMore.string_forall (λ c, negb (Cors.is_line_terminator c)) mid = true).
Proof.
  split; [apply toWildcardRegex_glob|]. split.
  { intros Hp o. by apply test_literal. }
  intros pre suf -> Hpre Hsuf o.
  rewrite glob_app.
  change (Cors.glob (String "*" suf)) with (Cors.RAnyStar :: Cors.glob suf).
  rewrite (test_prefix pre _ o Hpre). split.
  - intros (o' & -> & (mid & rest & -> & Hm & Hr)%test_any).
    apply (test_literal suf rest Hsuf) in Hr. subst. by exists mid.
  - intros (mid & -> & Hm). exists (mid ++ suf). split; [done|].
    apply test_any. exists mid, suf. split; [done|]. split; [done|].
    by apply test_literal.
Qed.

Lemma mapM_toWildcardRegex ps :
  mapM Cors.toWildcardRegex ps = Some (Cors.glob <$> ps).
Proof.
  induction ps as [|p ps IH]; [done|]. simpl.
  rewrite toWildcardRegex_glob. simpl. by rewrite IH.
Qed.

Lemma existsb_glob o ps :
  existsb (λ r, Cors.test r o) (Cors.glob <$> ps)
  = existsb (λ p, Cors.test (Cors.glob p) o) ps.
Proof.
  induction ps as [|p ps IH]; [done|].
  change (Cors.glob <$> p :: ps) with (Cors.glob p :: (Cors.glob <$> ps)).
  simpl. by rewrite IH.
Qed.

(** X25. Which origins are allowed. The callback never throws. A request
    without an [Origin] header is always allowed. Otherwise the origin is
    allowed exactly when one of the patterns matches it; the patterns are
    the entries of [ALLOWED_ORIGINS] between commas, trimmed, without the
    empty ones, and the two local defaults when no entry is left. With
    [ALLOWED_ORIGINS] unset, exactly the two defaults are allowed. *)
Theorem cors_decision allowed_origins origin :
  (∀ p, p ∈ Cors.parseAllowedOrigins allowed_origins Cors.DEFAULTS →
        p ≠ ""
        ∧ (p ∈ Cors.DEFAULTS
           ∨ ∃ q, q ∈ Cors.split "," (default "" allowed_origins) ∧ p = Js.trim q))
  ∧ Cors.parseAllowedOrigins allowed_origins Cors.DEFAULTS ≠ []
  ∧ Cors.origin_allowed allowed_origins None = Some true
  ∧ Cors.origin_allowed allowed_origins (Some "") = Some true
  ∧ (origin ≠ "" →
     Cors.origin_allowed allowed_origins (Some origin)
     = Some (existsb (λ p, Cors.test (Cors.glob p) origin)
               (Cors.parseAllowedOrigins allowed_origins Cors.DEFAULTS))
     ∧ Cors.origin_allowed None (Some origin)
       = Some (bool_decide (origin ∈ Cors.DEFAULTS))).
Proof.
  assert (∀ a o, Cors.origin_allowed a o
            = if negb (Js.truthy o) then Some true
              else Some (existsb (λ p, Cors.test (Cors.glob p) (Js.or_str o ""))
                           (Cors.parseAllowedOrigins a Cors.DEFAULTS))) as Ho.
  { intros a o. unfold Cors.origin_allowed. rewrite mapM_toWildcardRegex. simpl.
    destruct (negb (Js.truthy o)); [done|]. f_equal. apply existsb_glob. }
  split.
  { intros p. unfold Cors.parseAllowedOrigins. case_bool_decide as E.
    - intros Hp. split; [|by left].
      unfold Cors.DEFAULTS in Hp.
      repeat (apply elem_of_cons in Hp as [->|Hp]; [done|]). by apply elem_of_nil in Hp.
    - intros [Hne Hp]%list_elem_of_filter. split; [done|].
      apply list_elem_of_fmap in Hp as (q & -> & Hq). right. by exists q. }
  split.
  { unfold Cors.parseAllowedOrigins. by case_bool_decide. }
  split; [by rewrite Ho|]. split; [by rewrite Ho|].
  intros Hne.
  assert (negb (Js.truthy (Some origin)) = false) as Ht.
  { simpl. by destruct (String.eqb_spec origin ""). }
  assert (Js.or_str (Some origin) "" = origin) as Hor.
  { simpl. by destruct (String.eqb_spec origin ""). }
  split.
  - by rewrite Ho, Ht, Hor.
  - rewrite Ho, Ht, Hor. f_equal.
    change (Cors.parseAllowedOrigins None Cors.DEFAULTS) with Cors.DEFAULTS.
    unfold Cors.DEFAULTS. cbn [existsb]. rewrite orb_false_r.
    pose proof (test_literal "http://localhost:5173" origin eq_refl) as H1.
    pose proof (test_literal "http://127.0.0.1:5173" origin eq_refl) as H2.
    destruct (Cors.test (Cors.glob "http://localhost:5173") origin) eqn:T1.
    { simpl. symmetry. apply bool_decide_eq_true_2.
      rewrite (proj1 H1 eq_refl). apply elem_of_cons. by left. }
    destruct (Cors.test (Cors.glob "http://127.0.0.1:5173") origin) eqn:T2.
    { simpl. symmetry. apply bool_decide_eq_true_2.
      rewrite (proj1 H2 eq_refl). apply elem_of_cons. right.
      apply elem_of_cons. by left. }
    simpl. symmetry. apply bool_decide_eq_false_2.
    intros Hin.
    apply elem_of_cons in Hin as [->|Hin].
    { by pose proof (proj2 H1 eq_refl). }
    apply elem_of_cons in Hin as [->|Hin].
    { by pose proof (proj2 H2 eq_refl). }
    by apply elem_of_nil in Hin.
Qed.

(** ** The client *)

(** X26. What the client shows. [buy] tells the answers of [doPurchase]
    apart: reserved, already purchased, sold out, not active, busy. But an
    answer of the CSRF check has status 403 as well, so a request that fails
    the check is shown as a sale that is not active, whatever the window;
    and a rate-limited request (429) and an invalid buyer (422) are shown as
    an unexpected error. *)
Theorem client_messages :
  (∀ r, code r ∈ [0; 1; 2; 3; 4]%Z →
     buy_toast (http_status (respond r))
     = if (code r =? 0)%Z then TSuccess
       else if (code r =? 1)%Z then TAlreadyPurchased
       else if (code r =? 2)%Z then TSoldOut
       else if (code r =? 3)%Z then TNotActive
       else THighDemand)
  ∧ (∀ rnd req, assertCsrf req ≠ None →
       ∃ resp, csrfPreHandler rnd req = Some resp
               ∧ buy_toast (r_status resp) = TNotActive)
  ∧ (∀ env ip t1 t2 s h,
       (rateLimit env ip t1 t2 s).1 = Reply h → buy_toast (http_status h) = TUnexpected)
  ∧ (∀ NO MR conn clock v s,
       (String.length (Js.trim (Js.or_str v "")) < 3)%nat →
       buy_toast (http_status (doPurchase NO MR conn clock v s).1) = TUnexpected).
Proof.
  split; [|split; [|split]].
  - intros r Hr. unfold respond.
    repeat (apply elem_of_cons in Hr as [->|Hr]; [done|]). by apply elem_of_nil in Hr.
  - intros rnd req Hfail. unfold csrfPreHandler.
    destruct (assertCsrf req); [|done]. by eexists.
  - intros env ip t1 t2 s h. unfold rateLimit.
    case_bool_decide; [done|].
    destruct (RedisTime.incr _ _ _) as [[count| |] s1]; try done.
    destruct (20 <? count)%Z; [|done]. by intros [= <-].
  - intros NO MR conn clock v s Hlen. unfold doPurchase.
    apply Nat.ltb_lt in Hlen. rewrite Hlen, orb_true_r. done.
Qed.

(** ** The further statements on the sale of the tests *)

Section MoreOnTheSale.

Import Sale.

Abbreviation NO := Sale.NumberOther.

(** [Date.parse] here reads no text. *)
Abbreviation DP := (λ _ : string, Js.NaN).

(** [String] here prints nothing but integers. *)
Abbreviation SO := (λ _ : Q, "").

Lemma sequential_accounting_witness :
  let os := [Reserve 0 50 (Some "alice"); Lookup (Some "alice");
             Reserve 1 50 (Some "bob"); Reserve 2 50 (Some "carol"); Status 60] in
  strs (sale 2) !! stockKey = Some (Js.string_of_Z 2)
  ∧ (0 ≤ 2 ≤ Js.INT64_MAX)%Z
  ∧ (let s' := run_ops NO MAX_RETRIES os (sale 2) in
     let k := purchased NO MAX_RETRIES os (sale 2) in
     (Z.of_nat k ≤ 2)%Z
     ∧ strs s' !! stockKey = Some (Js.string_of_Z (2 - Z.of_nat k))
     ∧ length (orders s') = (length (orders (sale 2)) + k)%nat
     ∧ config s' = config (sale 2)).
Proof.
  intros os.
  assert (strs (sale 2) !! stockKey = Some (Js.string_of_Z 2)) as H1 by reflexivity.
  assert (0 ≤ 2 ≤ Js.INT64_MAX)%Z as H2 by (unfold Js.INT64_MAX; lia).
  do 2 (split; [assumption|]).
  exact (sequential_accounting NO MAX_RETRIES os (sale 2) 2 H1 H2).
Defined.

Lemma stock_not_integer_witness :
  let s := Db {[ stockKey := "05" ]} (config (sale 5)) [] ∅ in
  let os := [Reserve 0 50 (Some "alice")] in
  strs s !! stockKey = Some "05"
  ∧ string2ll "05" = None
  ∧ Js.isFinite (Js.Number NO "05") = true
  ∧ Js.le (Js.Number NO "05") (Js.of_Z 0) = false
  ∧ (0 < MAX_RETRIES)%nat
  ∧ strs (run_ops NO MAX_RETRIES os s) !! stockKey = Some "05".
Proof.
  intros s os.
  assert (strs s !! stockKey = Some "05") as H1 by reflexivity.
  assert (string2ll "05" = None) as H2 by reflexivity.
  assert (Js.isFinite (Js.Number NO "05") = true) as H3 by reflexivity.
  assert (Js.le (Js.Number NO "05") (Js.of_Z 0) = false) as H4 by reflexivity.
  assert (0 < MAX_RETRIES)%nat as H5 by (unfold MAX_RETRIES; lia).
  do 5 (split; [assumption|]).
  exact (proj1 (stock_not_integer NO MAX_RETRIES os s "05" H1 H2 H3 H4 H5)).
Defined.

Lemma repeat_purchase_witness :
  let os := [Reserve 1 60 (Some "bob")] in
  (0 < MAX_RETRIES)%nat
  ∧ (doPurchase NO MAX_RETRIES 0 50 (Some "alice") (sale 5)).1
    = Http 200 (BPurchased (Some "50:alice"))
  ∧ Js.trim " alice " = Js.trim "alice"
  ∧ (let s1 := run_ops NO MAX_RETRIES os
                 (doPurchase NO MAX_RETRIES 0 50 (Some "alice") (sale 5)).2 in
     let '(h, s2) := doPurchase NO MAX_RETRIES 2 70 (Some " alice ") s1 in
     same_data s1 s2
     ∧ h = if window_closed 70
               (Js.Number_undef NO (config (sale 5) !! "startsAt"))
               (Js.Number_undef NO (config (sale 5) !! "endsAt"))
           then Http 403 BNotActive
           else Http 409 (BAlreadyPurchased (Some "50:alice"))).
Proof.
  intros os.
  assert (0 < MAX_RETRIES)%nat as H1 by (unfold MAX_RETRIES; lia).
  assert ((doPurchase NO MAX_RETRIES 0 50 (Some "alice") (sale 5)).1
          = Http 200 (BPurchased (Some "50:alice"))) as H2 by (by vm_compute).
  assert (Js.trim " alice " = Js.trim "alice") as H3 by reflexivity.
  do 3 (split; [assumption|]).
  exact (repeat_purchase NO MAX_RETRIES 0 50 "alice" (sale 5) (Some "50:alice") os
           2 70 " alice " H1 H2 H3).
Defined.

Lemma isolated_calls_witness :
  let w := world_of 1 ["alice"; "alice"; "bob"] in
  let sched := [0; 1; 0; 1; 0; 1; 2; 2; 2]%nat in
  (0 ≤ 1 < Js.INT64_MAX)%Z
  ∧ strs (store w) !! stockKey = Some (Js.string_of_Z 1)
  ∧ NoDup (c_conn <$> calls w)
  ∧ Forall (λ c, c_pc c = PLoop 0) (calls w)
  ∧ Forall (λ c, rolling_back c = false) (calls (run NO MAX_RETRIES sched w)).
Proof.
  intros w sched.
  assert (0 ≤ 1 < Js.INT64_MAX)%Z as H1 by (unfold Js.INT64_MAX; lia).
  assert (strs (store w) !! stockKey = Some (Js.string_of_Z 1)) as H2 by reflexivity.
  assert (NoDup (c_conn <$> calls w)) as H3 by (by apply (bool_decide_unpack _)).
  assert (Forall (λ c, c_pc c = PLoop 0) (calls w)) as H4 by (repeat constructor).
  do 4 (split; [assumption|]).
  exact (proj1 (proj2 (isolated_calls NO MAX_RETRIES 1 w sched H1 H2 H3 H4))).
Defined.

Lemma reserved_has_receipt_witness :
  let w := world_of 2 nine_buyers in
  NoDup (c_userId <$> calls w)
  ∧ Forall (λ c, returned 0 c = false) (calls w)
  ∧ ∀ c, c ∈ calls (run NO MAX_RETRIES in_turn w) → returned 0 c = true →
      c_pc c = PDone (Result 0 (Some (Js.string_of_Z (c_now c) ++ ":" ++ c_userId c)) None)
      ∧ strs (store (run NO MAX_RETRIES in_turn w)) !! userKey (c_userId c)
        = Some (Js.string_of_Z (c_now c) ++ ":" ++ c_userId c).
Proof.
  intros w.
  assert (NoDup (c_userId <$> calls w)) as H1 by (by apply (bool_decide_unpack _)).
  assert (Forall (λ c, returned 0 c = false) (calls w)) as H2 by (repeat constructor).
  do 2 (split; [assumption|]).
  exact (reserved_has_receipt NO MAX_RETRIES in_turn w H1 H2).
Defined.


Lemma envTime_epoch_witness :
  let env : gmap string string := {[ "SALE_START" := " 1724472000 " ]} in
  env !! "SALE_START" = Some " 1724472000 "
  ∧ JsMore.all_digits (Js.trim " 1724472000 ") = true
  ∧ Js.Z_of_string (Js.trim " 1724472000 ") = Some 1724472000%Z
  ∧ (1724472000 ≤ 2 ^ 53)%Z
  ∧ envTime NO DP env "SALE_START" (Js.of_Z 7) (Js.of_Z 9)
    = Js.of_Z (if (1724472000 <? 10000000000)%Z then 1724472000 * 1000 else 1724472000).
Proof.
  intros env.
  assert (env !! "SALE_START" = Some " 1724472000 ") as H1 by reflexivity.
  assert (JsMore.all_digits (Js.trim " 1724472000 ") = true) as H2 by reflexivity.
  assert (Js.Z_of_string (Js.trim " 1724472000 ") = Some 1724472000%Z) as H3
    by reflexivity.
  assert (1724472000 ≤ 2 ^ 53)%Z as H4 by lia.
  do 4 (split; [assumption|]).
  exact (envTime_epoch NO DP env "SALE_START" " 1724472000 " 1724472000
           (Js.of_Z 7) (Js.of_Z 9) H1 H2 H3 H4).
Defined.

Lemma envTime_relative_witness :
  let env : gmap string string := {[ "SALE_END" := "-5 M" ]} in
  env !! "SALE_END" = Some "-5 M"
  ∧ Js.trim "-5 M" = Js.string_of_Z (-5) ++ " " ++ "M"
  ∧ JsMore.string_forall Js.is_space " " = true
  ∧ "M" ∈ ["ms"; "s"; "m"; "h"; "MS"; "Ms"; "mS"; "S"; "M"; "H"]
  ∧ (Z.abs (-5) ≤ 2 ^ 31)%Z
  ∧ (0 ≤ 1000000 ≤ 2 ^ 50)%Z
  ∧ envTime NO DP env "SALE_END" (Js.of_Z 7) (Js.of_Z 1000000)
    = Js.of_Z (1000000 + -5 * factor (JsMore.toLowerCase "M")).
Proof.
  intros env.
  assert (env !! "SALE_END" = Some "-5 M") as H1 by reflexivity.
  assert (Js.trim "-5 M" = Js.string_of_Z (-5) ++ " " ++ "M") as H2 by reflexivity.
  assert (JsMore.string_forall Js.is_space " " = true) as H3 by reflexivity.
  assert ("M" ∈ ["ms"; "s"; "m"; "h"; "MS"; "Ms"; "mS"; "S"; "M"; "H"]) as H4
    by (by apply (bool_decide_unpack _)).
  assert (Z.abs (-5) ≤ 2 ^ 31)%Z as H5 by (simpl; lia).
  assert (0 ≤ 1000000 ≤ 2 ^ 50)%Z as H6 by lia.
  do 6 (split; [assumption|]).
  exact (envTime_relative NO DP env "SALE_END" "-5 M" (-5) " " "M" (Js.of_Z 7) 1000000
           H1 H2 H3 H4 H5 H6).
Defined.

Lemma default_sale_witness :
  (0 ≤ 1000 ≤ 8640000000000000)%Z
  ∧ (startup NO DP SO 1000 ∅ (sale 5)).1 = Some tt.
Proof.
  assert (0 ≤ 1000 ≤ 8640000000000000)%Z as H1 by lia.
  split; [assumption|].
  exact (proj1 (proj2 (default_sale NO DP SO 1000 (sale 5) 70000 H1))).
Defined.

Lemma status_after_sales_witness :
  let cfg := Build_SaleConfig "P" "d" (Js.of_Z 0) (Js.of_Z 100) (Js.of_Z 2) in
  let os := [Reserve 0 50 (Some "alice"); Reserve 1 50 (Some "alice")] in
  cfg_startsAt cfg = Js.of_Z 0
  ∧ cfg_endsAt cfg = Js.of_Z 100
  ∧ cfg_initialStock cfg = Js.of_Z 2
  ∧ (Z.abs 0 ≤ 2 ^ 53)%Z
  ∧ (Z.abs 100 ≤ 2 ^ 53)%Z
  ∧ (0 ≤ 2 ≤ 2 ^ 53)%Z
  ∧ (let s0 := (bootstrap_cfg SO cfg (RedisMore.flushall (sale 7)).2).2 in
     (Z.of_nat (purchased NO MAX_RETRIES os s0) ≤ 2)%Z).
Proof.
  intros cfg os.
  assert (cfg_startsAt cfg = Js.of_Z 0) as H1 by reflexivity.
  assert (cfg_endsAt cfg = Js.of_Z 100) as H2 by reflexivity.
  assert (cfg_initialStock cfg = Js.of_Z 2) as H3 by reflexivity.
  assert (Z.abs 0 ≤ 2 ^ 53)%Z as H4 by (simpl; lia).
  assert (Z.abs 100 ≤ 2 ^ 53)%Z as H5 by (simpl; lia).
  assert (0 ≤ 2 ≤ 2 ^ 53)%Z as H6 by lia.
  do 6 (split; [assumption|]).
  exact (proj1 (status_after_sales NO SO MAX_RETRIES cfg 0 100 2 (sale 7) os 50
                  H1 H2 H3 H4 H5 H6)).
Defined.

Lemma rate_limit_window_witness :
  let env : gmap string string := ∅ in
  let s := Timed (sale 5) ∅ in
  env !! "DISABLE_RATELIMIT" ≠ Some "1"
  ∧ ((strs (t_db s) !! ("ratelimit:" ++ "10.0.0.7") = None
      ∧ expires s !! ("ratelimit:" ++ "10.0.0.7") = None)
     ∨ (∃ w, expires s !! ("ratelimit:" ++ "10.0.0.7") = Some w ∧ (w < 0)%Z))
  ∧ Forall (λ p : Z * Z, (p.1 ≤ 1 + 10000)%Z) [(5, 6); (9000, 9001)]
  ∧ (Z.of_nat (length [(5, 6); (9000, 9001)]) < 2 ^ 62)%Z
  ∧ (1 + 10000 < 20000)%Z
  ∧ (rateLimits env "10.0.0.7" ((0, 1) :: [(5, 6); (9000, 9001)]) s).1
    = [Continue; Continue; Continue].
Proof.
  intros env s.
  assert (env !! "DISABLE_RATELIMIT" ≠ Some "1") as H0 by done.
  assert ((strs (t_db s) !! ("ratelimit:" ++ "10.0.0.7") = None
           ∧ expires s !! ("ratelimit:" ++ "10.0.0.7") = None)
          ∨ (∃ w, expires s !! ("ratelimit:" ++ "10.0.0.7") = Some w ∧ (w < 0)%Z)) as H1
    by (left; split; reflexivity).
  assert (Forall (λ p : Z * Z, (p.1 ≤ 1 + 10000)%Z) [(5, 6); (9000, 9001)]) as H2
    by (repeat constructor; simpl; lia).
  assert (Z.of_nat (length [(5, 6); (9000, 9001)]) < 2 ^ 62)%Z as H3 by (simpl; lia).
  assert (1 + 10000 < 20000)%Z as H4 by lia.
  do 5 (split; [assumption|]).
  pose proof (rate_limit_window env H0 "10.0.0.7" 0 1 [(5, 6); (9000, 9001)] 20000 20001 s
                H1 H2 H3 H4) as H.
  destruct (rateLimits env "10.0.0.7" ((0, 1) :: [(5, 6); (9000, 9001)]) s) as [hs s'].
  exact (proj1 H).
Defined.

Lemma rate_limit_stuck_witness :
  let env : gmap string string := ∅ in
  let s := Timed (sale 5) ∅ in
  env !! "DISABLE_RATELIMIT" ≠ Some "1"
  ∧ strs (t_db s) !! ("ratelimit:" ++ "10.0.0.7") = None
  ∧ expires s !! ("ratelimit:" ++ "10.0.0.7") = None
  ∧ (Z.of_nat (length [(5, 6); (90000000, 90000001)]) < 2 ^ 62)%Z
  ∧ expires (rateLimits env "10.0.0.7" [(5, 6); (90000000, 90000001)]
               (RedisTime.incr 0 ("ratelimit:" ++ "10.0.0.7") s).2).2
      !! ("ratelimit:" ++ "10.0.0.7") = None.
Proof.
  intros env s.
  assert (env !! "DISABLE_RATELIMIT" ≠ Some "1") as H0 by done.
  assert (strs (t_db s) !! ("ratelimit:" ++ "10.0.0.7") = None) as H1 by reflexivity.
  assert (expires s !! ("ratelimit:" ++ "10.0.0.7") = None) as H2 by reflexivity.
  assert (Z.of_nat (length [(5, 6); (90000000, 90000001)]) < 2 ^ 62)%Z as H3
    by (simpl; lia).
  do 4 (split; [assumption|]).
  pose proof (rate_limit_stuck env H0 "10.0.0.7" 0 [(5, 6); (90000000, 90000001)] s
                H1 H2 H3) as H.
  cbv zeta in H.
  destruct (rateLimits env "10.0.0.7" [(5, 6); (90000000, 90000001)]
              (RedisTime.incr 0 ("ratelimit:" ++ "10.0.0.7") s).2) as [hs s'].
  exact (proj2 H).
Defined.

Lemma csrf_rotation_witness :
  let rnd := repeat Byte.x2a 32 in
  let req := Request "10.0.0.7" ∅ ∅ in
  length rnd = 32%nat
  ∧ assertCsrf req ≠ None
  ∧ ∃ reason token,
      assertCsrf req = Some reason
      ∧ csrfPreHandler rnd req = Some (Response 403 (PCsrfError reason token) (Some token))
      ∧ issueCsrfToken rnd = Response 200 (PCsrfToken token) (Some token)
      ∧ token = toBase64Url rnd
      ∧ String.length token = 43%nat
      ∧ JsMore.string_forall is_url token = true
      ∧ ∀ rnd', csrfPreHandler rnd' (with_token token req) = None.
Proof.
  intros rnd req.
  assert (length rnd = 32%nat) as H1 by reflexivity.
  assert (assertCsrf req ≠ None) as H2 by done.
  do 2 (split; [assumption|]).
  exact (csrf_rotation rnd req H1 H2).
Defined.

Lemma resetSale_store_witness :
  (Z.abs 0 ≤ 2 ^ 53)%Z
  ∧ (Z.abs 100 ≤ 2 ^ 53)%Z
  ∧ (Z.abs 5 ≤ 2 ^ 53)%Z
  ∧ same_data (sale 5) (resetSale SO (Js.of_Z 0) (Js.of_Z 100) (Js.of_Z 5) (sale 3)).2.
Proof.
  assert (Z.abs 0 ≤ 2 ^ 53)%Z as H1 by (simpl; lia).
  assert (Z.abs 100 ≤ 2 ^ 53)%Z as H2 by (simpl; lia).
  assert (Z.abs 5 ≤ 2 ^ 53)%Z as H3 by (simpl; lia).
  do 3 (split; [assumption|]).
  exact (proj2 (proj2 (proj2 (resetSale_store SO 0 100 5 (sale 3) H1 H2 H3)))
           eq_refl eq_refl).
Defined.

Lemma status_predicts_purchase_witness :
  (0 < MAX_RETRIES)%nat
  ∧ (3 ≤ String.length (Js.trim "alice"))%nat
  ∧ strs (sale 5) !! userKey (Js.trim "alice") = None
  ∧ dirty (getconn (sale 5) 0) = false
  ∧ strs (sale 5) !! stockKey = Some (Js.string_of_Z 5)
  ∧ Js.in_int64 5 = true
  ∧ (doPurchase NO MAX_RETRIES 0 50 (Some "alice") (sale 5)).1
    = match st_status (getStatus NO 50 (sale 5)).1 with
      | upcoming | ended => Http 403 BNotActive
      | sold_out => Http 410 BSoldOut
      | active => Http 200 (BPurchased (Some (Js.string_of_Z 50 ++ ":" ++ Js.trim "alice")))
      end.
Proof.
  assert (0 < MAX_RETRIES)%nat as H1 by (unfold MAX_RETRIES; lia).
  assert (3 ≤ String.length (Js.trim "alice"))%nat as H2
    by (vm_compute; repeat constructor).
  assert (strs (sale 5) !! userKey (Js.trim "alice") = None) as H3 by reflexivity.
  assert (dirty (getconn (sale 5) 0) = false) as H4 by reflexivity.
  assert (strs (sale 5) !! stockKey = Some (Js.string_of_Z 5)) as H5 by reflexivity.
  assert (Js.in_int64 5 = true) as H6 by reflexivity.
  do 6 (split; [assumption|]).
  exact (status_predicts_purchase NO MAX_RETRIES 0 50 "alice" (sale 5) 5
           H1 H2 H3 H4 H5 H6).
Defined.

Lemma status_phases_in_order_witness :
  (10 ≤ 200)%Z
  ∧ (phase_rank (st_status (getStatus NO 10 (sale 5)).1)
     ≤ phase_rank (st_status (getStatus NO 200 (sale 5)).1))%nat.
Proof.
  assert (10 ≤ 200)%Z as H1 by lia.
  split; [assumption|].
  exact (status_phases_in_order NO (sale 5) 10 200 H1).
Defined.

End MoreOnTheSale.
